(** * Rental blacklist manager: risk scoring and tenant scoping

    A shallow embedding of [server/src/handlers/blacklist.ts] and
    [server/src/handlers/search.ts] (together with the parts of
    [server/src/schema.ts] and [server/src/db/schema.ts] they rely on),
    the properties of them that the specification states, and further
    properties that the code shows.

    Conventions of the embedding:
    - JavaScript numbers that hold ids, scores and timestamps are integers
      of [Z]; a [Date] is its number of milliseconds since the epoch.
    - JavaScript strings are [string]s of 8-bit characters;
      [toLowerCase] acts on the letters A-Z and leaves every other
      character alone (the keywords of the score are plain ASCII).
    - [null] in a nullable column or field is [None]; a field of an input
      object that may be left out ([.optional()]) is an [option] whose
      [None] is [undefined], so a nullable optional field has three states.
    - A table is the list of its rows in insertion order; a [serial]
      column draws its value from a counter kept next to the rows.
    - Where the store is more precise than this, the statements say what
      they assume: ids within the range of an [integer] column ([int4]),
      ASCII text where letter case is folded by the store ([asciiOnly]),
      distinct times of creation where the order of a listing matters
      ([distinctCreation]), and results up to permutation where a query
      has no [ORDER BY]. *)

From Stdlib Require Import ZArith List String Ascii Bool Lia Permutation.
Import ListNotations.

Local Open Scope string_scope.
Local Open Scope Z_scope.

(** ** JavaScript strings *)

Module Js.

(** [c.toLowerCase()] for one character: A-Z are moved to a-z. *)
Definition toLowerCaseChar (c : ascii) : ascii :=
  let n := N_of_ascii c in
  if ((65 <=? n) && (n <=? 90))%N then ascii_of_N (n + 32) else c.

(** [s.toLowerCase()] *)
Fixpoint toLowerCase (s : string) : string :=
  match s with
  | EmptyString => EmptyString
  | String c s' => String (toLowerCaseChar c) (toLowerCase s')
  end.

(** [s.startsWith(p)] *)
Fixpoint startsWith (s p : string) {struct p} : bool :=
  match p, s with
  | EmptyString, _ => true
  | String _ _, EmptyString => false
  | String a p', String b s' => Ascii.eqb a b && startsWith s' p'
  end.

(** [s.includes(k)]: [k] occurs in [s] at some position. *)
Fixpoint includes (s k : string) : bool :=
  startsWith s k ||
  match s with
  | EmptyString => false
  | String _ s' => includes s' k
  end.

(** [Boolean(x)] for [x : string | null]: [null] and the empty string
    are falsy, every other string is truthy. *)
Definition Boolean (x : option string) : bool :=
  match x with
  | None => false
  | Some EmptyString => false
  | Some (String _ _) => true
  end.

(** [a ?? b] where [a] may be [undefined] (the outer [None]). *)
Definition nullish {A : Type} (a : option A) (b : A) : A :=
  match a with
  | Some v => v
  | None => b
  end.

(** [a ?? b] where [a] may be [undefined] (outer [None]) or [null]
    (inner [None]): both fall through to [b]. *)
Definition nullish_nullable {A : Type} (a : option (option A)) (b : option A)
  : option A :=
  match a with
  | Some (Some v) => Some v
  | Some None => b
  | None => b
  end.

End Js.

(** ** ScoreEngine: [calculateBlacklistScore] *)

Definition highRiskKeywords : list string :=
  ["fraud"; "theft"; "violence"; "criminal"; "scam"].

Definition mediumRiskKeywords : list string :=
  ["dispute"; "complaint"; "unpaid"; "breach"].

(** [Math.min] on integers. *)
Definition Math_min (a b : Z) : Z := if a <=? b then a else b.

Definition calculateBlacklistScore
    (reason : string) (hasDocuments hasFaceImage : bool) : Z :=
  let baseScore := 50 in
  let reasonLower := Js.toLowerCase reason in
  let baseScore :=
    if existsb (fun keyword => Js.includes reasonLower keyword) highRiskKeywords
    then baseScore + 30
    else if existsb (fun keyword => Js.includes reasonLower keyword)
                    mediumRiskKeywords
    then baseScore + 15
    else baseScore in
  let baseScore := if hasDocuments then baseScore + 10 else baseScore in
  let baseScore := if hasFaceImage then baseScore + 10 else baseScore in
  Math_min baseScore 100.

(** *** The reference definition of the specification

    Written from the words of the specification, independently of the
    code above: a keyword "is contained" when it is equal to the
    substring of its own length at some position; the two keyword rules
    are tried in order and the first that applies gives the addition. *)

Module Reference.

(** [kw] is the substring of [s] starting at some position. *)
Definition occursIn (kw s : string) : bool :=
  existsb (fun i => String.eqb (substring i (String.length kw) s) kw)
          (seq 0 (S (String.length s))).

Definition containsAny (kws : list string) (s : string) : bool :=
  existsb (fun kw => occursIn kw s) kws.

(** The keyword rules, most severe first. *)
Definition rules : list (list string * Z) :=
  [ (["fraud"; "theft"; "violence"; "criminal"; "scam"], 30);
    (["dispute"; "complaint"; "unpaid"; "breach"], 15) ].

(** First match wins: later rules are not looked at. *)
Definition keywordAddition (lowered : string) : Z :=
  match find (fun rule => containsAny (fst rule) lowered) rules with
  | Some rule => snd rule
  | None => 0
  end.

Definition computeScore
    (reason : string) (hasDocuments hasFaceImage : bool) : Z :=
  let start := 50 in
  let total :=
    start + keywordAddition (Js.toLowerCase reason)
    + (if hasDocuments then 10 else 0)
    + (if hasFaceImage then 10 else 0) in
  Z.min total 100.

End Reference.

(** ** Data model ([schema.ts], [db/schema.ts]) *)

(** [blacklistStatusEnum] *)
Inductive BlacklistStatus : Type := active | inactive | pending | resolved.

Definition BlacklistStatus_eqb (a b : BlacklistStatus) : bool :=
  match a, b with
  | active, active | inactive, inactive
  | pending, pending | resolved, resolved => true
  | _, _ => false
  end.

(** A row of [usersTable]; the columns no handler below reads are left out. *)
Module User.
Record t : Type := mk {
  id : Z;
  is_admin : bool
}.
End User.

(** A row of [companiesTable]. *)
Module Company.
Record t : Type := mk {
  id : Z;
  user_id : Z;
  name : string
}.
End Company.

(** [blacklistEntrySchema], a row of [blacklistEntriesTable]. *)
Module BlacklistEntry.
Record t : Type := mk {
  id : Z;
  user_id : Z;
  company_id : Z;
  first_name : string;
  last_name : string;
  id_number : string;
  phone : option string;
  email : option string;
  face_image_url : option string;
  id_document_urls : list string;
  blacklist_score : Z;
  reason : string;
  status : BlacklistStatus;
  is_blacklisted : bool;
  created_at : Z;
  updated_at : Z
}.
End BlacklistEntry.

(** A row of [activityLogsTable]. *)
Module ActivityLog.
Record t : Type := mk {
  id : Z;
  user_id : Z;
  action : string;
  resource_type : string;
  resource_id : option Z;
  details : option string;
  ip_address : option string;
  user_agent : option string;
  created_at : Z
}.
End ActivityLog.

(** [createBlacklistEntrySchema], after parsing: the two fields with a
    schema default are always present. *)
Module CreateBlacklistEntry.
Record t : Type := mk {
  first_name : string;
  last_name : string;
  id_number : string;
  phone : option string;
  email : option string;
  face_image_url : option string;
  id_document_urls : list string;
  reason : string;
  is_blacklisted : bool
}.

(** [z.boolean().default(true)] *)
Definition is_blacklisted_default (given : option bool) : bool :=
  match given with Some b => b | None => true end.

(** [z.array(z.string()).default([])] *)
Definition id_document_urls_default (given : option (list string))
  : list string :=
  match given with Some l => l | None => [] end.
End CreateBlacklistEntry.

(** [updateBlacklistEntrySchema]: every field but [id] is [.optional()],
    and [phone], [email], [face_image_url] are [.nullable()] as well. *)
Module UpdateBlacklistEntry.
Record t : Type := mk {
  id : Z;
  first_name : option string;
  last_name : option string;
  id_number : option string;
  phone : option (option string);
  email : option (option string);
  face_image_url : option (option string);
  id_document_urls : option (list string);
  reason : option string;
  status : option BlacklistStatus;
  is_blacklisted : option bool
}.

(** The patch that names an entry and gives no field. *)
Definition empty (entryId : Z) : t :=
  mk entryId None None None None None None None None None None.
End UpdateBlacklistEntry.

(** [blacklistFilterSchema] *)
Module BlacklistFilter.
Record t : Type := mk {
  status : option BlacklistStatus;
  company_id : option Z;
  search : option string;
  date_from : option Z;
  date_to : option Z;
  min_score : option Z;
  max_score : option Z
}.

(** [{}] *)
Definition none : t := mk None None None None None None None.
End BlacklistFilter.

(** [paginationSchema] *)
Module Pagination.
Record t : Type := mk {
  page : Z;
  limit : Z
}.
End Pagination.

(** ** The query layer (drizzle-orm over PostgreSQL)

    A condition is evaluated on a row to [TRUE], [FALSE] or [NULL]; a
    [WHERE] clause keeps the rows on which it is [TRUE]. *)

Module Sql.

(** A truth value of SQL; [None] is [NULL]. *)
Definition tri : Type := option bool.

Definition and3 (a b : tri) : tri :=
  match a, b with
  | Some false, _ | _, Some false => Some false
  | Some true, Some true => Some true
  | _, _ => None
  end.

Definition or3 (a b : tri) : tri :=
  match a, b with
  | Some true, _ | _, Some true => Some true
  | Some false, Some false => Some false
  | _, _ => None
  end.

Definition is_true (v : tri) : bool :=
  match v with Some true => true | _ => false end.

(** *** [LIKE]

    In a pattern [%] stands for any run of characters, [_] for any one
    character, and a backslash makes the character after it stand for
    itself.  PostgreSQL rejects a pattern that ends in a lone
    backslash: [parsePattern] has no result there. *)

Inductive token : Type :=
| AnyRun
| AnyChar
| Exactly (c : ascii).

Definition backslash : ascii := ascii_of_nat 92.

Definition isMeta (c : ascii) : bool :=
  Ascii.eqb c "%" || Ascii.eqb c "_" || Ascii.eqb c backslash.

Fixpoint parsePattern (p : string) : option (list token) :=
  match p with
  | EmptyString => Some []
  | String c p' =>
      if Ascii.eqb c backslash then
        match p' with
        | EmptyString => None
        | String c' p'' => option_map (cons (Exactly c')) (parsePattern p'')
        end
      else if Ascii.eqb c "%" then option_map (cons AnyRun) (parsePattern p')
      else if Ascii.eqb c "_" then option_map (cons AnyChar) (parsePattern p')
      else option_map (cons (Exactly c)) (parsePattern p')
  end.

Fixpoint matchTokens (ts : list token) (s : string) {struct ts} : bool :=
  match ts with
  | [] => match s with EmptyString => true | String _ _ => false end
  | AnyRun :: ts' =>
      (fix run (s : string) : bool :=
         matchTokens ts' s ||
         match s with
         | EmptyString => false
         | String _ s' => run s'
         end) s
  | AnyChar :: ts' =>
      match s with
      | EmptyString => false
      | String _ s' => matchTokens ts' s'
      end
  | Exactly c :: ts' =>
      match s with
      | EmptyString => false
      | String c' s' => Ascii.eqb c c' && matchTokens ts' s'
      end
  end.

(** [value LIKE pattern], case-sensitive; [NULL LIKE pattern] is [NULL].
    A rejected pattern matches nothing ([searchPattern_accepted] shows
    that the handlers never build one). *)
Definition likeValue (value : option string) (pattern : string) : tri :=
  match value with
  | None => None
  | Some s =>
      match parsePattern pattern with
      | Some ts => Some (matchTokens ts s)
      | None => Some false
      end
  end.

Section Conditions.
Context {R : Type}.

(** [SQL<unknown>] over the rows of one table. *)
Definition cond : Type := R -> tri.

Definition eqZ (col : R -> Z) (v : Z) : cond :=
  fun r => Some (col r =? v).

Definition eqStatus (col : R -> BlacklistStatus) (v : BlacklistStatus)
  : cond :=
  fun r => Some (BlacklistStatus_eqb (col r) v).

Definition gte (col : R -> Z) (v : Z) : cond :=
  fun r => Some (v <=? col r).

Definition lte (col : R -> Z) (v : Z) : cond :=
  fun r => Some (col r <=? v).

Definition between (col : R -> Z) (lo hi : Z) : cond :=
  fun r => Some ((lo <=? col r) && (col r <=? hi)).

Definition like (col : R -> option string) (pattern : string) : cond :=
  fun r => likeValue (col r) pattern.

(** [and(...cs)] and [or(...cs)] *)
Definition and_ (cs : list cond) : cond :=
  fun r => fold_right (fun c acc => and3 (c r) acc) (Some true) cs.

Definition or_ (cs : list cond) : cond :=
  fun r => fold_right (fun c acc => or3 (c r) acc) (Some false) cs.

(** [.where(c)] of a [select] *)
Definition where_ (c : cond) (rows : list R) : list R :=
  filter (fun r => is_true (c r)) rows.

(** [.set(f).where(c)] of an [update]: the table afterwards *)
Definition update_where (c : cond) (f : R -> R) (rows : list R) : list R :=
  map (fun r => if is_true (c r) then f r else r) rows.

(** [.where(c)] of a [delete]: the table afterwards *)
Definition delete_where (c : cond) (rows : list R) : list R :=
  filter (fun r => negb (is_true (c r))) rows.

(** [.orderBy(desc(col))]: rows with equal keys keep their order here;
    the store fixes no order among them. *)
Fixpoint insert_desc (key : R -> Z) (x : R) (sorted : list R) : list R :=
  match sorted with
  | [] => [x]
  | y :: rest =>
      if key x <? key y then y :: insert_desc key x rest
      else x :: sorted
  end.

Definition orderBy_desc (key : R -> Z) (rows : list R) : list R :=
  fold_right (insert_desc key) [] rows.

(** [.limit(n).offset(k)] *)
Definition limit_offset (n k : Z) (rows : list R) : list R :=
  firstn (Z.to_nat n) (skipn (Z.to_nat k) rows).

End Conditions.

End Sql.

(** ** The database and the effects of a handler *)

(** A table with a [serial] primary key: its rows and the next value of
    the sequence behind the key. *)
Record Table (R : Type) : Type := mkTable {
  rows : list R;
  next_id : Z
}.
Arguments mkTable {R} _ _.
Arguments rows {R} _.
Arguments next_id {R} _.

Record Db : Type := mkDb {
  usersTable : list User.t;
  companiesTable : list Company.t;
  blacklistEntriesTable : Table BlacklistEntry.t;
  activityLogsTable : Table ActivityLog.t
}.

(** What a handler can throw. *)
Inductive Error : Type :=
| UserCompanyNotFound (userId : Z)
    (* `User company not found for user ID: ${userId}` *)
| NotFoundOrAccessDenied
    (* 'Blacklist entry not found or access denied' *)
| FailedToUpdate
    (* 'Failed to update blacklist entry' *)
| FailedToToggle
    (* 'Failed to toggle blacklist status' *)
| StorageError (message : string)
    (* thrown by the database driver *).

(** The state a handler runs in: the database and what has been written
    with [console.error]. *)
Record World : Type := mkWorld {
  db : Db;
  console : list (string * Error)
}.

Inductive Outcome (A : Type) : Type :=
| Returned (a : A)
| Thrown (e : Error).
Arguments Returned {A} _.
Arguments Thrown {A} _.

(** An [async] function: from a world to an outcome and a world. *)
Definition M (A : Type) : Type := World -> Outcome A * World.

Definition ret {A : Type} (a : A) : M A := fun w => (Returned a, w).

Definition throw {A : Type} (e : Error) : M A := fun w => (Thrown e, w).

Definition bind {A B : Type} (m : M A) (k : A -> M B) : M B :=
  fun w =>
    match m w with
    | (Returned a, w') => k a w'
    | (Thrown e, w') => (Thrown e, w')
    end.

(** [try { body } catch (error) { handler }] *)
Definition try_catch {A : Type} (body : M A) (handler : Error -> M A) : M A :=
  fun w =>
    match body w with
    | (Returned a, w') => (Returned a, w')
    | (Thrown e, w') => handler e w'
    end.

Definition get_db : M Db := fun w => (Returned (db w), w).

Definition put_db (d : Db) : M unit :=
  fun w => (Returned tt, mkWorld d (console w)).

(** [console.error(label, error)] *)
Definition console_error (label : string) (e : Error) : M unit :=
  fun w => (Returned tt, mkWorld (db w) (console w ++ [(label, e)])).

Declare Scope handler_scope.
Delimit Scope handler_scope with handler.
Notation "x <- m ;; k" := (bind m (fun x => k))
  (at level 61, m at next level, right associativity) : handler_scope.
Notation "m ;;; k" := (bind m (fun _ => k))
  (at level 61, right associativity) : handler_scope.

(** [try { body } catch (error) { console.error(label, error); throw error; }],
    the frame every exported handler is wrapped in. *)
Definition logged {A : Type} (label : string) (body : M A) : M A :=
  try_catch body
    (fun error => (console_error label error ;;; throw error)%handler).

(** The values of an insert into [activityLogsTable]; [id] and
    [created_at] are filled in by the database. *)
Module ActivityLogValues.
Record t : Type := mk {
  user_id : Z;
  action : string;
  resource_type : string;
  resource_id : option Z;
  details : option string;
  ip_address : option string;
  user_agent : option string
}.
End ActivityLogValues.

(** The activity-log sink: what [db.insert(activityLogsTable).values(v)
    .execute()] does to the table at a given time, or the error it throws. *)
Definition ActivitySink : Type :=
  Z -> ActivityLogValues.t -> Table ActivityLog.t ->
  Error + Table ActivityLog.t.

(** The sink of a database that works. *)
Definition insertActivityLog : ActivitySink :=
  fun now v tbl =>
    inr (mkTable
           (rows tbl ++
            [ActivityLog.mk (next_id tbl)
               (ActivityLogValues.user_id v) (ActivityLogValues.action v)
               (ActivityLogValues.resource_type v)
               (ActivityLogValues.resource_id v) (ActivityLogValues.details v)
               (ActivityLogValues.ip_address v) (ActivityLogValues.user_agent v)
               now])
           (next_id tbl + 1)).

(** A sink that is down. *)
Definition failingSink : ActivitySink :=
  fun _ _ _ => inl (StorageError "connection refused").

(** The object handed to [.set(...)] of an update of
    [blacklistEntriesTable]: a column is written exactly when its key is
    present. *)
Module UpdateData.
Record t : Type := mk {
  updated_at : Z;
  first_name : option string;
  last_name : option string;
  id_number : option string;
  phone : option (option string);
  email : option (option string);
  face_image_url : option (option string);
  id_document_urls : option (list string);
  reason : option string;
  status : option BlacklistStatus;
  is_blacklisted : option bool;
  blacklist_score : option Z
}.

(** The value of a column after the update: the one under the key when
    the key is present, the old one otherwise. *)
Definition written {A : Type} (key : option A) (old : A) : A :=
  match key with
  | Some v => v
  | None => old
  end.

Definition apply (u : t) (r : BlacklistEntry.t) : BlacklistEntry.t :=
  BlacklistEntry.mk
    (BlacklistEntry.id r)
    (BlacklistEntry.user_id r)
    (BlacklistEntry.company_id r)
    (written (first_name u) (BlacklistEntry.first_name r))
    (written (last_name u) (BlacklistEntry.last_name r))
    (written (id_number u) (BlacklistEntry.id_number r))
    (written (phone u) (BlacklistEntry.phone r))
    (written (email u) (BlacklistEntry.email r))
    (written (face_image_url u) (BlacklistEntry.face_image_url r))
    (written (id_document_urls u) (BlacklistEntry.id_document_urls r))
    (written (blacklist_score u) (BlacklistEntry.blacklist_score r))
    (written (reason u) (BlacklistEntry.reason r))
    (written (status u) (BlacklistEntry.status r))
    (written (is_blacklisted u) (BlacklistEntry.is_blacklisted r))
    (BlacklistEntry.created_at r)
    (updated_at u).
End UpdateData.

(** [array.length > 0] *)
Definition nonEmpty {A : Type} (l : list A) : bool :=
  0 <? Z.of_nat (List.length l).

(** ** The handlers of [handlers/blacklist.ts] *)

Section Handlers.

(** The activity-log sink the handlers write to. *)
Variable sink : ActivitySink.

(** The time of the call: [new Date()] and [defaultNow()]. *)
Variable now : Z.

Local Open Scope handler_scope.

Definition getUserCompanyId (userId : Z) : M Z :=
  logged "Failed to get user company ID:"
    (d <- get_db ;;
     let company :=
       Sql.where_ (Sql.eqZ Company.user_id userId) (companiesTable d) in
     match company with
     | [] => throw (UserCompanyNotFound userId)
     | first :: _ => ret (Company.id first)
     end).

Definition logActivity (userId : Z) (action : string)
    (resourceId : option Z) (details : option string) : M unit :=
  try_catch
    (d <- get_db ;;
     match sink now
             (ActivityLogValues.mk userId action "blacklist_entry"
                resourceId details None None)
             (activityLogsTable d) with
     | inr logs =>
         put_db (mkDb (usersTable d) (companiesTable d)
                   (blacklistEntriesTable d) logs)
     | inl error => throw error
     end)
    (fun error => console_error "Failed to log activity:" error).

(** [db.insert(blacklistEntriesTable).values(v).returning()]: the row
    gets the next [id] and the current time in both timestamps. *)
Definition insertBlacklistEntry
    (mkRow : Z -> Z -> Z -> BlacklistEntry.t) : M BlacklistEntry.t :=
  d <- get_db ;;
  let tbl := blacklistEntriesTable d in
  let entry := mkRow (next_id tbl) now now in
  put_db (mkDb (usersTable d) (companiesTable d)
            (mkTable (rows tbl ++ [entry]) (next_id tbl + 1))
            (activityLogsTable d)) ;;;
  ret entry.

Definition createBlacklistEntry (userId : Z) (input : CreateBlacklistEntry.t)
  : M BlacklistEntry.t :=
  logged "Blacklist entry creation failed:"
    (companyId <- getUserCompanyId userId ;;
     let blacklistScore :=
       calculateBlacklistScore
         (CreateBlacklistEntry.reason input)
         (nonEmpty (CreateBlacklistEntry.id_document_urls input))
         (Js.Boolean (CreateBlacklistEntry.face_image_url input)) in
     entry <- insertBlacklistEntry
                (fun id created_at updated_at =>
                   BlacklistEntry.mk id userId companyId
                     (CreateBlacklistEntry.first_name input)
                     (CreateBlacklistEntry.last_name input)
                     (CreateBlacklistEntry.id_number input)
                     (CreateBlacklistEntry.phone input)
                     (CreateBlacklistEntry.email input)
                     (CreateBlacklistEntry.face_image_url input)
                     (CreateBlacklistEntry.id_document_urls input)
                     blacklistScore
                     (CreateBlacklistEntry.reason input)
                     active
                     (CreateBlacklistEntry.is_blacklisted input)
                     created_at updated_at) ;;
     logActivity userId "created" (Some (BlacklistEntry.id entry))
       (Some ("Created blacklist entry for "
              ++ CreateBlacklistEntry.first_name input ++ " "
              ++ CreateBlacklistEntry.last_name input)%string) ;;;
     ret entry).

(** The free-text condition of [getBlacklistEntries]. *)
Definition searchCondition (search : string) : Sql.cond :=
  let searchPattern := ("%" ++ search ++ "%")%string in
  Sql.or_
    [ Sql.like (fun r => Some (BlacklistEntry.first_name r)) searchPattern;
      Sql.like (fun r => Some (BlacklistEntry.last_name r)) searchPattern;
      Sql.like (fun r => Some (BlacklistEntry.id_number r)) searchPattern;
      Sql.like BlacklistEntry.email searchPattern;
      Sql.like (fun r => Some (BlacklistEntry.reason r)) searchPattern ].

(** The [conditions] array of [getBlacklistEntries], in the order it is
    filled. *)
Definition listConditions (companyId : Z) (filters : BlacklistFilter.t)
  : list (@Sql.cond BlacklistEntry.t) :=
  [Sql.eqZ BlacklistEntry.company_id companyId]
  ++ match BlacklistFilter.status filters with
     | Some st => [Sql.eqStatus BlacklistEntry.status st]
     | None => []
     end
  ++ match BlacklistFilter.search filters with
     | Some (String c rest) => [searchCondition (String c rest)]
     | Some EmptyString | None => []
     end
  ++ match BlacklistFilter.date_from filters,
           BlacklistFilter.date_to filters with
     | Some date_from, Some date_to =>
         [Sql.between BlacklistEntry.created_at date_from date_to]
     | Some date_from, None => [Sql.gte BlacklistEntry.created_at date_from]
     | None, Some date_to => [Sql.lte BlacklistEntry.created_at date_to]
     | None, None => []
     end
  ++ match BlacklistFilter.min_score filters with
     | Some min_score => [Sql.gte BlacklistEntry.blacklist_score min_score]
     | None => []
     end
  ++ match BlacklistFilter.max_score filters with
     | Some max_score => [Sql.lte BlacklistEntry.blacklist_score max_score]
     | None => []
     end.

(** [conditions.length === 1 ? conditions[0] : and(...conditions)] *)
Definition whereCondition (companyId : Z) (filters : BlacklistFilter.t)
  : @Sql.cond BlacklistEntry.t :=
  match listConditions companyId filters with
  | [only] => only
  | conditions => Sql.and_ conditions
  end.

Definition getBlacklistEntries (userId : Z) (filters : BlacklistFilter.t)
    (pagination : Pagination.t) : M (list BlacklistEntry.t * Z) :=
  logged "Failed to get blacklist entries:"
    (companyId <- getUserCompanyId userId ;;
     d <- get_db ;;
     let filtered :=
       Sql.where_ (whereCondition companyId filters)
         (rows (blacklistEntriesTable d)) in
     let entries :=
       Sql.limit_offset
         (Pagination.limit pagination)
         ((Pagination.page pagination - 1) * Pagination.limit pagination)
         (Sql.orderBy_desc BlacklistEntry.created_at filtered) in
     let total := Z.of_nat (List.length filtered) in
     ret (entries, total)).

(** The condition on which every single-entry statement runs. *)
Definition entryOfCompany (entryId companyId : Z)
  : @Sql.cond BlacklistEntry.t :=
  Sql.and_ [ Sql.eqZ BlacklistEntry.id entryId;
             Sql.eqZ BlacklistEntry.company_id companyId ].

Definition getBlacklistEntry (userId entryId : Z)
  : M (option BlacklistEntry.t) :=
  logged "Failed to get blacklist entry:"
    (companyId <- getUserCompanyId userId ;;
     d <- get_db ;;
     let results :=
       Sql.where_ (entryOfCompany entryId companyId)
         (rows (blacklistEntriesTable d)) in
     ret (match results with
          | first :: _ => Some first
          | [] => None
          end)).

(** [db.update(blacklistEntriesTable).set(data).where(c).returning()] *)
Definition updateBlacklistEntries (c : @Sql.cond BlacklistEntry.t)
    (data : UpdateData.t) : M (list BlacklistEntry.t) :=
  d <- get_db ;;
  let tbl := blacklistEntriesTable d in
  put_db (mkDb (usersTable d) (companiesTable d)
            (mkTable (Sql.update_where c (UpdateData.apply data) (rows tbl))
               (next_id tbl))
            (activityLogsTable d)) ;;;
  ret (map (UpdateData.apply data) (Sql.where_ c (rows tbl))).

(** [db.delete(blacklistEntriesTable).where(c)] *)
Definition deleteBlacklistEntries (c : @Sql.cond BlacklistEntry.t) : M unit :=
  d <- get_db ;;
  let tbl := blacklistEntriesTable d in
  put_db (mkDb (usersTable d) (companiesTable d)
            (mkTable (Sql.delete_where c (rows tbl)) (next_id tbl))
            (activityLogsTable d)).

(** [x !== undefined] *)
Definition defined {A : Type} (x : option A) : bool :=
  match x with Some _ => true | None => false end.

(** The score that [updateBlacklistEntry] puts into [updateData], when
    it puts one. *)
Definition recalculatedScore (input : UpdateBlacklistEntry.t)
    (existingEntry : BlacklistEntry.t) : option Z :=
  if defined (UpdateBlacklistEntry.reason input)
     || defined (UpdateBlacklistEntry.id_document_urls input)
     || defined (UpdateBlacklistEntry.face_image_url input)
  then
    let reason :=
      Js.nullish (UpdateBlacklistEntry.reason input)
        (BlacklistEntry.reason existingEntry) in
    let documentUrls :=
      Js.nullish (UpdateBlacklistEntry.id_document_urls input)
        (BlacklistEntry.id_document_urls existingEntry) in
    let faceImageUrl :=
      Js.nullish_nullable (UpdateBlacklistEntry.face_image_url input)
        (BlacklistEntry.face_image_url existingEntry) in
    Some (calculateBlacklistScore reason (nonEmpty documentUrls)
            (Js.Boolean faceImageUrl))
  else None.

(** The [updateData] object of [updateBlacklistEntry]: [updated_at], the
    fields the input gives, and the new score when one is computed. *)
Definition prepareUpdateData (input : UpdateBlacklistEntry.t)
    (existingEntry : BlacklistEntry.t) : UpdateData.t :=
  UpdateData.mk now
    (UpdateBlacklistEntry.first_name input)
    (UpdateBlacklistEntry.last_name input)
    (UpdateBlacklistEntry.id_number input)
    (UpdateBlacklistEntry.phone input)
    (UpdateBlacklistEntry.email input)
    (UpdateBlacklistEntry.face_image_url input)
    (UpdateBlacklistEntry.id_document_urls input)
    (UpdateBlacklistEntry.reason input)
    (UpdateBlacklistEntry.status input)
    (UpdateBlacklistEntry.is_blacklisted input)
    (recalculatedScore input existingEntry).

(** The object [toggleBlacklistStatus] hands to [.set(...)]. *)
Definition toggleData (isBlacklisted : bool) : UpdateData.t :=
  let newStatus := if isBlacklisted then active else inactive in
  UpdateData.mk now None None None None None None None None
    (Some newStatus) (Some isBlacklisted) None.

Definition updateBlacklistEntry (userId : Z) (input : UpdateBlacklistEntry.t)
  : M BlacklistEntry.t :=
  logged "Failed to update blacklist entry:"
    (companyId <- getUserCompanyId userId ;;
     existing <- getBlacklistEntry userId (UpdateBlacklistEntry.id input) ;;
     match existing with
     | None => throw NotFoundOrAccessDenied
     | Some existingEntry =>
         let updateData := prepareUpdateData input existingEntry in
         result <- updateBlacklistEntries
                     (entryOfCompany (UpdateBlacklistEntry.id input) companyId)
                     updateData ;;
         match result with
         | [] => throw FailedToUpdate
         | updatedEntry :: _ =>
             logActivity userId "updated"
               (Some (UpdateBlacklistEntry.id input))
               (Some ("Updated blacklist entry for "
                      ++ BlacklistEntry.first_name updatedEntry ++ " "
                      ++ BlacklistEntry.last_name updatedEntry)%string) ;;;
             ret updatedEntry
         end
     end).

Definition deleteBlacklistEntry (userId entryId : Z) : M bool :=
  logged "Failed to delete blacklist entry:"
    (companyId <- getUserCompanyId userId ;;
     existing <- getBlacklistEntry userId entryId ;;
     match existing with
     | None => throw NotFoundOrAccessDenied
     | Some existingEntry =>
         deleteBlacklistEntries (entryOfCompany entryId companyId) ;;;
         logActivity userId "deleted" (Some entryId)
           (Some ("Deleted blacklist entry for "
                  ++ BlacklistEntry.first_name existingEntry ++ " "
                  ++ BlacklistEntry.last_name existingEntry)%string) ;;;
         ret true
     end).

Definition toggleBlacklistStatus (userId entryId : Z) (isBlacklisted : bool)
  : M BlacklistEntry.t :=
  logged "Failed to toggle blacklist status:"
    (companyId <- getUserCompanyId userId ;;
     existing <- getBlacklistEntry userId entryId ;;
     match existing with
     | None => throw NotFoundOrAccessDenied
     | Some existingEntry =>
         result <- updateBlacklistEntries
                     (entryOfCompany entryId companyId)
                     (toggleData isBlacklisted) ;;
         match result with
         | [] => throw FailedToToggle
         | updatedEntry :: _ =>
             logActivity userId
               (if isBlacklisted then "blacklisted" else "unblacklisted")
               (Some entryId)
               (Some ((if isBlacklisted then "Blacklisted" else "Unblacklisted")
                      ++ " " ++ BlacklistEntry.first_name updatedEntry ++ " "
                      ++ BlacklistEntry.last_name updatedEntry)%string) ;;;
             ret updatedEntry
         end
     end).

End Handlers.

(** ** Vocabulary of the properties *)

(** [k] occurs in [s]. *)
Definition Substring (k s : string) : Prop :=
  exists pre post, s = pre ++ k ++ post.

(** The reason, lowercased, contains one of the keywords. *)
Definition mentions (keywords : list string) (reason : string) : bool :=
  existsb (fun keyword => Js.includes (Js.toLowerCase reason) keyword) keywords.

(** A reason with a medium-risk keyword and no high-risk keyword. *)
Definition mediumRiskOnly (reason : string) : Prop :=
  mentions mediumRiskKeywords reason = true
  /\ mentions highRiskKeywords reason = false.

(** Every medium-risk-only reason scores within [lo, hi], whatever the
    evidence flags. *)
Definition mediumScoresWithin (lo hi : Z) : Prop :=
  forall reason hasDocuments hasFaceImage,
    mediumRiskOnly reason ->
    lo <= calculateBlacklistScore reason hasDocuments hasFaceImage <= hi.

(** The rows of [blacklistEntriesTable] in a world. *)
Definition entries (w : World) : list BlacklistEntry.t :=
  rows (blacklistEntriesTable (db w)).

(** [id] is the primary key of [blacklistEntriesTable]. *)
Definition primaryKey (w : World) : Prop :=
  NoDup (map BlacklistEntry.id (entries w)).

(** The state of a table whose [id] column is a [serial] primary key: no
    two rows share an id, and every id has been drawn from the sequence. *)
Definition wellFormed (w : World) : Prop :=
  primaryKey w
  /\ forall e, In e (entries w) ->
               BlacklistEntry.id e < next_id (blacklistEntriesTable (db w)).

(** The company a user acts for: the first row of [companiesTable] that
    names the user, when there is one. *)
Definition companyOf (w : World) (userId : Z) : option Z :=
  match Sql.where_ (Sql.eqZ Company.user_id userId) (companiesTable (db w)) with
  | first :: _ => Some (Company.id first)
  | [] => None
  end.

(** The world after a handler has failed with [e]: the database as it
    was, and one more line on the console. *)
Definition failed (w : World) (label : string) (e : Error) : World :=
  mkWorld (db w) (console w ++ [(label, e)]).

(** The world with other rows in [blacklistEntriesTable], and a given
    next value of its sequence. *)
Definition withEntries (w : World) (rows' : list BlacklistEntry.t)
    (next : Z) : World :=
  mkWorld
    (mkDb (usersTable (db w)) (companiesTable (db w))
       (mkTable rows' next) (activityLogsTable (db w)))
    (console w).

(** The world after [logActivity]: the sink's table when the sink
    succeeds, and a line on the console when it throws. *)
Definition afterLog (sink : ActivitySink) (now : Z)
    (v : ActivityLogValues.t) (w : World) : World :=
  match sink now v (activityLogsTable (db w)) with
  | inr logs =>
      mkWorld
        (mkDb (usersTable (db w)) (companiesTable (db w))
           (blacklistEntriesTable (db w)) logs)
        (console w)
  | inl error => failed w "Failed to log activity:" error
  end.

(** The values [logActivity] inserts. *)
Definition activity (userId : Z) (action : string) (resourceId : Z)
    (details : string) : ActivityLogValues.t :=
  ActivityLogValues.mk userId action "blacklist_entry"
    (Some resourceId) (Some details) None None.

(** [r] is [e] in every field except, possibly, [updated_at]. *)
Definition sameButUpdatedAt (e r : BlacklistEntry.t) : Prop :=
  BlacklistEntry.id r = BlacklistEntry.id e
  /\ BlacklistEntry.user_id r = BlacklistEntry.user_id e
  /\ BlacklistEntry.company_id r = BlacklistEntry.company_id e
  /\ BlacklistEntry.first_name r = BlacklistEntry.first_name e
  /\ BlacklistEntry.last_name r = BlacklistEntry.last_name e
  /\ BlacklistEntry.id_number r = BlacklistEntry.id_number e
  /\ BlacklistEntry.phone r = BlacklistEntry.phone e
  /\ BlacklistEntry.email r = BlacklistEntry.email e
  /\ BlacklistEntry.face_image_url r = BlacklistEntry.face_image_url e
  /\ BlacklistEntry.id_document_urls r = BlacklistEntry.id_document_urls e
  /\ BlacklistEntry.blacklist_score r = BlacklistEntry.blacklist_score e
  /\ BlacklistEntry.reason r = BlacklistEntry.reason e
  /\ BlacklistEntry.status r = BlacklistEntry.status e
  /\ BlacklistEntry.is_blacklisted r = BlacklistEntry.is_blacklisted e
  /\ BlacklistEntry.created_at r = BlacklistEntry.created_at e.

(** The table with the row whose id is that of [r] replaced by [r]. *)
Definition replaceById (r : BlacklistEntry.t) (l : list BlacklistEntry.t)
  : list BlacklistEntry.t :=
  map (fun x => if BlacklistEntry.id x =? BlacklistEntry.id r then r else x) l.

(** The score of an entry's own reason and evidence. *)
Definition scoreOf (e : BlacklistEntry.t) : Z :=
  calculateBlacklistScore (BlacklistEntry.reason e)
    (nonEmpty (BlacklistEntry.id_document_urls e))
    (Js.Boolean (BlacklistEntry.face_image_url e)).

(** Two runs of a handler that end with the same outcome and the same
    users, companies and blacklist entries; the activity log and the
    console may differ. *)
Definition sameResult {A : Type} (a b : Outcome A * World) : Prop :=
  fst a = fst b
  /\ blacklistEntriesTable (db (snd a)) = blacklistEntriesTable (db (snd b))
  /\ companiesTable (db (snd a)) = companiesTable (db (snd b))
  /\ usersTable (db (snd a)) = usersTable (db (snd b)).

(** The entries of one company. *)
Definition entriesOfCompany (w : World) (companyId : Z)
  : list BlacklistEntry.t :=
  filter (fun e => BlacklistEntry.company_id e =? companyId) (entries w).

(** Administrators list across companies: when the table holds two
    entries of two different companies, an administrator's listing
    without filter, on a first page of at least two rows, has total 2 and
    contains both. *)
Definition adminListsAllCompanies : Prop :=
  forall (w : World) (admin : User.t) (a b : BlacklistEntry.t)
         (pagination : Pagination.t),
    In admin (usersTable (db w)) ->
    User.is_admin admin = true ->
    entries w = [a; b] ->
    BlacklistEntry.company_id a <> BlacklistEntry.company_id b ->
    Pagination.page pagination = 1 ->
    2 <= Pagination.limit pagination ->
    exists es,
      fst (getBlacklistEntries (User.id admin) BlacklistFilter.none
             pagination w)
      = Returned (es, 2)
      /\ In a es /\ In b es.

(** A search text without the characters that [LIKE] gives a meaning to. *)
Fixpoint plain (search : string) : bool :=
  match search with
  | EmptyString => true
  | String c rest => negb (Sql.isMeta c) && plain rest
  end.

(** The pattern that matches a text character by character. *)
Fixpoint literal (text : string) : list Sql.token :=
  match text with
  | EmptyString => []
  | String c rest => Sql.Exactly c :: literal rest
  end.

(** The five columns the free-text condition looks at. *)
Definition searchFields (e : BlacklistEntry.t) : list (option string) :=
  [ Some (BlacklistEntry.first_name e); Some (BlacklistEntry.last_name e);
    Some (BlacklistEntry.id_number e); BlacklistEntry.email e;
    Some (BlacklistEntry.reason e) ].

(** The search text occurs in one of the five fields, letter case
    respected. *)
Definition matchesSearch (search : string) (e : BlacklistEntry.t) : bool :=
  existsb (fun field =>
             match field with
             | Some text => Js.includes text search
             | None => false
             end)
          (searchFields e).

(** The search text occurs in one of the five fields, letter case
    ignored. *)
Definition matchesSearchIgnoringCase (search : string) (e : BlacklistEntry.t)
  : bool :=
  existsb (fun field =>
             match field with
             | Some text =>
                 Js.includes (Js.toLowerCase text) (Js.toLowerCase search)
             | None => false
             end)
          (searchFields e).

(** One of the five fields matches the pattern [%search%]. *)
Definition matchesLike (search : string) (e : BlacklistEntry.t) : bool :=
  existsb (fun field =>
             Sql.is_true (Sql.likeValue field ("%" ++ search ++ "%")))
          (searchFields e).

(** The filter that gives a search text and nothing else. *)
Definition searchFilter (search : string) : BlacklistFilter.t :=
  BlacklistFilter.mk None None (Some search) None None None None.

(** The filter without its search text. *)
Definition withoutSearch (filters : BlacklistFilter.t) : BlacklistFilter.t :=
  BlacklistFilter.mk
    (BlacklistFilter.status filters) (BlacklistFilter.company_id filters)
    None
    (BlacklistFilter.date_from filters) (BlacklistFilter.date_to filters)
    (BlacklistFilter.min_score filters) (BlacklistFilter.max_score filters).

(** A listing with a search text counts the caller's entries that
    [matches] accepts. *)
Definition searchCounts (matches : string -> BlacklistEntry.t -> bool)
  : Prop :=
  forall (w : World) (userId companyId : Z) (search : string)
         (pagination : Pagination.t),
    companyOf w userId = Some companyId ->
    exists es,
      fst (getBlacklistEntries userId (searchFilter search) pagination w)
      = Returned
          (es,
           Z.of_nat (List.length
                       (filter (matches search)
                          (entriesOfCompany w companyId)))).

(** No row of the company has this id: either the id is not in the table
    at all, or it is the id of a row of another company. *)
Definition absentOrForeign (w : World) (companyId entryId : Z) : Prop :=
  ~ In entryId (map BlacklistEntry.id (entries w))
  \/ exists e, In e (entries w)
               /\ BlacklistEntry.id e = entryId
               /\ BlacklistEntry.company_id e <> companyId.

(** The values of an [integer] column.  The [id], [user_id] and
    [company_id] columns are such columns, and PostgreSQL refuses a
    parameter outside this range before it looks at any row. *)
Definition int4 (n : Z) : Prop := -2147483648 <= n <= 2147483647.

(** The id is out of the user's scope: it is absent from the table, or
    the id of a row of another company than the one the user acts for.
    For a user without a company every id is out of scope. *)
Definition outOfScope (w : World) (userId entryId : Z) : Prop :=
  forall companyId, companyOf w userId = Some companyId ->
                    absentOrForeign w companyId entryId.

(** Whoever the principal, deleting an id that is out of the principal's
    scope fails with the not-found-or-access-denied error and leaves the
    database as it was. *)
Definition deleteDeniesEveryPrincipal : Prop :=
  forall (sink : ActivitySink) (now : Z) (w : World) (userId entryId : Z),
    primaryKey w ->
    outOfScope w userId entryId ->
    let (outcome, w') := deleteBlacklistEntry sink now userId entryId w in
    outcome = Thrown NotFoundOrAccessDenied /\ db w' = db w.

(** What a failed deletion throws, and what it writes to the console:
    both depend on whether the user acts for a company, and on nothing
    else. *)
Definition deleteFailure (w : World) (userId : Z) : Error :=
  match companyOf w userId with
  | Some _ => NotFoundOrAccessDenied
  | None => UserCompanyNotFound userId
  end.

Definition deleteFailureLines (w : World) (userId : Z)
  : list (string * Error) :=
  match companyOf w userId with
  | Some _ =>
      [("Failed to delete blacklist entry:", NotFoundOrAccessDenied)]
  | None =>
      [("Failed to get user company ID:", UserCompanyNotFound userId);
       ("Failed to delete blacklist entry:", UserCompanyNotFound userId)]
  end.

(** ** A small deployment

    Three users, each with a company of their own; user 3 is an
    administrator.  Users 1 and 2 each file one entry. *)

Module Sample.

Definition world0 : World :=
  mkWorld
    (mkDb
       [User.mk 1 false; User.mk 2 false; User.mk 3 true]
       [Company.mk 10 1 "Alpha Rentals"; Company.mk 20 2 "Beta Rentals";
        Company.mk 30 3 "Registry Office"]
       (mkTable [] 1)
       (mkTable [] 1))
    [].

Definition janeDoe : CreateBlacklistEntry.t :=
  CreateBlacklistEntry.mk "Jane" "Doe" "123456789"
    (Some "0987654321") (Some "jane.doe@example.com")
    (Some "https://example.com/face.jpg")
    ["https://example.com/id1.jpg"; "https://example.com/id2.jpg"]
    "Fraudulent activity detected" true.

Definition bobWilson : CreateBlacklistEntry.t :=
  CreateBlacklistEntry.mk "Bob" "Wilson" "987654321"
    None None None [] "Contract dispute" true.

(** The world a handler leaves behind. *)
Definition after {A : Type} (m : M A) (w : World) : World := snd (m w).

(** Both entries are filed, by user 1 and then by user 2. *)
Definition world2 : World :=
  after (createBlacklistEntry insertActivityLog 2000 2 bobWilson)
    (after (createBlacklistEntry insertActivityLog 1000 1 janeDoe) world0).

Definition janeEntry : BlacklistEntry.t :=
  BlacklistEntry.mk 1 1 10 "Jane" "Doe" "123456789"
    (Some "0987654321") (Some "jane.doe@example.com")
    (Some "https://example.com/face.jpg")
    ["https://example.com/id1.jpg"; "https://example.com/id2.jpg"]
    100 "Fraudulent activity detected" active true 1000 1000.

Definition bobEntry : BlacklistEntry.t :=
  BlacklistEntry.mk 2 2 20 "Bob" "Wilson" "987654321"
    None None None [] 65 "Contract dispute" active true 2000 2000.

(** A patch for Jane Doe's entry that removes the face image: it sets
    [face_image_url] to [null] and gives no other field. *)
Definition removeFaceImage : UpdateBlacklistEntry.t :=
  UpdateBlacklistEntry.mk 1 None None None None None (Some None)
    None None None None.

Definition firstPage : Pagination.t := Pagination.mk 1 20.

End Sample.

(** The same deployment after a fourth user has registered: not an
    administrator, and without a company so far. *)
Definition sampleWithNewcomer : World :=
  mkWorld
    (mkDb
       (usersTable (db Sample.world2) ++ [User.mk 4 false])
       (companiesTable (db Sample.world2))
       (blacklistEntriesTable (db Sample.world2))
       (activityLogsTable (db Sample.world2)))
    (console Sample.world2).

(** The deployment after user 1 has filed a second entry, later than the
    first two. *)
Definition sampleSecondFiling : World :=
  Sample.after
    (createBlacklistEntry insertActivityLog 2500 1 Sample.bobWilson)
    Sample.world2.

(** ** Vocabulary of the further properties *)

(** The rows of [activityLogsTable] in a world. *)
Definition logRows (w : World) : list ActivityLog.t :=
  rows (activityLogsTable (db w)).

(** Every entry names a company that exists and the user that company
    belongs to. *)
Definition referentialIntegrity (w : World) : Prop :=
  forall e, In e (entries w) ->
    exists c, In c (companiesTable (db w))
              /\ Company.id c = BlacklistEntry.company_id e
              /\ Company.user_id c = BlacklistEntry.user_id e.

(** Every stored score is the score of the stored reason and evidence. *)
Definition scoresConsistent (w : World) : Prop :=
  forall e, In e (entries w) -> BlacklistEntry.blacklist_score e = scoreOf e.

(** The patch leaves the three inputs of the score alone. *)
Definition keepsScoreInputs (input : UpdateBlacklistEntry.t) : Prop :=
  UpdateBlacklistEntry.reason input = None
  /\ UpdateBlacklistEntry.id_document_urls input = None
  /\ UpdateBlacklistEntry.face_image_url input = None.

(** The rows are ordered by [key], largest first. *)
Fixpoint descending {R : Type} (key : R -> Z) (l : list R) : Prop :=
  match l with
  | [] => True
  | x :: rest => (forall y, In y rest -> key y <= key x) /\ descending key rest
  end.

(** What the listing returns as page [page] when the rows selected and
    ordered are [l]. *)
Definition pageOf {R : Type} (limit page : Z) (l : list R) : list R :=
  Sql.limit_offset limit ((page - 1) * limit) l.

(** Between [w] and [w'] exactly one row was added to the activity log,
    and it records this user, action, entry and time. *)
Definition loggedOnce (w w' : World) (userId : Z) (action : string)
    (entryId now : Z) : Prop :=
  exists row,
    logRows w' = (logRows w ++ [row])%list
    /\ ActivityLog.user_id row = userId
    /\ ActivityLog.action row = action
    /\ ActivityLog.resource_type row = "blacklist_entry"
    /\ ActivityLog.resource_id row = Some entryId
    /\ ActivityLog.created_at row = now.

(** [r] is [e] in the fields that neither name the entry's status nor
    its time of update. *)
Definition sameButStatus (e r : BlacklistEntry.t) : Prop :=
  BlacklistEntry.id r = BlacklistEntry.id e
  /\ BlacklistEntry.user_id r = BlacklistEntry.user_id e
  /\ BlacklistEntry.company_id r = BlacklistEntry.company_id e
  /\ BlacklistEntry.first_name r = BlacklistEntry.first_name e
  /\ BlacklistEntry.last_name r = BlacklistEntry.last_name e
  /\ BlacklistEntry.id_number r = BlacklistEntry.id_number e
  /\ BlacklistEntry.phone r = BlacklistEntry.phone e
  /\ BlacklistEntry.email r = BlacklistEntry.email e
  /\ BlacklistEntry.face_image_url r = BlacklistEntry.face_image_url e
  /\ BlacklistEntry.id_document_urls r = BlacklistEntry.id_document_urls e
  /\ BlacklistEntry.blacklist_score r = BlacklistEntry.blacklist_score e
  /\ BlacklistEntry.reason r = BlacklistEntry.reason e
  /\ BlacklistEntry.created_at r = BlacklistEntry.created_at e.

(** What the filters of a listing ask of an entry, for a caller of the
    company [companyId]: a filter that is absent asks nothing, the search
    text asks nothing when it is empty, and every bound is inclusive. *)
Definition accepts (companyId : Z) (filters : BlacklistFilter.t)
    (e : BlacklistEntry.t) : Prop :=
  BlacklistEntry.company_id e = companyId
  /\ (forall st, BlacklistFilter.status filters = Some st ->
                 BlacklistEntry.status e = st)
  /\ (forall c rest, BlacklistFilter.search filters = Some (String c rest) ->
                     matchesLike (String c rest) e = true)
  /\ (forall d, BlacklistFilter.date_from filters = Some d ->
                d <= BlacklistEntry.created_at e)
  /\ (forall d, BlacklistFilter.date_to filters = Some d ->
                BlacklistEntry.created_at e <= d)
  /\ (forall m, BlacklistFilter.min_score filters = Some m ->
                m <= BlacklistEntry.blacklist_score e)
  /\ (forall m, BlacklistFilter.max_score filters = Some m ->
                BlacklistEntry.blacklist_score e <= m).

(** The entries a listing returns; none when it throws. *)
Definition listed (userId : Z) (filters : BlacklistFilter.t)
    (pagination : Pagination.t) (w : World) : list BlacklistEntry.t :=
  match fst (getBlacklistEntries userId filters pagination w) with
  | Returned (es, _) => es
  | Thrown _ => []
  end.

(** The total a listing returns; 0 when it throws. *)
Definition listedTotal (userId : Z) (filters : BlacklistFilter.t)
    (pagination : Pagination.t) (w : World) : Z :=
  match fst (getBlacklistEntries userId filters pagination w) with
  | Returned (_, total) => total
  | Thrown _ => 0
  end.

(** One call of a handler, with the user who makes it, the time, and
    (for the handlers that write) the sink the activity log goes to. *)
Inductive Call : Type :=
| CallCreate (sink : ActivitySink) (now userId : Z)
    (input : CreateBlacklistEntry.t)
| CallList (userId : Z) (filters : BlacklistFilter.t)
    (pagination : Pagination.t)
| CallGet (userId entryId : Z)
| CallUpdate (sink : ActivitySink) (now userId : Z)
    (input : UpdateBlacklistEntry.t)
| CallDelete (sink : ActivitySink) (now userId entryId : Z)
| CallToggle (sink : ActivitySink) (now userId entryId : Z)
    (isBlacklisted : bool).

Definition caller (call : Call) : Z :=
  match call with
  | CallCreate _ _ userId _ | CallList userId _ _ | CallGet userId _
  | CallUpdate _ _ userId _ | CallDelete _ _ userId _
  | CallToggle _ _ userId _ _ => userId
  end.

(** The world a call leaves behind. *)
Definition runCall (call : Call) (w : World) : World :=
  match call with
  | CallCreate sink now userId input =>
      snd (createBlacklistEntry sink now userId input w)
  | CallList userId filters pagination =>
      snd (getBlacklistEntries userId filters pagination w)
  | CallGet userId entryId => snd (getBlacklistEntry userId entryId w)
  | CallUpdate sink now userId input =>
      snd (updateBlacklistEntry sink now userId input w)
  | CallDelete sink now userId entryId =>
      snd (deleteBlacklistEntry sink now userId entryId w)
  | CallToggle sink now userId entryId isBlacklisted =>
      snd (toggleBlacklistStatus sink now userId entryId isBlacklisted w)
  end.

(** The world after a sequence of calls, made one after the other. *)
Definition runCalls (calls : list Call) (w : World) : World :=
  fold_left (fun w call => runCall call w) calls w.

(** The call is an update whose patch sets the face image to [null]. *)
Definition nullsFaceImage (call : Call) : Prop :=
  match call with
  | CallUpdate _ _ _ input =>
      UpdateBlacklistEntry.face_image_url input = Some None
  | _ => False
  end.

(** The effect of one call on the table of entries: none, one row
    appended for the caller's company, or rows of the caller's company
    rewritten or removed under the condition of the single-entry
    statements.  The companies are never written. *)
Inductive Effect (w : World) (call : Call) (w' : World) : Prop :=
| EffectNone :
    blacklistEntriesTable (db w') = blacklistEntriesTable (db w) ->
    Effect w call w'
| EffectInsert (companyId : Z) (entry : BlacklistEntry.t) :
    companyOf w (caller call) = Some companyId ->
    BlacklistEntry.id entry = next_id (blacklistEntriesTable (db w)) ->
    BlacklistEntry.user_id entry = caller call ->
    BlacklistEntry.company_id entry = companyId ->
    BlacklistEntry.blacklist_score entry = scoreOf entry ->
    blacklistEntriesTable (db w')
    = mkTable (entries w ++ [entry])
        (next_id (blacklistEntriesTable (db w)) + 1) ->
    Effect w call w'
| EffectUpdate (companyId entryId : Z) (data : UpdateData.t)
    (existing : BlacklistEntry.t) (others : list BlacklistEntry.t) :
    companyOf w (caller call) = Some companyId ->
    Sql.where_ (entryOfCompany entryId companyId) (entries w)
    = existing :: others ->
    (UpdateData.blacklist_score data = None
     /\ UpdateData.reason data = None
     /\ UpdateData.id_document_urls data = None
     /\ UpdateData.face_image_url data = None
     \/ nullsFaceImage call
     \/ BlacklistEntry.blacklist_score (UpdateData.apply data existing)
        = scoreOf (UpdateData.apply data existing)) ->
    blacklistEntriesTable (db w')
    = mkTable
        (Sql.update_where (entryOfCompany entryId companyId)
           (UpdateData.apply data) (entries w))
        (next_id (blacklistEntriesTable (db w))) ->
    Effect w call w'
| EffectDelete (companyId entryId : Z) :
    companyOf w (caller call) = Some companyId ->
    blacklistEntriesTable (db w')
    = mkTable (Sql.delete_where (entryOfCompany entryId companyId) (entries w))
        (next_id (blacklistEntriesTable (db w))) ->
    Effect w call w'.

(** ** The search handlers ([handlers/search.ts]) *)

(** [searchSchema], after parsing: [limit] and [offset] have defaults and
    are always present. *)
Module SearchInput.
Record t : Type := mk {
  query : option string;
  face_image : option string;
  company_id : option Z;
  status : option BlacklistStatus;
  limit : Z;
  offset : Z
}.
End SearchInput.

(** What [searchBlacklistEntries] returns; a face match is an entry id
    with a confidence. *)
Module SearchResult.
Record t : Type := mk {
  entries : list BlacklistEntry.t;
  total : Z;
  face_matches : option (list (Z * Z))
}.
End SearchResult.

(** What the search handlers throw. *)
Inductive SearchError : Type :=
| UserNotFound
    (* 'User not found' *)
| UserHasNoCompany
    (* 'User has no associated company' *).

(** White space in the sense of [String.prototype.trim], among 8-bit
    characters: tab, line feed, vertical tab, form feed, carriage return,
    space and no-break space. *)
Definition isWhiteSpace (c : ascii) : bool :=
  existsb (N.eqb (N_of_ascii c)) [9; 10; 11; 12; 13; 32; 160]%N.

Fixpoint trimStart (s : string) : string :=
  match s with
  | EmptyString => EmptyString
  | String c rest => if isWhiteSpace c then trimStart rest else s
  end.

Fixpoint trimEnd (s : string) : string :=
  match s with
  | EmptyString => EmptyString
  | String c rest =>
      match trimEnd rest with
      | EmptyString => if isWhiteSpace c then EmptyString
                       else String c EmptyString
      | String c' rest' => String c (String c' rest')
      end
  end.

(** [s.trim()] *)
Definition trim (s : string) : string := trimEnd (trimStart s).

(** A number used as a condition: [0] is falsy. *)
Definition truthyNumber (n : Z) : bool := negb (n =? 0).

(** A string used as a condition: the empty string is falsy. *)
Definition truthyString (s : string) : bool :=
  match s with
  | EmptyString => false
  | String _ _ => true
  end.

(** [ilike(col, pattern)]: [LIKE] with letter case ignored on both
    sides; the letters folded are A-Z, which is what the store does on
    ASCII text. *)
Definition ilike {R : Type} (col : R -> option string) (pattern : string)
  : @Sql.cond R :=
  fun r =>
    Sql.likeValue (option_map Js.toLowerCase (col r))
      (Js.toLowerCase pattern).

(** The rows of [usersTable LEFT JOIN companiesTable ON
    companies.user_id = users.id WHERE users.id = userId], as
    [(is_admin, company_id)]. *)
Definition userWithCompany (d : Db) (userId : Z) : list (bool * option Z) :=
  flat_map
    (fun u =>
       match Sql.where_ (Sql.eqZ Company.user_id (User.id u))
               (companiesTable d) with
       | [] => [(User.is_admin u, None)]
       | companies =>
           map (fun c => (User.is_admin u, Some (Company.id c))) companies
       end)
    (Sql.where_ (Sql.eqZ User.id userId) (usersTable d)).

(** The text condition of the search handlers: five columns, [phone]
    among them and [reason] not. *)
Definition searchTermCondition (searchTerm : string)
  : @Sql.cond BlacklistEntry.t :=
  Sql.or_
    [ ilike (fun r => Some (BlacklistEntry.first_name r)) searchTerm;
      ilike (fun r => Some (BlacklistEntry.last_name r)) searchTerm;
      ilike (fun r => Some (BlacklistEntry.id_number r)) searchTerm;
      ilike BlacklistEntry.email searchTerm;
      ilike BlacklistEntry.phone searchTerm ].

(** The company condition of [searchBlacklistEntries], or the error it
    throws: users who are not administrators are held to their company,
    administrators to the company they ask for, if any. *)
Definition searchScope (isAdmin : bool) (userCompanyId : option Z)
    (input : SearchInput.t)
  : SearchError + list (@Sql.cond BlacklistEntry.t) :=
  if negb isAdmin then
    match userCompanyId with
    | Some companyId =>
        if truthyNumber companyId
        then inr [Sql.eqZ BlacklistEntry.company_id companyId]
        else inl UserHasNoCompany
    | None => inl UserHasNoCompany
    end
  else
    match SearchInput.company_id input with
    | Some companyId =>
        if truthyNumber companyId
        then inr [Sql.eqZ BlacklistEntry.company_id companyId]
        else inr []
    | None => inr []
    end.

(** The status and text conditions of [searchBlacklistEntries]. *)
Definition searchFilters (input : SearchInput.t)
  : list (@Sql.cond BlacklistEntry.t) :=
  match SearchInput.status input with
  | Some st => [Sql.eqStatus BlacklistEntry.status st]
  | None => []
  end
  ++ match SearchInput.query input with
     | Some query =>
         if truthyString query
            && (0 <? Z.of_nat (String.length (trim query)))
         then [searchTermCondition ("%" ++ trim query ++ "%")]
         else []
     | None => []
     end.

(** The rows a list of conditions selects:
    [conditions.length === 0] runs without [WHERE],
    [conditions.length === 1] with the one condition, otherwise with
    [and(...conditions)]. *)
Definition selectWhere (conditions : list (@Sql.cond BlacklistEntry.t))
    (table : list BlacklistEntry.t) : list BlacklistEntry.t :=
  match conditions with
  | [] => table
  | [only] => Sql.where_ only table
  | _ => Sql.where_ (Sql.and_ conditions) table
  end.

(** [try { body } catch (error) { console.error(label, error); throw
    error; }] for a handler that only reads: the outcome, and the lines
    written to the console. *)
Definition traced {A : Type} (label : string) (body : SearchError + A)
  : (SearchError + A) * list (string * SearchError) :=
  match body with
  | inr a => (inr a, [])
  | inl error => (inl error, [(label, error)])
  end.

Definition searchBlacklistEntries (userId : Z) (input : SearchInput.t)
    (d : Db)
  : (SearchError + SearchResult.t) * list (string * SearchError) :=
  traced "Search blacklist entries failed:"
    match userWithCompany d userId with
    | [] => inl UserNotFound
    | (isAdmin, userCompanyId) :: _ =>
        match searchScope isAdmin userCompanyId input with
        | inl error => inl error
        | inr scope =>
            let conditions := (scope ++ searchFilters input)%list in
            let selected :=
              selectWhere conditions (rows (blacklistEntriesTable d)) in
            let faceMatches :=
              match SearchInput.face_image input with
              | Some image => if truthyString image then Some [] else None
              | None => None
              end in
            inr (SearchResult.mk
                   (Sql.limit_offset (SearchInput.limit input)
                      (SearchInput.offset input) selected)
                   (Z.of_nat (List.length selected))
                   faceMatches)
        end
    end.

Definition searchByText (query : string) (companyId : option Z) (d : Db)
  : (SearchError + list BlacklistEntry.t) * list (string * SearchError) :=
  traced "Text search failed:"
    (if negb (truthyString query) || (Z.of_nat (String.length (trim query)) =? 0)
     then inr []
     else
       let searchTerm := ("%" ++ trim query ++ "%")%string in
       let conditions :=
         ([searchTermCondition searchTerm]
          ++ match companyId with
             | Some c =>
                 if truthyNumber c
                 then [Sql.eqZ BlacklistEntry.company_id c]
                 else []
             | None => []
             end)%list in
       inr (match conditions with
            | [only] => Sql.where_ only (rows (blacklistEntriesTable d))
            | _ => Sql.where_ (Sql.and_ conditions)
                     (rows (blacklistEntriesTable d))
            end)).

(** The search text occurs, letter case ignored, in one of the five
    columns the search handlers look at. *)
Definition foundIgnoringCase (text : string) (e : BlacklistEntry.t) : bool :=
  existsb (fun field =>
             match field with
             | Some value =>
                 Js.includes (Js.toLowerCase value) (Js.toLowerCase text)
             | None => false
             end)
          [ Some (BlacklistEntry.first_name e);
            Some (BlacklistEntry.last_name e);
            Some (BlacklistEntry.id_number e);
            BlacklistEntry.email e; BlacklistEntry.phone e ].

(** The user a search is made for: the first row of the join, when the
    user exists. *)
Definition principal (d : Db) (userId : Z) : option (bool * option Z) :=
  hd_error (userWithCompany d userId).

(** The entry meets the status and text conditions of a search. *)
Definition meetsSearch (input : SearchInput.t) (e : BlacklistEntry.t)
  : bool :=
  forallb (fun c => Sql.is_true (c e)) (searchFilters input).

(** The search input asks for one company. *)
Definition asksForCompany (input : SearchInput.t) : option Z :=
  match SearchInput.company_id input with
  | Some companyId => if truthyNumber companyId then Some companyId else None
  | None => None
  end.

(** The kind of a search suggestion. *)
Inductive SuggestionType : Type :=
| SuggestName | SuggestIdNumber | SuggestEmail | SuggestPhone.

Definition SuggestionType_eqb (a b : SuggestionType) : bool :=
  match a, b with
  | SuggestName, SuggestName | SuggestIdNumber, SuggestIdNumber
  | SuggestEmail, SuggestEmail | SuggestPhone, SuggestPhone => true
  | _, _ => false
  end.

(** An element of what [getSearchSuggestions] returns. *)
Module Suggestion.
Record t : Type := mk {
  type : SuggestionType;
  value : string;
  entry_id : Z
}.
End Suggestion.

(** [array.findIndex(p)]: the first index at which [p] holds, [-1] when
    there is none. *)
Fixpoint findIndexFrom {A : Type} (p : A -> bool) (l : list A) (i : Z) : Z :=
  match l with
  | [] => -1
  | x :: rest => if p x then i else findIndexFrom p rest (i + 1)
  end.

Definition findIndex {A : Type} (p : A -> bool) (l : list A) : Z :=
  findIndexFrom p l 0.

(** [s.value === suggestion.value && s.type === suggestion.type] *)
Definition sameSuggestion (suggestion s : Suggestion.t) : bool :=
  String.eqb (Suggestion.value s) (Suggestion.value suggestion)
  && SuggestionType_eqb (Suggestion.type s) (Suggestion.type suggestion).

(** [suggestions.filter((suggestion, index, self) =>
      index === self.findIndex(s => ...))] *)
Definition uniqueSuggestions (suggestions : list Suggestion.t)
  : list Suggestion.t :=
  map snd
    (filter (fun indexed =>
               Z.of_nat (fst indexed)
               =? findIndex (sameSuggestion (snd indexed)) suggestions)
       (combine (seq 0 (List.length suggestions)) suggestions)).

(** The suggestions one entry gives, in the order they are pushed. *)
Definition suggestionsOf (query : string) (entry : BlacklistEntry.t)
  : list Suggestion.t :=
  let fullName :=
    (BlacklistEntry.first_name entry ++ " "
     ++ BlacklistEntry.last_name entry)%string in
  (if Js.includes (Js.toLowerCase fullName) (Js.toLowerCase query)
   then [Suggestion.mk SuggestName fullName (BlacklistEntry.id entry)]
   else [])
  ++ (if Js.includes (Js.toLowerCase (BlacklistEntry.id_number entry))
           (Js.toLowerCase query)
      then [Suggestion.mk SuggestIdNumber (BlacklistEntry.id_number entry)
              (BlacklistEntry.id entry)]
      else [])
  ++ match BlacklistEntry.email entry with
     | Some email =>
         if truthyString email
            && Js.includes (Js.toLowerCase email) (Js.toLowerCase query)
         then [Suggestion.mk SuggestEmail email (BlacklistEntry.id entry)]
         else []
     | None => []
     end
  ++ match BlacklistEntry.phone entry with
     | Some phone =>
         if truthyString phone && Js.includes phone query
         then [Suggestion.mk SuggestPhone phone (BlacklistEntry.id entry)]
         else []
     | None => []
     end.

(** The company condition of [getSearchSuggestions]; [None] where the
    handler returns no suggestion at all. *)
Definition suggestionScope (isAdmin : bool) (userCompanyId : option Z)
  : option (list (@Sql.cond BlacklistEntry.t)) :=
  if negb isAdmin then
    match userCompanyId with
    | Some companyId =>
        if truthyNumber companyId
        then Some [Sql.eqZ BlacklistEntry.company_id companyId]
        else None
    | None => None
    end
  else Some [].

Definition getSearchSuggestions (userId : Z) (query : string) (d : Db)
  : (SearchError + list Suggestion.t) * list (string * SearchError) :=
  traced "Get search suggestions failed:"
    (if negb (truthyString query)
        || (Z.of_nat (String.length (trim query)) <? 2)
     then inr []
     else
       match userWithCompany d userId with
       | [] => inr []
       | (isAdmin, userCompanyId) :: _ =>
           match suggestionScope isAdmin userCompanyId with
           | None => inr []
           | Some scope =>
               let searchTerm := ("%" ++ trim query ++ "%")%string in
               let conditions :=
                 (scope ++ [searchTermCondition searchTerm])%list in
               let results :=
                 firstn 10
                   match conditions with
                   | [only] =>
                       Sql.where_ only (rows (blacklistEntriesTable d))
                   | _ =>
                       Sql.where_ (Sql.and_ conditions)
                         (rows (blacklistEntriesTable d))
                   end in
               let suggestions := flat_map (suggestionsOf query) results in
               inr (firstn 10 (uniqueSuggestions suggestions))
           end
       end).

(** The suggestions a call returns; none when it throws. *)
Definition suggested (userId : Z) (query : string) (d : Db)
  : list Suggestion.t :=
  match fst (getSearchSuggestions userId query d) with
  | inr suggestions => suggestions
  | inl _ => []
  end.

(** What tells two suggestions apart. *)
Definition suggestionKey (s : Suggestion.t) : SuggestionType * string :=
  (Suggestion.type s, Suggestion.value s).

(** ** Where the store is more precise than the embedding

    [created_at] is filled by the store ([defaultNow()]) to the
    microsecond and read back as a [Date], which keeps milliseconds: the
    value an entry shows is the stored one rounded down, and the date
    bounds of a listing are compared with the stored one.  An entry shown
    as created strictly before a bound is within the bound as stored. *)
Definition createdBefore (filters : BlacklistFilter.t) (e : BlacklistEntry.t)
  : Prop :=
  forall d, BlacklistFilter.date_to filters = Some d ->
            BlacklistEntry.created_at e < d.

(** No two entries of the company were created at the same time.
    [ORDER BY created_at] gives no order to rows created at the same
    time; with this, the order of a listing is fixed by the query. *)
Definition distinctCreation (w : World) (companyId : Z) : Prop :=
  NoDup (map BlacklistEntry.created_at (entriesOfCompany w companyId)).

(** The rows are ordered by [key], largest first, and no two share a
    key. *)
Fixpoint strictlyDescending {R : Type} (key : R -> Z) (l : list R) : Prop :=
  match l with
  | [] => True
  | x :: rest =>
      (forall y, In y rest -> key y < key x) /\ strictlyDescending key rest
  end.

(** The same companies and the same entries, stored in another order. *)
Definition sameRows (w w' : World) : Prop :=
  companiesTable (db w') = companiesTable (db w)
  /\ Permutation (entries w') (entries w).

(** A text of ASCII characters only.  On such texts [toLowerCase],
    [trim] and the case folding of [ILIKE] are those of the embedding. *)
Fixpoint asciiOnly (s : string) : bool :=
  match s with
  | EmptyString => true
  | String c rest => (N_of_ascii c <? 128)%N && asciiOnly rest
  end.

(** The five columns the search handlers look at hold ASCII text. *)
Definition asciiColumns (e : BlacklistEntry.t) : bool :=
  forallb (fun field =>
             match field with
             | Some value => asciiOnly value
             | None => true
             end)
          [ Some (BlacklistEntry.first_name e);
            Some (BlacklistEntry.last_name e);
            Some (BlacklistEntry.id_number e);
            BlacklistEntry.email e; BlacklistEntry.phone e ].

(** The company condition of [searchByText], as a test on an entry. *)
Definition ofCompanyIfGiven (companyId : option Z) (e : BlacklistEntry.t)
  : bool :=
  match companyId with
  | Some c => if truthyNumber c then BlacklistEntry.company_id e =? c else true
  | None => true
  end.

(** ** Strings: what [includes] decides *)

Lemma startsWith_iff (s p : string) :
  Js.startsWith s p = true <-> exists post, s = p ++ post.
Proof.
  revert s; induction p as [|a p IH]; intros s; simpl.
  - split; [intros _; now exists s | reflexivity].
  - destruct s as [|b s].
    + split; [discriminate | intros [post H]; discriminate].
    + rewrite andb_true_iff, Ascii.eqb_eq, IH. split.
      * intros [-> [post ->]]. now exists post.
      * intros [post H]. injection H as -> ->. split; [reflexivity | now exists post].
Qed.

Lemma includes_iff (s k : string) :
  Js.includes s k = true <-> Substring k s.
Proof.
  unfold Substring. induction s as [|c s IH].
  - simpl. rewrite orb_false_r, startsWith_iff. split.
    + intros [post H]. exists EmptyString, post. exact H.
    + intros [pre [post H]]. destruct pre; simpl in H.
      * now exists post.
      * discriminate.
  - cbn [Js.includes]. rewrite orb_true_iff, startsWith_iff, IH. split.
    + intros [[post H] | [pre [post H]]].
      * exists EmptyString, post. exact H.
      * exists (String c pre), post. simpl. now rewrite H.
    + intros [pre [post H]]. destruct pre as [|c' pre]; simpl in H.
      * left. now exists post.
      * right. injection H as _ H. now exists pre, post.
Qed.


Lemma substring_zero_prefix (m : nat) (s : string) :
  exists post, s = substring 0 m s ++ post.
Proof.
  revert s. induction m as [|m IH]; intros s.
  - exists s. now destruct s.
  - destruct s as [|c s]; simpl.
    + now exists EmptyString.
    + destruct (IH s) as [post H]. exists post. now rewrite <- H.
Qed.

Lemma substring_is_substring (n m : nat) (s : string) :
  Substring (substring n m s) s.
Proof.
  revert n. induction s as [|c s IH]; intros n.
  - exists EmptyString, EmptyString. now destruct n, m.
  - destruct n as [|n].
    + destruct (substring_zero_prefix m (String c s)) as [post H].
      now exists EmptyString, post.
    + simpl. destruct (IH n) as [pre [post H]].
      exists (String c pre), post. simpl. now rewrite <- H.
Qed.

Lemma substring_at_occurrence (pre k post : string) :
  substring (String.length pre) (String.length k) (pre ++ k ++ post) = k.
Proof.
  induction pre as [|c pre IH]; simpl.
  - induction k as [|d k IHk]; simpl.
    + now destruct post.
    + now rewrite IHk.
  - exact IH.
Qed.

Lemma length_append (a b : string) :
  String.length (a ++ b) = (String.length a + String.length b)%nat.
Proof. induction a as [|c a IH]; simpl; [reflexivity | now rewrite IH]. Qed.

Lemma occursIn_iff (k s : string) :
  Reference.occursIn k s = true <-> Substring k s.
Proof.
  unfold Reference.occursIn. rewrite existsb_exists. split.
  - intros [i [_ H]]. apply String.eqb_eq in H. rewrite <- H.
    apply substring_is_substring.
  - intros [pre [post ->]]. exists (String.length pre). split.
    + apply in_seq. rewrite !length_append. lia.
    + apply String.eqb_eq, substring_at_occurrence.
Qed.

Lemma occursIn_includes (k s : string) :
  Reference.occursIn k s = Js.includes s k.
Proof.
  apply eq_true_iff_eq. now rewrite occursIn_iff, includes_iff.
Qed.

Lemma containsAny_some (kws : list string) (s : string) :
  Reference.containsAny kws s = existsb (fun keyword => Js.includes s keyword) kws.
Proof.
  unfold Reference.containsAny. induction kws as [|k kws IH]; simpl.
  - reflexivity.
  - now rewrite occursIn_includes, IH.
Qed.

(** The keyword part of the score, as the code computes it. *)
Lemma calculateBlacklistScore_unfold (reason : string) (d f : bool) :
  calculateBlacklistScore reason d f =
  Z.min 100
    (50
     + (if existsb (fun k => Js.includes (Js.toLowerCase reason) k)
             highRiskKeywords then 30
        else if existsb (fun k => Js.includes (Js.toLowerCase reason) k)
                  mediumRiskKeywords then 15
        else 0)
     + (if d then 10 else 0) + (if f then 10 else 0)).
Proof.
  unfold calculateBlacklistScore, Math_min.
  destruct (existsb _ highRiskKeywords);
    [|destruct (existsb _ mediumRiskKeywords)];
    destruct d, f; reflexivity.
Qed.

(** C1. [calculateBlacklistScore] is the reference definition of the
    specification on every input: start at 50; add 30 when the lowercased
    reason contains a high-risk keyword and then skip the medium-risk
    keywords; otherwise add 15 when it contains a medium-risk keyword;
    add 10 for documents and 10 for a face image; cap at 100. *)
Theorem calculateBlacklistScore_is_computeScore
    (reason : string) (hasDocuments hasFaceImage : bool) :
  calculateBlacklistScore reason hasDocuments hasFaceImage
  = Reference.computeScore reason hasDocuments hasFaceImage.
Proof.
  rewrite calculateBlacklistScore_unfold.
  unfold Reference.computeScore, Reference.keywordAddition, Reference.rules.
  cbn [find fst snd]. rewrite !containsAny_some.
  change ["fraud"; "theft"; "violence"; "criminal"; "scam"]
    with highRiskKeywords.
  change ["dispute"; "complaint"; "unpaid"; "breach"]
    with mediumRiskKeywords.
  destruct (existsb _ highRiskKeywords);
    [|destruct (existsb _ mediumRiskKeywords)];
    destruct hasDocuments, hasFaceImage; reflexivity.
Qed.

(** A reason with a high-risk and a medium-risk keyword gets 30, not 45. *)
Example score_both_tiers :
  calculateBlacklistScore "Fraud after an unpaid invoice" false false = 80.
Proof. reflexivity. Qed.

(** ** ScoreEngine: the medium-risk band *)

Lemma score_of_medium_risk (reason : string) (d f : bool) :
  mediumRiskOnly reason ->
  calculateBlacklistScore reason d f
  = 65 + (if d then 10 else 0) + (if f then 10 else 0).
Proof.
  intros [Hm Hh]. rewrite calculateBlacklistScore_unfold.
  unfold mentions in Hm, Hh. rewrite Hh, Hm. now destruct d, f.
Qed.

Lemma score_of_high_risk (reason : string) (d f : bool) :
  mentions highRiskKeywords reason = true ->
  calculateBlacklistScore reason d f
  = Z.min 100 (80 + (if d then 10 else 0) + (if f then 10 else 0)).
Proof.
  intros Hh. rewrite calculateBlacklistScore_unfold.
  unfold mentions in Hh. rewrite Hh. now destruct d, f.
Qed.

(** C5, as stated, fails: with documents and a face image a medium-risk
    reason scores 85, outside [65, 75]. *)
Lemma medium_scores_not_within_65_75 : ~ mediumScoresWithin 65 75.
Proof.
  intros H.
  assert (Hm : mediumRiskOnly "Unpaid invoice dispute") by (split; reflexivity).
  specialize (H "Unpaid invoice dispute" true true Hm).
  vm_compute in H. destruct H as [_ H]. now apply H.
Qed.

(** C5, amended.  A reason with a medium-risk keyword and no high-risk
    keyword scores 65 plus 10 for each evidence flag that is set, so
    between 65 and 85 (85 with both flags), and strictly less than any
    high-risk reason with the same flags. *)
Theorem medium_risk_score
    (reason highRiskReason : string) (hasDocuments hasFaceImage : bool) :
  mediumRiskOnly reason ->
  mentions highRiskKeywords highRiskReason = true ->
  calculateBlacklistScore reason hasDocuments hasFaceImage
  = 65 + (if hasDocuments then 10 else 0) + (if hasFaceImage then 10 else 0)
  /\ 65 <= calculateBlacklistScore reason hasDocuments hasFaceImage <= 85
  /\ calculateBlacklistScore reason hasDocuments hasFaceImage
     < calculateBlacklistScore highRiskReason hasDocuments hasFaceImage.
Proof.
  intros Hm Hh.
  rewrite (score_of_medium_risk _ _ _ Hm), (score_of_high_risk _ _ _ Hh).
  destruct hasDocuments, hasFaceImage; cbn; lia.
Qed.

Lemma medium_risk_score_witness :
  mediumRiskOnly "Unpaid invoice dispute"
  /\ mentions highRiskKeywords "Fraud and theft" = true
  /\ calculateBlacklistScore "Unpaid invoice dispute" true true = 85
  /\ calculateBlacklistScore "Unpaid invoice dispute" true true
     < calculateBlacklistScore "Fraud and theft" true true.
Proof.
  assert (Hm : mediumRiskOnly "Unpaid invoice dispute") by (split; reflexivity).
  assert (Hh : mentions highRiskKeywords "Fraud and theft" = true)
    by reflexivity.
  refine (conj Hm (conj Hh _)).
  destruct (medium_risk_score "Unpaid invoice dispute" "Fraud and theft"
              true true Hm Hh) as [E [_ L]].
  split; [exact E | exact L].
Defined.

(** ** Running the handlers *)

Lemma getUserCompanyId_found (w : World) (userId companyId : Z) :
  companyOf w userId = Some companyId ->
  getUserCompanyId userId w = (Returned companyId, w).
Proof.
  unfold companyOf, getUserCompanyId, logged, try_catch, bind, get_db.
  destruct (Sql.where_ _ _); [discriminate|].
  intros H. injection H as <-. reflexivity.
Qed.

Lemma getUserCompanyId_missing (w : World) (userId : Z) :
  companyOf w userId = None ->
  getUserCompanyId userId w
  = (Thrown (UserCompanyNotFound userId),
     failed w "Failed to get user company ID:" (UserCompanyNotFound userId)).
Proof.
  unfold companyOf, getUserCompanyId, logged, try_catch, bind, get_db.
  destruct (Sql.where_ _ _); [reflexivity | discriminate].
Qed.

Lemma entryOfCompany_true (entryId companyId : Z) (r : BlacklistEntry.t) :
  Sql.is_true (entryOfCompany entryId companyId r) = true
  <-> BlacklistEntry.id r = entryId /\ BlacklistEntry.company_id r = companyId.
Proof.
  unfold entryOfCompany, Sql.and_, Sql.eqZ. cbn.
  destruct (Z.eqb_spec (BlacklistEntry.id r) entryId),
           (Z.eqb_spec (BlacklistEntry.company_id r) companyId);
    cbn; intuition congruence.
Qed.

Lemma getBlacklistEntry_run (w : World) (userId companyId entryId : Z) :
  companyOf w userId = Some companyId ->
  getBlacklistEntry userId entryId w
  = (Returned (hd_error (Sql.where_ (entryOfCompany entryId companyId)
                           (entries w))), w).
Proof.
  intros Hc. unfold getBlacklistEntry, logged, try_catch, bind.
  rewrite (getUserCompanyId_found _ _ _ Hc). unfold get_db, ret, entries.
  now destruct (Sql.where_ _ _).
Qed.

Lemma primaryKey_inj (l : list BlacklistEntry.t) (a b : BlacklistEntry.t) :
  NoDup (map BlacklistEntry.id l) -> In a l -> In b l ->
  BlacklistEntry.id a = BlacklistEntry.id b -> a = b.
Proof.
  induction l as [|x l IH]; simpl; [tauto|].
  intros Hnd Ha Hb E. inversion Hnd as [|? ? Hx Hl]; subst.
  destruct Ha as [<-|Ha], Hb as [<-|Hb]; auto.
  - exfalso. apply Hx. rewrite E. now apply in_map.
  - exfalso. apply Hx. rewrite <- E. now apply in_map.
Qed.

Lemma where_nil {R : Type} (c : @Sql.cond R) (l : list R) :
  (forall r, In r l -> Sql.is_true (c r) = false) -> Sql.where_ c l = [].
Proof.
  intros H. unfold Sql.where_. induction l as [|x l IH]; simpl; [reflexivity|].
  rewrite (H x) by now left. apply IH. intros r Hr. apply H. now right.
Qed.

(** An id that is absent, or the id of another company's row, selects
    nothing under the condition of the single-entry statements. *)
Lemma absentOrForeign_selects_nothing (w : World) (companyId entryId : Z) :
  primaryKey w -> absentOrForeign w companyId entryId ->
  Sql.where_ (entryOfCompany entryId companyId) (entries w) = [].
Proof.
  intros Hpk H. apply where_nil. intros r Hr.
  destruct (Sql.is_true _) eqn:E; [|reflexivity].
  apply entryOfCompany_true in E. destruct E as [Ei Ec]. exfalso.
  destruct H as [Habs | [e [He [Hid Hco]]]].
  - apply Habs. rewrite <- Ei. now apply in_map.
  - apply Hco. rewrite <- Ec. f_equal.
    apply (primaryKey_inj (entries w)); auto. congruence.
Qed.

Section Denied.

Variables (sink : ActivitySink) (now : Z).
Variables (w : World) (userId companyId entryId : Z).
Hypothesis Hcompany : companyOf w userId = Some companyId.
Hypothesis Hnone :
  Sql.where_ (entryOfCompany entryId companyId) (entries w) = [].

Lemma getBlacklistEntry_denied :
  getBlacklistEntry userId entryId w = (Returned None, w).
Proof. now rewrite (getBlacklistEntry_run _ _ _ _ Hcompany), Hnone. Qed.

Lemma deleteBlacklistEntry_denied :
  deleteBlacklistEntry sink now userId entryId w
  = (Thrown NotFoundOrAccessDenied,
     failed w "Failed to delete blacklist entry:" NotFoundOrAccessDenied).
Proof.
  unfold deleteBlacklistEntry, logged, try_catch, bind.
  now rewrite (getUserCompanyId_found _ _ _ Hcompany), getBlacklistEntry_denied.
Qed.

Lemma toggleBlacklistStatus_denied (isBlacklisted : bool) :
  toggleBlacklistStatus sink now userId entryId isBlacklisted w
  = (Thrown NotFoundOrAccessDenied,
     failed w "Failed to toggle blacklist status:" NotFoundOrAccessDenied).
Proof.
  unfold toggleBlacklistStatus, logged, try_catch, bind.
  now rewrite (getUserCompanyId_found _ _ _ Hcompany), getBlacklistEntry_denied.
Qed.

Lemma updateBlacklistEntry_denied (input : UpdateBlacklistEntry.t) :
  UpdateBlacklistEntry.id input = entryId ->
  updateBlacklistEntry sink now userId input w
  = (Thrown NotFoundOrAccessDenied,
     failed w "Failed to update blacklist entry:" NotFoundOrAccessDenied).
Proof.
  intros E. unfold updateBlacklistEntry, logged, try_catch, bind.
  now rewrite (getUserCompanyId_found _ _ _ Hcompany), E,
    getBlacklistEntry_denied.
Qed.

End Denied.

(** ** Deleting what is out of reach *)

(** C7, as stated, fails: it speaks of every principal, and a principal
    who has no company is stopped by [getUserCompanyId] before the entry
    is looked up.  User 4, who has no company, deletes the id 999, which
    no row has, and gets the company-not-found error, not the
    not-found-or-access-denied one. *)
Lemma delete_without_company_not_denied : ~ deleteDeniesEveryPrincipal.
Proof.
  intros H.
  specialize (H insertActivityLog 3000 sampleWithNewcomer 4 999).
  assert (Hpk : primaryKey sampleWithNewcomer).
  { unfold primaryKey. cbn. repeat constructor; cbn; intuition discriminate. }
  assert (Hout : outOfScope sampleWithNewcomer 4 999)
    by (intros companyId Hc; discriminate Hc).
  specialize (H Hpk Hout). vm_compute in H. destruct H as [H _].
  discriminate H.
Qed.

(** C7. Deleting an id that is out of the caller's scope -- an id that
    no row has, or the id of an entry of another company -- fails and
    leaves the database as it was, so an entry of the other company is
    still in the table with every field as before.  What is thrown
    depends on the caller alone, not on whether the id exists: the
    not-found-or-access-denied error for a caller who acts for a
    company, the company-not-found error for a caller who has none.  The
    only trace is on the console.  Ids are within the range of the
    [integer] columns they are compared with. *)
Theorem delete_out_of_scope_fails
    (sink : ActivitySink) (now : Z) (w : World) (userId entryId : Z) :
  primaryKey w ->
  int4 userId ->
  int4 entryId ->
  outOfScope w userId entryId ->
  let (outcome, w') := deleteBlacklistEntry sink now userId entryId w in
  outcome = Thrown (deleteFailure w userId)
  /\ db w' = db w
  /\ console w' = (console w ++ deleteFailureLines w userId)%list.
Proof.
  intros Hpk _ _ Hout. unfold deleteFailure, deleteFailureLines.
  destruct (companyOf w userId) as [companyId|] eqn:Hc.
  - pose proof (absentOrForeign_selects_nothing _ _ _ Hpk (Hout _ Hc))
      as Hnone.
    rewrite (deleteBlacklistEntry_denied _ _ _ _ _ _ Hc Hnone).
    repeat split.
  - unfold deleteBlacklistEntry, logged, try_catch, bind.
    rewrite (getUserCompanyId_missing _ _ Hc). cbn.
    repeat split. now rewrite <- app_assoc.
Qed.

Lemma sample_entries : entries Sample.world2 = [Sample.janeEntry; Sample.bobEntry].
Proof. reflexivity. Qed.

Lemma sample_primaryKey : primaryKey Sample.world2.
Proof.
  unfold primaryKey. rewrite sample_entries. cbn.
  repeat constructor; cbn; intuition discriminate.
Qed.

Lemma delete_out_of_scope_fails_witness :
  primaryKey Sample.world2
  /\ int4 2
  /\ int4 1
  /\ outOfScope Sample.world2 2 1
  /\ let (outcome, w') :=
       deleteBlacklistEntry insertActivityLog 3000 2 1 Sample.world2 in
     outcome = Thrown NotFoundOrAccessDenied
     /\ db w' = db Sample.world2
     /\ In Sample.janeEntry (entries w').
Proof.
  assert (Hu : int4 2) by (unfold int4; lia).
  assert (He : int4 1) by (unfold int4; lia).
  assert (Hout : outOfScope Sample.world2 2 1).
  { intros companyId Hc. right. exists Sample.janeEntry.
    rewrite sample_entries. vm_compute in Hc. injection Hc as <-.
    split; [now left | split; [reflexivity | discriminate]]. }
  split; [exact sample_primaryKey|].
  split; [exact Hu|]. split; [exact He|]. split; [exact Hout|].
  generalize (delete_out_of_scope_fails insertActivityLog 3000 Sample.world2
                2 1 sample_primaryKey Hu He Hout).
  destruct (deleteBlacklistEntry insertActivityLog 3000 2 1 Sample.world2)
    as [outcome w'].
  intros [Ho [Hdb _]]. split; [exact Ho|]. split; [exact Hdb|].
  unfold entries. rewrite Hdb. now left.
Defined.

(** The same failure for an id that no row has. *)
Example delete_unknown_id :
  fst (deleteBlacklistEntry insertActivityLog 3000 2 999 Sample.world2)
  = Thrown NotFoundOrAccessDenied.
Proof. reflexivity. Qed.

(** A caller without a company is stopped earlier, by [getUserCompanyId],
    and the database is left as it was too. *)
Lemma delete_without_company
    (sink : ActivitySink) (now : Z) (w : World) (userId entryId : Z) :
  companyOf w userId = None ->
  let (outcome, w') := deleteBlacklistEntry sink now userId entryId w in
  outcome = Thrown (UserCompanyNotFound userId) /\ db w' = db w.
Proof.
  intros Hc. unfold deleteBlacklistEntry, logged, try_catch, bind.
  rewrite (getUserCompanyId_missing _ _ Hc). now split.
Qed.

(** ** Running the handlers: the paths that succeed *)

Lemma logActivity_run (sink : ActivitySink) (now : Z) (w : World)
    (userId : Z) (action : string) (resourceId : Z) (details : string) :
  logActivity sink now userId action (Some resourceId) (Some details) w
  = (Returned tt, afterLog sink now (activity userId action resourceId details) w).
Proof.
  unfold logActivity, afterLog, activity, try_catch, bind, get_db.
  now destruct (sink _ _ _).
Qed.

Lemma afterLog_entries (sink : ActivitySink) (now : Z)
    (v : ActivityLogValues.t) (w : World) :
  blacklistEntriesTable (db (afterLog sink now v w))
  = blacklistEntriesTable (db w)
  /\ companiesTable (db (afterLog sink now v w)) = companiesTable (db w)
  /\ usersTable (db (afterLog sink now v w)) = usersTable (db w).
Proof. unfold afterLog. now destruct (sink _ _ _). Qed.

Section Found.

Variables (sink : ActivitySink) (now : Z).
Variables (w : World) (userId companyId : Z).
Hypothesis Hcompany : companyOf w userId = Some companyId.

Lemma getBlacklistEntries_run
    (filters : BlacklistFilter.t) (pagination : Pagination.t) :
  getBlacklistEntries userId filters pagination w
  = (Returned
       (Sql.limit_offset (Pagination.limit pagination)
          ((Pagination.page pagination - 1) * Pagination.limit pagination)
          (Sql.orderBy_desc BlacklistEntry.created_at
             (Sql.where_ (whereCondition companyId filters) (entries w))),
        Z.of_nat (List.length
                    (Sql.where_ (whereCondition companyId filters) (entries w)))),
     w).
Proof.
  unfold getBlacklistEntries, logged, try_catch, bind.
  now rewrite (getUserCompanyId_found _ _ _ Hcompany).
Qed.

Lemma createBlacklistEntry_run (input : CreateBlacklistEntry.t) :
  let entry :=
    BlacklistEntry.mk
      (next_id (blacklistEntriesTable (db w))) userId companyId
      (CreateBlacklistEntry.first_name input)
      (CreateBlacklistEntry.last_name input)
      (CreateBlacklistEntry.id_number input)
      (CreateBlacklistEntry.phone input)
      (CreateBlacklistEntry.email input)
      (CreateBlacklistEntry.face_image_url input)
      (CreateBlacklistEntry.id_document_urls input)
      (calculateBlacklistScore
         (CreateBlacklistEntry.reason input)
         (nonEmpty (CreateBlacklistEntry.id_document_urls input))
         (Js.Boolean (CreateBlacklistEntry.face_image_url input)))
      (CreateBlacklistEntry.reason input)
      active
      (CreateBlacklistEntry.is_blacklisted input)
      now now in
  createBlacklistEntry sink now userId input w
  = (Returned entry,
     afterLog sink now
       (activity userId "created" (BlacklistEntry.id entry)
          ("Created blacklist entry for "
           ++ CreateBlacklistEntry.first_name input ++ " "
           ++ CreateBlacklistEntry.last_name input))
       (withEntries w (entries w ++ [entry])
          (next_id (blacklistEntriesTable (db w)) + 1))).
Proof.
  intros entry. unfold createBlacklistEntry, logged, try_catch, bind.
  rewrite (getUserCompanyId_found _ _ _ Hcompany).
  unfold insertBlacklistEntry, bind, get_db, put_db, ret.
  now rewrite logActivity_run.
Qed.

Variables (entryId : Z) (existingEntry : BlacklistEntry.t).
Variable others : list BlacklistEntry.t.
Hypothesis Hfound :
  Sql.where_ (entryOfCompany entryId companyId) (entries w)
  = existingEntry :: others.

Lemma getBlacklistEntry_found :
  getBlacklistEntry userId entryId w = (Returned (Some existingEntry), w).
Proof. now rewrite (getBlacklistEntry_run _ _ _ _ Hcompany), Hfound. Qed.

Lemma updateBlacklistEntry_run (input : UpdateBlacklistEntry.t) :
  UpdateBlacklistEntry.id input = entryId ->
  let data := prepareUpdateData now input existingEntry in
  let updatedEntry := UpdateData.apply data existingEntry in
  updateBlacklistEntry sink now userId input w
  = (Returned updatedEntry,
     afterLog sink now
       (activity userId "updated" entryId
          ("Updated blacklist entry for "
           ++ BlacklistEntry.first_name updatedEntry ++ " "
           ++ BlacklistEntry.last_name updatedEntry))
       (withEntries w
          (Sql.update_where (entryOfCompany entryId companyId)
             (UpdateData.apply data) (entries w))
          (next_id (blacklistEntriesTable (db w))))).
Proof.
  intros E data updatedEntry.
  unfold updateBlacklistEntry, logged, try_catch, bind.
  rewrite (getUserCompanyId_found _ _ _ Hcompany), E, getBlacklistEntry_found.
  unfold updateBlacklistEntries, bind, get_db, put_db, ret.
  fold (entries w). rewrite Hfound. cbn [map].
  now rewrite logActivity_run.
Qed.

Lemma toggleBlacklistStatus_run (isBlacklisted : bool) :
  let data := toggleData now isBlacklisted in
  let updatedEntry := UpdateData.apply data existingEntry in
  toggleBlacklistStatus sink now userId entryId isBlacklisted w
  = (Returned updatedEntry,
     afterLog sink now
       (activity userId
          (if isBlacklisted then "blacklisted" else "unblacklisted") entryId
          ((if isBlacklisted then "Blacklisted" else "Unblacklisted")
           ++ " " ++ BlacklistEntry.first_name updatedEntry ++ " "
           ++ BlacklistEntry.last_name updatedEntry))
       (withEntries w
          (Sql.update_where (entryOfCompany entryId companyId)
             (UpdateData.apply data) (entries w))
          (next_id (blacklistEntriesTable (db w))))).
Proof.
  intros data updatedEntry.
  unfold toggleBlacklistStatus, logged, try_catch, bind.
  rewrite (getUserCompanyId_found _ _ _ Hcompany), getBlacklistEntry_found.
  unfold updateBlacklistEntries, bind, get_db, put_db, ret.
  fold (entries w). rewrite Hfound. cbn [map].
  now rewrite logActivity_run.
Qed.

Lemma deleteBlacklistEntry_run :
  deleteBlacklistEntry sink now userId entryId w
  = (Returned true,
     afterLog sink now
       (activity userId "deleted" entryId
          ("Deleted blacklist entry for "
           ++ BlacklistEntry.first_name existingEntry ++ " "
           ++ BlacklistEntry.last_name existingEntry))
       (withEntries w
          (Sql.delete_where (entryOfCompany entryId companyId) (entries w))
          (next_id (blacklistEntriesTable (db w))))).
Proof.
  unfold deleteBlacklistEntry, logged, try_catch, bind.
  rewrite (getUserCompanyId_found _ _ _ Hcompany), getBlacklistEntry_found.
  unfold deleteBlacklistEntries, bind, get_db, put_db.
  now rewrite logActivity_run.
Qed.

End Found.

(** ** Updating one entry *)

(** Under the primary key, the condition of the single-entry statements
    selects the entry itself and nothing else. *)
Lemma own_entry_selected (l : list BlacklistEntry.t) (e : BlacklistEntry.t) :
  NoDup (map BlacklistEntry.id l) -> In e l ->
  Sql.where_ (entryOfCompany (BlacklistEntry.id e) (BlacklistEntry.company_id e)) l
  = [e].
Proof.
  unfold Sql.where_. induction l as [|x l IH]; simpl; [tauto|].
  intros Hnd Hin. inversion Hnd as [|? ? Hx Hl]; subst.
  destruct (Sql.is_true (entryOfCompany _ _ x)) eqn:E.
  - apply entryOfCompany_true in E. destruct E as [Ei Ec].
    assert (x = e) as ->.
    { apply (primaryKey_inj (x :: l)); simpl; auto. }
    f_equal. apply where_nil. intros r Hr.
    destruct (Sql.is_true _) eqn:E'; [|reflexivity].
    apply entryOfCompany_true in E'. destruct E' as [Ei' _].
    exfalso. apply Hx. rewrite <- Ei'. now apply in_map.
  - destruct Hin as [->|Hin]; [|now apply IH].
    assert (Sql.is_true
              (entryOfCompany (BlacklistEntry.id e)
                 (BlacklistEntry.company_id e) e) = true) as T
      by now apply entryOfCompany_true.
    congruence.
Qed.

Lemma update_own_entry (l : list BlacklistEntry.t) (e : BlacklistEntry.t)
    (f : BlacklistEntry.t -> BlacklistEntry.t) :
  NoDup (map BlacklistEntry.id l) -> In e l ->
  BlacklistEntry.id (f e) = BlacklistEntry.id e ->
  Sql.update_where
    (entryOfCompany (BlacklistEntry.id e) (BlacklistEntry.company_id e)) f l
  = replaceById (f e) l.
Proof.
  intros Hnd Hin Hid. unfold Sql.update_where, replaceById.
  apply map_ext_in. intros x Hx. rewrite Hid.
  destruct (Z.eqb_spec (BlacklistEntry.id x) (BlacklistEntry.id e)) as [E|E].
  - assert (x = e) as -> by (apply (primaryKey_inj l); auto).
    assert (Sql.is_true
              (entryOfCompany (BlacklistEntry.id e)
                 (BlacklistEntry.company_id e) e) = true) as ->
      by now apply entryOfCompany_true.
    reflexivity.
  - destruct (Sql.is_true _) eqn:T; [|reflexivity].
    apply entryOfCompany_true in T. tauto.
Qed.

(** C8. For an entry of the caller's company, an update whose patch gives
    no field returns the entry with [updated_at] set to the time of the
    call and every other field as it was (the score is not computed
    again), and stores exactly that in place of the entry. *)
Theorem update_with_empty_patch
    (sink : ActivitySink) (now : Z) (w : World)
    (userId : Z) (e : BlacklistEntry.t) :
  primaryKey w ->
  companyOf w userId = Some (BlacklistEntry.company_id e) ->
  In e (entries w) ->
  let (outcome, w') :=
    updateBlacklistEntry sink now userId
      (UpdateBlacklistEntry.empty (BlacklistEntry.id e)) w in
  exists r,
    outcome = Returned r
    /\ sameButUpdatedAt e r
    /\ BlacklistEntry.updated_at r = now
    /\ entries w' = replaceById r (entries w)
    /\ recalculatedScore (UpdateBlacklistEntry.empty (BlacklistEntry.id e)) e
       = None.
Proof.
  intros Hpk Hc Hin.
  pose proof (own_entry_selected _ _ Hpk Hin) as Hsel.
  rewrite (updateBlacklistEntry_run sink now w userId _ Hc _ e [] Hsel
             (UpdateBlacklistEntry.empty (BlacklistEntry.id e)) eq_refl).
  set (data := prepareUpdateData now _ e).
  exists (UpdateData.apply data e).
  split; [reflexivity|]. split; [repeat split|]. split; [reflexivity|].
  split; [|reflexivity].
  unfold entries at 1.
  rewrite (proj1 (afterLog_entries _ _ _ _)). cbn [withEntries db blacklistEntriesTable rows].
  now apply update_own_entry.
Qed.

Lemma update_with_empty_patch_witness :
  primaryKey Sample.world2
  /\ companyOf Sample.world2 1
     = Some (BlacklistEntry.company_id Sample.janeEntry)
  /\ In Sample.janeEntry (entries Sample.world2)
  /\ let (outcome, w') :=
       updateBlacklistEntry insertActivityLog 3000 1
         (UpdateBlacklistEntry.empty (BlacklistEntry.id Sample.janeEntry))
         Sample.world2 in
     exists r,
       outcome = Returned r
       /\ sameButUpdatedAt Sample.janeEntry r
       /\ BlacklistEntry.updated_at r = 3000
       /\ entries w' = replaceById r (entries Sample.world2)
       /\ recalculatedScore
            (UpdateBlacklistEntry.empty (BlacklistEntry.id Sample.janeEntry))
            Sample.janeEntry
          = None.
Proof.
  assert (Hc : companyOf Sample.world2 1
               = Some (BlacklistEntry.company_id Sample.janeEntry))
    by reflexivity.
  assert (Hin : In Sample.janeEntry (entries Sample.world2))
    by (rewrite sample_entries; now left).
  refine (conj sample_primaryKey (conj Hc (conj Hin _))).
  exact (update_with_empty_patch insertActivityLog 3000 Sample.world2 1
           Sample.janeEntry sample_primaryKey Hc Hin).
Defined.

(** ** The score after an update *)

(** When the patch gives a reason, documents or a face image, and does not
    set the face image to [null], the stored score is the score of the
    entry as it is after the patch. *)
Lemma update_rescored_from_patched_entry
    (now : Z) (input : UpdateBlacklistEntry.t) (e : BlacklistEntry.t) :
  defined (UpdateBlacklistEntry.reason input)
  || defined (UpdateBlacklistEntry.id_document_urls input)
  || defined (UpdateBlacklistEntry.face_image_url input) = true ->
  UpdateBlacklistEntry.face_image_url input <> Some None ->
  let r := UpdateData.apply (prepareUpdateData now input e) e in
  BlacklistEntry.blacklist_score r = scoreOf r.
Proof.
  intros Hd Hface r. subst r. unfold scoreOf, prepareUpdateData.
  cbn [UpdateData.apply BlacklistEntry.blacklist_score BlacklistEntry.reason
       BlacklistEntry.id_document_urls BlacklistEntry.face_image_url
       UpdateData.blacklist_score UpdateData.reason UpdateData.id_document_urls
       UpdateData.face_image_url].
  unfold recalculatedScore. rewrite Hd. cbn [Js.nullish].
  destruct (UpdateBlacklistEntry.face_image_url input) as [[url|]|];
    [reflexivity | congruence | reflexivity].
Qed.

(** C4 fails on the code.  Jane Doe's entry has a fraud reason, two
    documents and a face image, hence score 100.  A patch that sets
    [face_image_url] to [null] stores the entry without a face image, yet
    with score 100: [input.face_image_url ?? existingEntry.face_image_url]
    falls back to the stored image when the patch says [null].  The score
    of the stored values is 90. *)
Theorem update_face_image_null_keeps_bonus :
  let (outcome, w') :=
    updateBlacklistEntry insertActivityLog 3000 1 Sample.removeFaceImage
      Sample.world2 in
  exists r,
    outcome = Returned r
    /\ In r (entries w')
    /\ BlacklistEntry.face_image_url r = None
    /\ BlacklistEntry.blacklist_score r = 100
    /\ scoreOf r = 90.
Proof.
  vm_compute. eexists. split; [reflexivity|].
  split; [left; reflexivity|]. repeat split.
Qed.

(** ** Creating an entry *)

(** C10. Creation stores the entry with status [active] whatever the
    submission says, and with the submission's [is_blacklisted]; so a
    submission with [is_blacklisted = false] gives an entry that is not
    blacklisted and [active], where [toggleBlacklistStatus] pairs
    [false] with [inactive]. *)
Theorem create_status_active
    (sink : ActivitySink) (now : Z) (w : World)
    (userId companyId : Z) (input : CreateBlacklistEntry.t) :
  companyOf w userId = Some companyId ->
  let (outcome, w') := createBlacklistEntry sink now userId input w in
  exists entry,
    outcome = Returned entry
    /\ In entry (entries w')
    /\ BlacklistEntry.status entry = active
    /\ BlacklistEntry.is_blacklisted entry
       = CreateBlacklistEntry.is_blacklisted input
    /\ (CreateBlacklistEntry.is_blacklisted input = false ->
        BlacklistEntry.is_blacklisted entry = false
        /\ BlacklistEntry.status entry = active
        /\ UpdateData.status
             (toggleData now (BlacklistEntry.is_blacklisted entry))
           = Some inactive).
Proof.
  intros Hc. rewrite (createBlacklistEntry_run sink now w userId _ Hc input).
  eexists. split; [reflexivity|]. split.
  - unfold entries at 1. rewrite (proj1 (afterLog_entries _ _ _ _)).
    cbn [withEntries db blacklistEntriesTable rows].
    apply in_or_app. right. now left.
  - cbn [BlacklistEntry.status BlacklistEntry.is_blacklisted].
    split; [reflexivity|]. split; [reflexivity|].
    intros Hfalse. rewrite Hfalse. now repeat split.
Qed.

Lemma create_status_active_witness :
  companyOf Sample.world0 1 = Some 10
  /\ let (outcome, w') :=
       createBlacklistEntry insertActivityLog 1000 1
         (CreateBlacklistEntry.mk "Jane" "Doe" "123456789" None None None []
            "Contract dispute" false)
         Sample.world0 in
     exists entry,
       outcome = Returned entry
       /\ In entry (entries w')
       /\ BlacklistEntry.status entry = active
       /\ BlacklistEntry.is_blacklisted entry = false
       /\ (false = false ->
           BlacklistEntry.is_blacklisted entry = false
           /\ BlacklistEntry.status entry = active
           /\ UpdateData.status
                (toggleData 1000 (BlacklistEntry.is_blacklisted entry))
              = Some inactive).
Proof.
  assert (Hc : companyOf Sample.world0 1 = Some 10) by reflexivity.
  refine (conj Hc _).
  exact (create_status_active insertActivityLog 1000 Sample.world0 1 10
           (CreateBlacklistEntry.mk "Jane" "Doe" "123456789" None None None []
              "Contract dispute" false) Hc).
Defined.

(** The schema's default for a submission that leaves [is_blacklisted] out. *)
Example is_blacklisted_default_true :
  CreateBlacklistEntry.is_blacklisted_default None = true.
Proof. reflexivity. Qed.

(** ** The activity log does not decide the result *)

Lemma sameResult_afterLog {A : Type} (a : A) (sink1 sink2 : ActivitySink)
    (now : Z) (v1 v2 : ActivityLogValues.t) (w : World) :
  sameResult (Returned a, afterLog sink1 now v1 w)
             (Returned a, afterLog sink2 now v2 w).
Proof.
  unfold sameResult. cbn [fst snd].
  destruct (afterLog_entries sink1 now v1 w) as [-> [-> ->]].
  destruct (afterLog_entries sink2 now v2 w) as [-> [-> ->]].
  repeat split.
Qed.

Lemma sameResult_refl {A : Type} (a : Outcome A * World) : sameResult a a.
Proof. repeat split. Qed.

(** A handler stopped by [getUserCompanyId] never reaches the sink. *)
Ltac stopped_without_company Hc :=
  unfold createBlacklistEntry, updateBlacklistEntry, deleteBlacklistEntry,
         toggleBlacklistStatus, logged, try_catch, bind;
  rewrite !(getUserCompanyId_missing _ _ Hc);
  apply sameResult_refl.

(** C9. Whatever the activity-log sink does, a mutating handler ends with
    the same outcome (the entry it returns, the success of a delete, or
    the error of the handler itself) and the same blacklist entries: run
    from one world against any two sinks, one of which may throw where
    the other succeeds, the handler gives the same result. *)
Theorem sink_failure_not_propagated
    (sink1 sink2 : ActivitySink) (now : Z) (w : World) (userId : Z) :
  (forall input,
      sameResult (createBlacklistEntry sink1 now userId input w)
                 (createBlacklistEntry sink2 now userId input w))
  /\ (forall input,
      sameResult (updateBlacklistEntry sink1 now userId input w)
                 (updateBlacklistEntry sink2 now userId input w))
  /\ (forall entryId,
      sameResult (deleteBlacklistEntry sink1 now userId entryId w)
                 (deleteBlacklistEntry sink2 now userId entryId w))
  /\ (forall entryId isBlacklisted,
      sameResult
        (toggleBlacklistStatus sink1 now userId entryId isBlacklisted w)
        (toggleBlacklistStatus sink2 now userId entryId isBlacklisted w)).
Proof.
  destruct (companyOf w userId) as [companyId|] eqn:Hc.
  - split; [|split; [|split]].
    + intros input. rewrite !(createBlacklistEntry_run _ _ _ _ _ Hc).
      apply sameResult_afterLog.
    + intros input.
      destruct (Sql.where_ (entryOfCompany (UpdateBlacklistEntry.id input)
                              companyId) (entries w)) as [|e l] eqn:Hf.
      * rewrite !(updateBlacklistEntry_denied _ _ _ _ _ _ Hc Hf _ eq_refl).
        apply sameResult_refl.
      * rewrite !(updateBlacklistEntry_run _ _ _ _ _ Hc _ _ _ Hf _ eq_refl).
        apply sameResult_afterLog.
    + intros entryId.
      destruct (Sql.where_ (entryOfCompany entryId companyId) (entries w))
        as [|e l] eqn:Hf.
      * rewrite !(deleteBlacklistEntry_denied _ _ _ _ _ _ Hc Hf).
        apply sameResult_refl.
      * rewrite !(deleteBlacklistEntry_run _ _ _ _ _ Hc _ _ _ Hf).
        apply sameResult_afterLog.
    + intros entryId isBlacklisted.
      destruct (Sql.where_ (entryOfCompany entryId companyId) (entries w))
        as [|e l] eqn:Hf.
      * rewrite !(toggleBlacklistStatus_denied _ _ _ _ _ _ Hc Hf).
        apply sameResult_refl.
      * rewrite !(toggleBlacklistStatus_run _ _ _ _ _ Hc _ _ _ Hf).
        apply sameResult_afterLog.
  - split; [|split; [|split]]; intros; stopped_without_company Hc.
Qed.

(** With the sink down, an update still returns the updated entry, and
    the failure of the sink is on the console only. *)
Example update_with_failing_sink :
  let (outcome, w') :=
    updateBlacklistEntry failingSink 3000 1
      (UpdateBlacklistEntry.empty 1) Sample.world2 in
  (exists r, outcome = Returned r /\ In r (entries w'))
  /\ console w'
     = [("Failed to log activity:", StorageError "connection refused")].
Proof.
  vm_compute. split; [|reflexivity].
  eexists. split; [reflexivity | left; reflexivity].
Qed.

(** ** Conditions and what they select *)

Lemma is_true_and3 (a b : Sql.tri) :
  Sql.is_true (Sql.and3 a b) = Sql.is_true a && Sql.is_true b.
Proof. now destruct a as [[|]|], b as [[|]|]. Qed.

Lemma is_true_or3 (a b : Sql.tri) :
  Sql.is_true (Sql.or3 a b) = Sql.is_true a || Sql.is_true b.
Proof. now destruct a as [[|]|], b as [[|]|]. Qed.

Lemma or3_not_null (a b : Sql.tri) :
  Sql.or3 a b = None ->
  Sql.is_true a = false /\ Sql.is_true b = false.
Proof. now destruct a as [[|]|], b as [[|]|]. Qed.

Lemma is_true_and_ {R : Type} (cs : list (@Sql.cond R)) (r : R) :
  Sql.is_true (Sql.and_ cs r) = forallb (fun c => Sql.is_true (c r)) cs.
Proof.
  unfold Sql.and_. induction cs as [|c cs IH]; simpl; [reflexivity|].
  now rewrite is_true_and3, IH.
Qed.

Lemma is_true_or_ {R : Type} (cs : list (@Sql.cond R)) (r : R) :
  Sql.is_true (Sql.or_ cs r) = existsb (fun c => Sql.is_true (c r)) cs.
Proof.
  unfold Sql.or_. induction cs as [|c cs IH]; simpl; [reflexivity|].
  now rewrite is_true_or3, IH.
Qed.

(** The [WHERE] clause of the listing is the conjunction of its
    conditions, also when there is only one. *)
Lemma whereCondition_true (companyId : Z) (filters : BlacklistFilter.t)
    (r : BlacklistEntry.t) :
  Sql.is_true (whereCondition companyId filters r)
  = forallb (fun c => Sql.is_true (c r)) (listConditions companyId filters).
Proof.
  unfold whereCondition.
  destruct (listConditions companyId filters) as [|c [|c' cs]].
  - reflexivity.
  - simpl. now rewrite andb_true_r.
  - apply is_true_and_.
Qed.

(** The company of the caller is always among the conditions. *)
Lemma whereCondition_company (companyId : Z) (filters : BlacklistFilter.t)
    (r : BlacklistEntry.t) :
  Sql.is_true (whereCondition companyId filters r) = true ->
  BlacklistEntry.company_id r = companyId.
Proof.
  rewrite whereCondition_true. unfold listConditions.
  cbn [app forallb]. rewrite andb_true_iff. intros [H _].
  unfold Sql.eqZ, Sql.is_true in H.
  now destruct (Z.eqb_spec (BlacklistEntry.company_id r) companyId).
Qed.

Lemma In_insert_desc {R : Type} (key : R -> Z) (x y : R) (l : list R) :
  In y (Sql.insert_desc key x l) <-> y = x \/ In y l.
Proof.
  induction l as [|z l IH]; simpl.
  - intuition.
  - destruct (key x <? key z); simpl; rewrite ?IH; intuition.
Qed.

Lemma In_orderBy_desc {R : Type} (key : R -> Z) (y : R) (l : list R) :
  In y (Sql.orderBy_desc key l) <-> In y l.
Proof.
  unfold Sql.orderBy_desc. induction l as [|x l IH]; simpl.
  - tauto.
  - rewrite In_insert_desc, IH. intuition.
Qed.

Lemma length_insert_desc {R : Type} (key : R -> Z) (x : R) (l : list R) :
  List.length (Sql.insert_desc key x l) = S (List.length l).
Proof.
  induction l as [|z l IH]; simpl; [reflexivity|].
  destruct (key x <? key z); simpl; [now rewrite IH | reflexivity].
Qed.

Lemma length_orderBy_desc {R : Type} (key : R -> Z) (l : list R) :
  List.length (Sql.orderBy_desc key l) = List.length l.
Proof.
  unfold Sql.orderBy_desc. induction l as [|x l IH]; simpl; [reflexivity|].
  now rewrite length_insert_desc, IH.
Qed.

Lemma In_limit_offset {R : Type} (n k : Z) (y : R) (l : list R) :
  In y (Sql.limit_offset n k l) -> In y l.
Proof.
  unfold Sql.limit_offset. intros H.
  rewrite <- (firstn_skipn (Z.to_nat k) l). apply in_or_app. right.
  rewrite <- (firstn_skipn (Z.to_nat n) (skipn (Z.to_nat k) l)).
  apply in_or_app. now left.
Qed.

(** The first page holds everything when the limit is large enough. *)
Lemma limit_offset_first_page {R : Type} (limit : Z) (l : list R) :
  Z.of_nat (List.length l) <= limit ->
  Sql.limit_offset limit ((1 - 1) * limit) l = l.
Proof.
  intros H. unfold Sql.limit_offset.
  replace (Z.to_nat ((1 - 1) * limit)) with 0%nat by lia.
  cbn [skipn]. apply firstn_all2. lia.
Qed.

Lemma In_where {R : Type} (c : @Sql.cond R) (y : R) (l : list R) :
  In y (Sql.where_ c l) <-> In y l /\ Sql.is_true (c y) = true.
Proof. unfold Sql.where_. apply filter_In. Qed.

(** ** Tenant isolation *)

Lemma foreign_not_selected (entryId companyId : Z) (e : BlacklistEntry.t) :
  BlacklistEntry.company_id e <> companyId ->
  Sql.is_true (entryOfCompany entryId companyId e) = false.
Proof.
  intros H. destruct (Sql.is_true _) eqn:E; [|reflexivity].
  apply entryOfCompany_true in E. tauto.
Qed.

Lemma In_update_where_unselected {R : Type} (c : @Sql.cond R) (f : R -> R)
    (e : R) (l : list R) :
  In e l -> Sql.is_true (c e) = false -> In e (Sql.update_where c f l).
Proof.
  intros Hin Hc. unfold Sql.update_where. apply in_map_iff.
  exists e. now rewrite Hc.
Qed.

Lemma In_delete_where_unselected {R : Type} (c : @Sql.cond R)
    (e : R) (l : list R) :
  In e l -> Sql.is_true (c e) = false -> In e (Sql.delete_where c l).
Proof.
  intros Hin Hc. unfold Sql.delete_where. apply filter_In. now rewrite Hc.
Qed.

Lemma entries_afterLog (sink : ActivitySink) (now : Z)
    (v : ActivityLogValues.t) (w : World) :
  entries (afterLog sink now v w) = entries w.
Proof. unfold entries. now rewrite (proj1 (afterLog_entries _ _ _ _)). Qed.

Section Isolation.

Variables (sink : ActivitySink) (now : Z).
Variables (w : World) (userId companyId : Z) (e : BlacklistEntry.t).
Hypothesis Hcompany : companyOf w userId = Some companyId.
Hypothesis Hin : In e (entries w).
Hypothesis Hforeign : BlacklistEntry.company_id e <> companyId.

Lemma list_omits_foreign (filters : BlacklistFilter.t) (p : Pagination.t) :
  exists es total,
    getBlacklistEntries userId filters p w = (Returned (es, total), w)
    /\ ~ In e es.
Proof.
  rewrite (getBlacklistEntries_run _ _ _ Hcompany). do 2 eexists.
  split; [reflexivity|]. intros H.
  apply In_limit_offset, In_orderBy_desc, In_where in H.
  destruct H as [_ H]. now apply whereCondition_company in H.
Qed.

Lemma get_never_foreign (entryId : Z) :
  exists r,
    getBlacklistEntry userId entryId w = (Returned r, w) /\ r <> Some e.
Proof.
  rewrite (getBlacklistEntry_run _ _ _ _ Hcompany). eexists.
  split; [reflexivity|].
  destruct (Sql.where_ _ _) as [|x l] eqn:Hf; cbn; [discriminate|].
  intros H. injection H as ->.
  assert (In e (Sql.where_ (entryOfCompany entryId companyId) (entries w)))
    as Hx by (rewrite Hf; now left).
  apply In_where in Hx. destruct Hx as [_ Hx].
  now rewrite foreign_not_selected in Hx.
Qed.

Lemma selected_is_own (entryId : Z) (x : BlacklistEntry.t)
    (l : list BlacklistEntry.t) :
  Sql.where_ (entryOfCompany entryId companyId) (entries w) = x :: l ->
  BlacklistEntry.company_id x = companyId.
Proof.
  intros Hf.
  assert (In x (Sql.where_ (entryOfCompany entryId companyId) (entries w)))
    as Hx by (rewrite Hf; now left).
  apply In_where in Hx. destruct Hx as [_ Hx].
  now apply entryOfCompany_true in Hx.
Qed.

Lemma update_keeps_foreign (input : UpdateBlacklistEntry.t) :
  let (outcome, w') := updateBlacklistEntry sink now userId input w in
  In e (entries w') /\ outcome <> Returned e.
Proof.
  destruct (Sql.where_ (entryOfCompany (UpdateBlacklistEntry.id input)
                          companyId) (entries w)) as [|x l] eqn:Hf.
  - rewrite (updateBlacklistEntry_denied _ _ _ _ _ _ Hcompany Hf _ eq_refl).
    split; [exact Hin | discriminate].
  - rewrite (updateBlacklistEntry_run _ _ _ _ _ Hcompany _ _ _ Hf _ eq_refl).
    rewrite entries_afterLog. split.
    + apply In_update_where_unselected; [exact Hin|].
      now apply foreign_not_selected.
    + intros H. injection H as H. apply Hforeign. rewrite <- H.
      apply (selected_is_own _ _ _ Hf).
Qed.

Lemma toggle_keeps_foreign (entryId : Z) (isBlacklisted : bool) :
  let (outcome, w') :=
    toggleBlacklistStatus sink now userId entryId isBlacklisted w in
  In e (entries w') /\ outcome <> Returned e.
Proof.
  destruct (Sql.where_ (entryOfCompany entryId companyId) (entries w))
    as [|x l] eqn:Hf.
  - rewrite (toggleBlacklistStatus_denied _ _ _ _ _ _ Hcompany Hf).
    split; [exact Hin | discriminate].
  - rewrite (toggleBlacklistStatus_run _ _ _ _ _ Hcompany _ _ _ Hf).
    rewrite entries_afterLog. split.
    + apply In_update_where_unselected; [exact Hin|].
      now apply foreign_not_selected.
    + intros H. injection H as H. apply Hforeign. rewrite <- H.
      apply (selected_is_own _ _ _ Hf).
Qed.

Lemma delete_keeps_foreign (entryId : Z) :
  let (outcome, w') := deleteBlacklistEntry sink now userId entryId w in
  In e (entries w').
Proof.
  destruct (Sql.where_ (entryOfCompany entryId companyId) (entries w))
    as [|x l] eqn:Hf.
  - rewrite (deleteBlacklistEntry_denied _ _ _ _ _ _ Hcompany Hf). exact Hin.
  - rewrite (deleteBlacklistEntry_run _ _ _ _ _ Hcompany _ _ _ Hf).
    rewrite entries_afterLog.
    apply In_delete_where_unselected; [exact Hin|].
    now apply foreign_not_selected.
Qed.

End Isolation.

(** C2. A caller who acts for a company never gets at an entry of another
    company: no listing contains it, reading it gives [null], and
    updating, deleting or toggling it fails with the
    not-found-or-access-denied error and leaves the database as it was.
    Whatever entry id and patch the caller passes, the entry stays in the
    table as it is and is never the result.  The handlers do not read the
    administrator flag, so this holds for every caller, non-administrators
    among them. *)
Theorem foreign_entry_out_of_reach
    (sink : ActivitySink) (now : Z) (w : World)
    (userId companyId : Z) (e : BlacklistEntry.t) :
  primaryKey w ->
  companyOf w userId = Some companyId ->
  In e (entries w) ->
  BlacklistEntry.company_id e <> companyId ->
  (forall filters pagination,
      exists es total,
        getBlacklistEntries userId filters pagination w
        = (Returned (es, total), w)
        /\ ~ In e es)
  /\ getBlacklistEntry userId (BlacklistEntry.id e) w = (Returned None, w)
  /\ (forall input,
        UpdateBlacklistEntry.id input = BlacklistEntry.id e ->
        let (outcome, w') := updateBlacklistEntry sink now userId input w in
        outcome = Thrown NotFoundOrAccessDenied /\ db w' = db w)
  /\ (let (outcome, w') :=
        deleteBlacklistEntry sink now userId (BlacklistEntry.id e) w in
      outcome = Thrown NotFoundOrAccessDenied /\ db w' = db w)
  /\ (forall isBlacklisted,
        let (outcome, w') :=
          toggleBlacklistStatus sink now userId (BlacklistEntry.id e)
            isBlacklisted w in
        outcome = Thrown NotFoundOrAccessDenied /\ db w' = db w)
  /\ (forall entryId,
        exists r,
          getBlacklistEntry userId entryId w = (Returned r, w)
          /\ r <> Some e)
  /\ (forall input,
        let (outcome, w') := updateBlacklistEntry sink now userId input w in
        In e (entries w') /\ outcome <> Returned e)
  /\ (forall entryId,
        let (outcome, w') := deleteBlacklistEntry sink now userId entryId w in
        In e (entries w'))
  /\ (forall entryId isBlacklisted,
        let (outcome, w') :=
          toggleBlacklistStatus sink now userId entryId isBlacklisted w in
        In e (entries w') /\ outcome <> Returned e).
Proof.
  intros Hpk Hc Hin Hforeign.
  assert (Hnone : Sql.where_ (entryOfCompany (BlacklistEntry.id e) companyId)
                    (entries w) = []).
  { apply absentOrForeign_selects_nothing; [exact Hpk|].
    right. now exists e. }
  split; [intros; eapply list_omits_foreign; eassumption|].
  split; [now apply (getBlacklistEntry_denied _ _ _ _ Hc Hnone)|].
  split.
  { intros input E.
    rewrite (updateBlacklistEntry_denied _ _ _ _ _ _ Hc Hnone _ E). now split. }
  split.
  { rewrite (deleteBlacklistEntry_denied _ _ _ _ _ _ Hc Hnone). now split. }
  split.
  { intros b.
    rewrite (toggleBlacklistStatus_denied _ _ _ _ _ _ Hc Hnone). now split. }
  split; [intros; eapply get_never_foreign; eassumption|].
  split; [intros; eapply update_keeps_foreign; eassumption|].
  split; [intros; eapply delete_keeps_foreign; eassumption|].
  intros; eapply toggle_keeps_foreign; eassumption.
Qed.

Lemma foreign_entry_out_of_reach_witness :
  In (User.mk 2 false) (usersTable (db Sample.world2))
  /\ primaryKey Sample.world2
  /\ companyOf Sample.world2 2 = Some 20
  /\ In Sample.janeEntry (entries Sample.world2)
  /\ BlacklistEntry.company_id Sample.janeEntry <> 20
  /\ getBlacklistEntry 2 1 Sample.world2 = (Returned None, Sample.world2)
  /\ (exists es total,
        getBlacklistEntries 2 BlacklistFilter.none Sample.firstPage
          Sample.world2
        = (Returned (es, total), Sample.world2)
        /\ ~ In Sample.janeEntry es)
  /\ (forall isBlacklisted,
        let (outcome, w') :=
          toggleBlacklistStatus insertActivityLog 3000 2 1 isBlacklisted
            Sample.world2 in
        outcome = Thrown NotFoundOrAccessDenied /\ db w' = db Sample.world2).
Proof.
  assert (Hu : In (User.mk 2 false) (usersTable (db Sample.world2)))
    by (right; left; reflexivity).
  assert (Hc : companyOf Sample.world2 2 = Some 20) by reflexivity.
  assert (Hin : In Sample.janeEntry (entries Sample.world2))
    by (rewrite sample_entries; now left).
  assert (Hf : BlacklistEntry.company_id Sample.janeEntry <> 20)
    by discriminate.
  refine (conj Hu (conj sample_primaryKey (conj Hc (conj Hin (conj Hf _))))).
  destruct (foreign_entry_out_of_reach insertActivityLog 3000 Sample.world2
              2 20 Sample.janeEntry sample_primaryKey Hc Hin Hf)
    as [Hlist [Hget [_ [_ [Htoggle _]]]]].
  split; [exact Hget|].
  split; [exact (Hlist BlacklistFilter.none Sample.firstPage) | exact Htoggle].
Defined.

(** ** Listing without filter *)

Lemma where_no_filter (companyId : Z) (l : list BlacklistEntry.t) :
  Sql.where_ (whereCondition companyId BlacklistFilter.none) l
  = filter (fun e => BlacklistEntry.company_id e =? companyId) l.
Proof.
  unfold Sql.where_. apply filter_ext. intros e.
  change (whereCondition companyId BlacklistFilter.none)
    with (@Sql.eqZ BlacklistEntry.t BlacklistEntry.company_id companyId).
  unfold Sql.eqZ, Sql.is_true.
  now destruct (BlacklistEntry.company_id e =? companyId).
Qed.

(** C3, as stated, fails: user 3 is an administrator, the table holds one
    entry of company 10 and one of company 20, and the administrator's
    listing is empty with total 0. *)
Lemma admin_listing_is_scoped : ~ adminListsAllCompanies.
Proof.
  intros H.
  destruct (H Sample.world2 (User.mk 3 true) Sample.janeEntry Sample.bobEntry
              Sample.firstPage) as [es [E _]].
  - right. right. left. reflexivity.
  - reflexivity.
  - reflexivity.
  - discriminate.
  - reflexivity.
  - discriminate.
  - vm_compute in E. discriminate.
Qed.

(** C3, amended.  The listing is scoped to the company the caller owns,
    for administrators as for everyone else: without filter, the total is
    the number of entries of that company, every entry listed is one of
    them, and a first page that is large enough lists them all. *)
Theorem listing_scoped_to_own_company
    (w : World) (userId companyId : Z) (pagination : Pagination.t) :
  companyOf w userId = Some companyId ->
  exists es,
    getBlacklistEntries userId BlacklistFilter.none pagination w
    = (Returned
         (es, Z.of_nat (List.length (entriesOfCompany w companyId))), w)
    /\ (forall e, In e es -> In e (entriesOfCompany w companyId))
    /\ (Pagination.page pagination = 1 ->
        Z.of_nat (List.length (entriesOfCompany w companyId))
        <= Pagination.limit pagination ->
        forall e, In e (entriesOfCompany w companyId) -> In e es).
Proof.
  intros Hc. rewrite (getBlacklistEntries_run _ _ _ Hc), where_no_filter.
  fold (entriesOfCompany w companyId). eexists.
  split; [reflexivity|]. split.
  - intros e H. now apply In_limit_offset, In_orderBy_desc in H.
  - intros -> Hlimit e H.
    rewrite limit_offset_first_page
      by now rewrite length_orderBy_desc.
    now apply In_orderBy_desc.
Qed.

Lemma listing_scoped_to_own_company_witness :
  In (User.mk 3 true) (usersTable (db Sample.world2))
  /\ companyOf Sample.world2 3 = Some 30
  /\ entriesOfCompany Sample.world2 30 = []
  /\ exists es,
       getBlacklistEntries 3 BlacklistFilter.none Sample.firstPage
         Sample.world2
       = (Returned (es, 0), Sample.world2)
       /\ forall e, In e es -> In e (entriesOfCompany Sample.world2 30).
Proof.
  assert (Hc : companyOf Sample.world2 3 = Some 30) by reflexivity.
  split; [right; right; left; reflexivity|].
  refine (conj Hc (conj eq_refl _)).
  destruct (listing_scoped_to_own_company Sample.world2 3 30 Sample.firstPage
              Hc) as [es [E [Hsub _]]].
  exists es. split; [exact E | exact Hsub].
Defined.

(** Each owner sees the one entry of their own company. *)
Example owners_list_their_own :
  fst (getBlacklistEntries 1 BlacklistFilter.none Sample.firstPage
         Sample.world2)
  = Returned ([Sample.janeEntry], 1)
  /\ fst (getBlacklistEntries 2 BlacklistFilter.none Sample.firstPage
            Sample.world2)
     = Returned ([Sample.bobEntry], 1).
Proof. split; reflexivity. Qed.

(** An administrator who owns no company cannot list at all. *)
Example admin_without_company :
  fst (getBlacklistEntries 4 BlacklistFilter.none Sample.firstPage
         (mkWorld
            (mkDb [User.mk 4 true] [] (mkTable [Sample.janeEntry] 2)
               (mkTable [] 1))
            []))
  = Thrown (UserCompanyNotFound 4).
Proof. reflexivity. Qed.

(** ** [LIKE] and substrings *)

Lemma matchTokens_AnyRun (ts : list Sql.token) (t : string) :
  Sql.matchTokens (Sql.AnyRun :: ts) t
  = Sql.matchTokens ts t
    || match t with
       | EmptyString => false
       | String _ t' => Sql.matchTokens (Sql.AnyRun :: ts) t'
       end.
Proof. now destruct t. Qed.

Lemma matchTokens_AnyRun_iff (ts : list Sql.token) (t : string) :
  Sql.matchTokens (Sql.AnyRun :: ts) t = true
  <-> exists pre post, t = pre ++ post /\ Sql.matchTokens ts post = true.
Proof.
  induction t as [|c t IH]; rewrite matchTokens_AnyRun, orb_true_iff.
  - split.
    + intros [H|H]; [|discriminate]. now exists EmptyString, EmptyString.
    + intros [pre [post [E H]]]. left.
      destruct pre; [|discriminate]. simpl in E. now subst post.
  - rewrite IH. split.
    + intros [H | [pre [post [E H]]]].
      * now exists EmptyString, (String c t).
      * exists (String c pre), post. simpl. now rewrite E.
    + intros [pre [post [E H]]]. destruct pre as [|c' pre]; simpl in E.
      * left. now subst post.
      * right. injection E as _ E. now exists pre, post.
Qed.

Lemma matchTokens_literal_iff (s : string) (ts : list Sql.token) (t : string) :
  Sql.matchTokens (literal s ++ ts) t = true
  <-> exists post, t = s ++ post /\ Sql.matchTokens ts post = true.
Proof.
  revert t. induction s as [|c s IH]; intros t.
  - simpl. split; [intros H; now exists t | now intros [post [-> H]]].
  - cbn [literal app Sql.matchTokens]. destruct t as [|c' t].
    + split; [discriminate | intros [post [E _]]; discriminate].
    + rewrite andb_true_iff, Ascii.eqb_eq, IH. split.
      * intros [-> [post [-> H]]]. now exists post.
      * intros [post [E H]]. simpl in E. injection E as -> ->.
        split; [reflexivity | now exists post].
Qed.

Lemma matchTokens_AnyRun_last (t : string) :
  Sql.matchTokens [Sql.AnyRun] t = true.
Proof.
  induction t as [|c t IH]; rewrite matchTokens_AnyRun; [reflexivity|].
  rewrite IH. apply orb_true_r.
Qed.

(** [%], a text, [%]: the text occurs somewhere. *)
Lemma matchTokens_contains (s t : string) :
  Sql.matchTokens (Sql.AnyRun :: literal s ++ [Sql.AnyRun]) t
  = Js.includes t s.
Proof.
  apply eq_true_iff_eq.
  rewrite matchTokens_AnyRun_iff, includes_iff. unfold Substring. split.
  - intros [pre [post [-> H]]].
    apply matchTokens_literal_iff in H. destruct H as [post' [-> _]].
    now exists pre, post'.
  - intros [pre [post ->]]. exists pre, (s ++ post). split; [reflexivity|].
    apply matchTokens_literal_iff. exists post.
    split; [reflexivity | apply matchTokens_AnyRun_last].
Qed.

Lemma parsePattern_plain (s rest : string) :
  plain s = true ->
  Sql.parsePattern (s ++ rest)
  = option_map (app (literal s)) (Sql.parsePattern rest).
Proof.
  induction s as [|c s IH]; intros Hp.
  - simpl. now destruct (Sql.parsePattern rest).
  - cbn [plain] in Hp. apply andb_true_iff in Hp. destruct Hp as [Hc Hs].
    unfold Sql.isMeta in Hc. rewrite negb_true_iff in Hc.
    apply orb_false_iff in Hc. destruct Hc as [Hc Hb].
    apply orb_false_iff in Hc. destruct Hc as [Hpc Hu].
    cbn [append Sql.parsePattern literal]. rewrite Hb, Hpc, Hu, (IH Hs).
    now destruct (Sql.parsePattern rest).
Qed.

Lemma parsePattern_search (s : string) :
  plain s = true ->
  Sql.parsePattern ("%" ++ s ++ "%")
  = Some (Sql.AnyRun :: literal s ++ [Sql.AnyRun]).
Proof.
  intros Hp. change ("%" ++ s ++ "%") with (String "%" (s ++ "%")).
  cbn [Sql.parsePattern].
  change (Ascii.eqb "%" Sql.backslash) with false.
  change (Ascii.eqb "%" "%") with true. cbn iota.
  now rewrite (parsePattern_plain _ _ Hp).
Qed.

(** A pattern that ends in [%] is never rejected: [%] stands at its end
    either for itself, after a backslash, or for any run. *)
Lemma parsePattern_percent (s : string) :
  Sql.parsePattern (s ++ "%") <> None.
Proof.
  assert (H : forall n s, (String.length s <= n)%nat ->
                          Sql.parsePattern (s ++ "%") <> None).
  { clear s. induction n as [|n IH]; intros s Hn.
    - destruct s; [discriminate | simpl in Hn; lia].
    - destruct s as [|c s]; [discriminate|].
      simpl in Hn. cbn [append Sql.parsePattern].
      destruct (Ascii.eqb c Sql.backslash).
      + destruct s as [|c' s]; [discriminate|].
        cbn [append]. simpl in Hn.
        specialize (IH s ltac:(lia)).
        now destruct (Sql.parsePattern (s ++ "%")).
      + specialize (IH s ltac:(lia)).
        destruct (Sql.parsePattern (s ++ "%")); [|congruence].
        now destruct (Ascii.eqb c "%"), (Ascii.eqb c "_"). }
  now apply (H (String.length s)).
Qed.

(** The pattern of the free-text condition is accepted whatever the
    search text is. *)
Lemma searchPattern_accepted (search : string) :
  Sql.parsePattern ("%" ++ search ++ "%") <> None.
Proof.
  change ("%" ++ search ++ "%") with (String "%" (search ++ "%")).
  cbn [Sql.parsePattern].
  change (Ascii.eqb "%" Sql.backslash) with false.
  change (Ascii.eqb "%" "%") with true. cbn iota.
  pose proof (parsePattern_percent search) as H.
  now destruct (Sql.parsePattern (search ++ "%")).
Qed.

(** For a plain search text, [LIKE '%text%'] is occurrence of the text. *)
Lemma like_plain (field : option string) (search : string) :
  plain search = true ->
  Sql.is_true (Sql.likeValue field ("%" ++ search ++ "%"))
  = match field with
    | Some text => Js.includes text search
    | None => false
    end.
Proof.
  intros Hp. unfold Sql.likeValue. destruct field as [text|]; [|reflexivity].
  rewrite (parsePattern_search _ Hp). cbn [Sql.is_true].
  rewrite matchTokens_contains. now destruct (Js.includes text search).
Qed.

(** ** The free-text filter of the listing *)

Lemma searchCondition_true (search : string) (e : BlacklistEntry.t) :
  Sql.is_true (searchCondition search e) = matchesLike search e.
Proof. unfold searchCondition. now rewrite is_true_or_. Qed.

Lemma existsb_pointwise {A : Type} (f g : A -> bool) (l : list A) :
  (forall x, f x = g x) -> existsb f l = existsb g l.
Proof.
  intros H. induction l as [|x l IH]; cbn [existsb]; [reflexivity|].
  now rewrite H, IH.
Qed.

Lemma matchesLike_plain (search : string) (e : BlacklistEntry.t) :
  plain search = true -> matchesLike search e = matchesSearch search e.
Proof.
  intros Hp. unfold matchesLike, matchesSearch.
  apply existsb_pointwise. intros field. now apply like_plain.
Qed.

Lemma matchesSearch_empty (e : BlacklistEntry.t) : matchesSearch EmptyString e = true.
Proof.
  unfold matchesSearch, searchFields. cbn [existsb].
  now destruct (BlacklistEntry.first_name e).
Qed.

(** The search text adds one conjunct to the [WHERE] clause, and none
    when it is empty. *)
Lemma whereCondition_search (companyId : Z) (filters : BlacklistFilter.t)
    (search : string) (e : BlacklistEntry.t) :
  BlacklistFilter.search filters = Some search ->
  Sql.is_true (whereCondition companyId filters e)
  = Sql.is_true (whereCondition companyId (withoutSearch filters) e)
    && match search with
       | EmptyString => true
       | String _ _ => matchesLike search e
       end.
Proof.
  intros Hs. rewrite !whereCondition_true. unfold listConditions.
  cbn [withoutSearch BlacklistFilter.status BlacklistFilter.search
       BlacklistFilter.date_from BlacklistFilter.date_to
       BlacklistFilter.min_score BlacklistFilter.max_score].
  rewrite Hs. rewrite !forallb_app.
  destruct search as [|c rest].
  - symmetry. apply andb_true_r.
  - cbn [forallb]. rewrite searchCondition_true.
    generalize (matchesLike (String c rest) e).
    repeat match goal with
           | |- context [@forallb ?A ?f ?l] => generalize (@forallb A f l)
           end.
    generalize (Sql.is_true (Sql.eqZ BlacklistEntry.company_id companyId e)).
    intros; repeat match goal with b : bool |- _ => destruct b end;
      reflexivity.
Qed.

Lemma whereCondition_plain_search (companyId : Z)
    (filters : BlacklistFilter.t) (search : string) (e : BlacklistEntry.t) :
  BlacklistFilter.search filters = Some search ->
  plain search = true ->
  Sql.is_true (whereCondition companyId filters e)
  = Sql.is_true (whereCondition companyId (withoutSearch filters) e)
    && matchesSearch search e.
Proof.
  intros Hs Hp. rewrite (whereCondition_search _ _ _ _ Hs).
  destruct search as [|c rest].
  - now rewrite matchesSearch_empty.
  - now rewrite (matchesLike_plain _ _ Hp).
Qed.

(** C6, as stated, fails: the search text "wilson" occurs in Bob Wilson's
    last name when letter case is ignored, and user 2, who owns the
    entry, gets an empty listing with total 0 for that text. *)
Lemma search_is_not_case_insensitive : ~ searchCounts matchesSearchIgnoringCase.
Proof.
  intros H.
  destruct (H Sample.world2 2 20 "wilson" Sample.firstPage eq_refl)
    as [es E].
  vm_compute in E. discriminate.
Qed.

(** C6, amended.  The listing runs [LIKE '%search%'], which respects
    letter case.  For a search text without [%], [_] and backslash, a
    listing with that text selects exactly the entries that the other
    conditions (the caller's company first of all) select and in which
    the text occurs, letter case respected, in at least one of first name,
    last name, id number, email and reason: they are counted in the
    total, every entry listed is one of them, and a first page that is
    large enough lists them all. *)
Theorem search_filter_case_sensitive
    (w : World) (userId companyId : Z) (filters : BlacklistFilter.t)
    (search : string) (pagination : Pagination.t) :
  companyOf w userId = Some companyId ->
  BlacklistFilter.search filters = Some search ->
  plain search = true ->
  let selected :=
    filter (fun e =>
              Sql.is_true (whereCondition companyId (withoutSearch filters) e)
              && matchesSearch search e)
           (entries w) in
  exists es,
    getBlacklistEntries userId filters pagination w
    = (Returned (es, Z.of_nat (List.length selected)), w)
    /\ (forall e, In e es -> In e selected)
    /\ (Pagination.page pagination = 1 ->
        Z.of_nat (List.length selected) <= Pagination.limit pagination ->
        forall e, In e selected -> In e es).
Proof.
  intros Hc Hs Hp selected.
  assert (E : Sql.where_ (whereCondition companyId filters) (entries w)
              = selected).
  { unfold Sql.where_, selected. apply filter_ext. intros e.
    now apply whereCondition_plain_search. }
  rewrite (getBlacklistEntries_run _ _ _ Hc), E. eexists.
  split; [reflexivity|]. split.
  - intros e H. now apply In_limit_offset, In_orderBy_desc in H.
  - intros -> Hlimit e H.
    rewrite limit_offset_first_page by now rewrite length_orderBy_desc.
    now apply In_orderBy_desc.
Qed.

Lemma search_filter_case_sensitive_witness :
  companyOf Sample.world2 2 = Some 20
  /\ BlacklistFilter.search (searchFilter "Wilson") = Some "Wilson"
  /\ plain "Wilson" = true
  /\ exists es,
       getBlacklistEntries 2 (searchFilter "Wilson") Sample.firstPage
         Sample.world2
       = (Returned (es, 1), Sample.world2)
       /\ (forall e, In e [Sample.bobEntry] -> In e es).
Proof.
  assert (Hc : companyOf Sample.world2 2 = Some 20) by reflexivity.
  assert (Hs : BlacklistFilter.search (searchFilter "Wilson") = Some "Wilson")
    by reflexivity.
  assert (Hp : plain "Wilson" = true) by reflexivity.
  refine (conj Hc (conj Hs (conj Hp _))).
  destruct (search_filter_case_sensitive Sample.world2 2 20
              (searchFilter "Wilson") "Wilson" Sample.firstPage Hc Hs Hp)
    as [es [E [_ Hall]]].
  exists es. split; [exact E|].
  apply Hall; [reflexivity | vm_compute; discriminate].
Defined.

(** The same text in another letter case selects nothing. *)
Example search_other_case :
  fst (getBlacklistEntries 2 (searchFilter "wilson") Sample.firstPage
         Sample.world2)
  = Returned ([], 0)
  /\ matchesSearchIgnoringCase "wilson" Sample.bobEntry = true.
Proof. split; reflexivity. Qed.

(** A search text with [_] is a pattern, not a text to be found: "W_l"
    does not occur in "Wilson" and selects it. *)
Example search_with_wildcard :
  fst (getBlacklistEntries 2 (searchFilter "W_l") Sample.firstPage
         Sample.world2)
  = Returned ([Sample.bobEntry], 1)
  /\ matchesSearch "W_l" Sample.bobEntry = false.
Proof. split; reflexivity. Qed.

Lemma where_search_like (companyId : Z) (search : string)
    (l : list BlacklistEntry.t) :
  search <> EmptyString ->
  Sql.where_ (whereCondition companyId (searchFilter search)) l
  = filter (matchesLike search)
      (filter (fun e => BlacklistEntry.company_id e =? companyId) l).
Proof.
  intros Hne. rewrite <- where_no_filter. unfold Sql.where_.
  induction l as [|e l IH]; [reflexivity|].
  cbn [filter].
  rewrite (whereCondition_search companyId (searchFilter search) search e
             eq_refl).
  change (withoutSearch (searchFilter search)) with BlacklistFilter.none.
  destruct search as [|c rest]; [congruence|].
  destruct (Sql.is_true (whereCondition companyId BlacklistFilter.none e));
    cbn [andb filter]; [|exact IH].
  destruct (matchesLike _ e); now rewrite IH.
Qed.

(** Whatever the search text, the listing counts the entries of the
    caller's company that match the pattern, and never fails on it. *)
Lemma search_filter_like
    (w : World) (userId companyId : Z) (search : string)
    (pagination : Pagination.t) :
  companyOf w userId = Some companyId ->
  search <> EmptyString ->
  exists es,
    getBlacklistEntries userId (searchFilter search) pagination w
    = (Returned
         (es,
          Z.of_nat (List.length
                      (filter (matchesLike search)
                         (entriesOfCompany w companyId)))),
       w).
Proof.
  intros Hc Hne.
  rewrite (getBlacklistEntries_run _ _ _ Hc), (where_search_like _ _ _ Hne).
  eexists. reflexivity.
Qed.

(** ** The primary key is kept *)

Section WithoutCompany.

Variables (sink : ActivitySink) (now : Z) (w : World) (userId : Z).
Hypothesis Hnone : companyOf w userId = None.

(** The world after a handler was stopped by [getUserCompanyId]. *)
Let stopped (label : string) : World :=
  failed (failed w "Failed to get user company ID:"
            (UserCompanyNotFound userId))
    label (UserCompanyNotFound userId).

Lemma createBlacklistEntry_without_company (input : CreateBlacklistEntry.t) :
  createBlacklistEntry sink now userId input w
  = (Thrown (UserCompanyNotFound userId),
     stopped "Blacklist entry creation failed:").
Proof.
  unfold createBlacklistEntry, logged, try_catch, bind.
  now rewrite (getUserCompanyId_missing _ _ Hnone).
Qed.

Lemma getBlacklistEntries_without_company
    (filters : BlacklistFilter.t) (pagination : Pagination.t) :
  getBlacklistEntries userId filters pagination w
  = (Thrown (UserCompanyNotFound userId),
     stopped "Failed to get blacklist entries:").
Proof.
  unfold getBlacklistEntries, logged, try_catch, bind.
  now rewrite (getUserCompanyId_missing _ _ Hnone).
Qed.

Lemma getBlacklistEntry_without_company (entryId : Z) :
  getBlacklistEntry userId entryId w
  = (Thrown (UserCompanyNotFound userId),
     stopped "Failed to get blacklist entry:").
Proof.
  unfold getBlacklistEntry, logged, try_catch, bind.
  now rewrite (getUserCompanyId_missing _ _ Hnone).
Qed.

Lemma updateBlacklistEntry_without_company (input : UpdateBlacklistEntry.t) :
  updateBlacklistEntry sink now userId input w
  = (Thrown (UserCompanyNotFound userId),
     stopped "Failed to update blacklist entry:").
Proof.
  unfold updateBlacklistEntry, logged, try_catch, bind.
  now rewrite (getUserCompanyId_missing _ _ Hnone).
Qed.

Lemma deleteBlacklistEntry_without_company (entryId : Z) :
  deleteBlacklistEntry sink now userId entryId w
  = (Thrown (UserCompanyNotFound userId),
     stopped "Failed to delete blacklist entry:").
Proof.
  unfold deleteBlacklistEntry, logged, try_catch, bind.
  now rewrite (getUserCompanyId_missing _ _ Hnone).
Qed.

Lemma toggleBlacklistStatus_without_company
    (entryId : Z) (isBlacklisted : bool) :
  toggleBlacklistStatus sink now userId entryId isBlacklisted w
  = (Thrown (UserCompanyNotFound userId),
     stopped "Failed to toggle blacklist status:").
Proof.
  unfold toggleBlacklistStatus, logged, try_catch, bind.
  now rewrite (getUserCompanyId_missing _ _ Hnone).
Qed.

End WithoutCompany.

Lemma wellFormed_same_table (w w' : World) :
  blacklistEntriesTable (db w') = blacklistEntriesTable (db w) ->
  wellFormed w -> wellFormed w'.
Proof.
  unfold wellFormed, primaryKey, entries. now intros ->.
Qed.

Lemma wellFormed_afterLog (sink : ActivitySink) (now : Z)
    (v : ActivityLogValues.t) (w : World) :
  wellFormed w -> wellFormed (afterLog sink now v w).
Proof. apply wellFormed_same_table, afterLog_entries. Qed.

Lemma ids_update_where (c : @Sql.cond BlacklistEntry.t) (data : UpdateData.t)
    (l : list BlacklistEntry.t) :
  map BlacklistEntry.id (Sql.update_where c (UpdateData.apply data) l)
  = map BlacklistEntry.id l.
Proof.
  unfold Sql.update_where. rewrite map_map. apply map_ext.
  intros r. now destruct (Sql.is_true (c r)).
Qed.

Lemma wellFormed_update (w : World) (c : @Sql.cond BlacklistEntry.t)
    (data : UpdateData.t) :
  wellFormed w ->
  wellFormed
    (withEntries w (Sql.update_where c (UpdateData.apply data) (entries w))
       (next_id (blacklistEntriesTable (db w)))).
Proof.
  intros [Hpk Hlt]. split.
  - unfold primaryKey, entries. cbn. fold (entries w).
    now rewrite ids_update_where.
  - unfold entries at 1. cbn. fold (entries w). intros e He.
    apply (in_map BlacklistEntry.id) in He. rewrite ids_update_where in He.
    apply in_map_iff in He. destruct He as [r [<- Hr]]. now apply Hlt.
Qed.

Lemma NoDup_ids_filter (f : BlacklistEntry.t -> bool)
    (l : list BlacklistEntry.t) :
  NoDup (map BlacklistEntry.id l) ->
  NoDup (map BlacklistEntry.id (filter f l)).
Proof.
  induction l as [|x l IH]; simpl; [trivial|].
  intros H. inversion H as [|? ? Hx Hl]; subst.
  destruct (f x); simpl; [|now apply IH].
  constructor; [|now apply IH].
  intros Hin. apply Hx. apply in_map_iff in Hin.
  destruct Hin as [r [E Hr]]. apply filter_In in Hr.
  rewrite <- E. apply in_map. tauto.
Qed.

Lemma wellFormed_delete (w : World) (c : @Sql.cond BlacklistEntry.t) :
  wellFormed w ->
  wellFormed
    (withEntries w (Sql.delete_where c (entries w))
       (next_id (blacklistEntriesTable (db w)))).
Proof.
  intros [Hpk Hlt]. split.
  - unfold primaryKey, entries. cbn. fold (entries w).
    now apply NoDup_ids_filter.
  - unfold entries at 1. cbn. fold (entries w). intros e He.
    apply filter_In in He. now apply Hlt.
Qed.

Lemma wellFormed_insert (w : World) (e : BlacklistEntry.t) :
  BlacklistEntry.id e = next_id (blacklistEntriesTable (db w)) ->
  wellFormed w ->
  wellFormed
    (withEntries w (entries w ++ [e])
       (next_id (blacklistEntriesTable (db w)) + 1)).
Proof.
  intros Hid [Hpk Hlt]. split.
  - unfold primaryKey, entries. cbn. fold (entries w). rewrite map_app.
    apply NoDup_app; [exact Hpk | repeat constructor; simpl; tauto |].
    intros i Hi [<-|[]]. apply in_map_iff in Hi.
    destruct Hi as [r [E Hr]]. specialize (Hlt r Hr). lia.
  - unfold entries at 1. cbn. fold (entries w). intros x Hx.
    apply in_app_or in Hx. destruct Hx as [Hx|[<-|[]]].
    + specialize (Hlt x Hx). lia.
    + lia.
Qed.

(** Every handler that writes keeps the table well formed, so the primary
    key holds in every world reached from an empty table. *)
Lemma handlers_keep_wellFormed
    (sink : ActivitySink) (now : Z) (w : World) (userId : Z) :
  wellFormed w ->
  (forall input,
      wellFormed (snd (createBlacklistEntry sink now userId input w)))
  /\ (forall input,
      wellFormed (snd (updateBlacklistEntry sink now userId input w)))
  /\ (forall entryId,
      wellFormed (snd (deleteBlacklistEntry sink now userId entryId w)))
  /\ (forall entryId isBlacklisted,
      wellFormed
        (snd (toggleBlacklistStatus sink now userId entryId isBlacklisted w))).
Proof.
  intros Hwf. destruct (companyOf w userId) as [companyId|] eqn:Hc.
  - split; [|split; [|split]].
    + intros input. rewrite (createBlacklistEntry_run _ _ _ _ _ Hc).
      cbn [snd]. apply wellFormed_afterLog.
      now apply wellFormed_insert.
    + intros input.
      destruct (Sql.where_ (entryOfCompany (UpdateBlacklistEntry.id input)
                              companyId) (entries w)) as [|e l] eqn:Hf.
      * now rewrite (updateBlacklistEntry_denied _ _ _ _ _ _ Hc Hf _ eq_refl).
      * rewrite (updateBlacklistEntry_run _ _ _ _ _ Hc _ _ _ Hf _ eq_refl).
        cbn [snd]. now apply wellFormed_afterLog, wellFormed_update.
    + intros entryId.
      destruct (Sql.where_ (entryOfCompany entryId companyId) (entries w))
        as [|e l] eqn:Hf.
      * now rewrite (deleteBlacklistEntry_denied _ _ _ _ _ _ Hc Hf).
      * rewrite (deleteBlacklistEntry_run _ _ _ _ _ Hc _ _ _ Hf).
        cbn [snd]. now apply wellFormed_afterLog, wellFormed_delete.
    + intros entryId isBlacklisted.
      destruct (Sql.where_ (entryOfCompany entryId companyId) (entries w))
        as [|e l] eqn:Hf.
      * now rewrite (toggleBlacklistStatus_denied _ _ _ _ _ _ Hc Hf).
      * rewrite (toggleBlacklistStatus_run _ _ _ _ _ Hc _ _ _ Hf).
        cbn [snd]. now apply wellFormed_afterLog, wellFormed_update.
  - split; [|split; [|split]]; intros.
    + now rewrite (createBlacklistEntry_without_company _ _ _ _ Hc).
    + now rewrite (updateBlacklistEntry_without_company _ _ _ _ Hc).
    + now rewrite (deleteBlacklistEntry_without_company _ _ _ _ Hc).
    + now rewrite (toggleBlacklistStatus_without_company _ _ _ _ Hc).
Qed.

Lemma wellFormed_empty : wellFormed Sample.world0.
Proof. split; [constructor | intros e []]. Qed.

(** * Further properties of the handlers *)

(** ** The score, on every reason *)

Lemma toLowerCase_app (a b : string) :
  Js.toLowerCase (a ++ b) = Js.toLowerCase a ++ Js.toLowerCase b.
Proof.
  induction a as [|c a IH]; simpl; [reflexivity | now rewrite IH].
Qed.

Lemma toLowerCaseChar_idempotent (c : ascii) :
  Js.toLowerCaseChar (Js.toLowerCaseChar c) = Js.toLowerCaseChar c.
Proof. destruct c as [[] [] [] [] [] [] [] []]; reflexivity. Qed.

Lemma toLowerCase_idempotent (s : string) :
  Js.toLowerCase (Js.toLowerCase s) = Js.toLowerCase s.
Proof.
  induction s as [|c s IH]; simpl; [reflexivity|].
  now rewrite toLowerCaseChar_idempotent, IH.
Qed.

Lemma mentions_occurrence (keywords : list string)
    (keyword word pre post : string) :
  In keyword keywords ->
  Js.toLowerCase word = keyword ->
  mentions keywords (pre ++ word ++ post) = true.
Proof.
  intros Hin Hw. unfold mentions. apply existsb_exists.
  exists keyword. split; [exact Hin|].
  apply includes_iff. rewrite !toLowerCase_app, Hw.
  now exists (Js.toLowerCase pre), (Js.toLowerCase post).
Qed.

(** X1. Whatever the reason and the evidence, the score is between 50
    and 100. *)
Theorem score_between_50_and_100
    (reason : string) (hasDocuments hasFaceImage : bool) :
  50 <= calculateBlacklistScore reason hasDocuments hasFaceImage <= 100.
Proof.
  rewrite calculateBlacklistScore_unfold.
  destruct (existsb _ highRiskKeywords);
    [|destruct (existsb _ mediumRiskKeywords)];
    destruct hasDocuments, hasFaceImage; cbn; lia.
Qed.

(** X2. A high-risk keyword anywhere in the reason, in any letter case,
    gives 80 plus the evidence additions, capped at 100 -- so at least
    80 -- whether or not a medium-risk keyword is there as well. *)
Theorem high_risk_keyword_anywhere
    (keyword word pre post : string) (hasDocuments hasFaceImage : bool) :
  In keyword highRiskKeywords ->
  Js.toLowerCase word = keyword ->
  calculateBlacklistScore (pre ++ word ++ post) hasDocuments hasFaceImage
  = Z.min 100
      (80 + (if hasDocuments then 10 else 0)
       + (if hasFaceImage then 10 else 0))
  /\ 80 <= calculateBlacklistScore (pre ++ word ++ post)
             hasDocuments hasFaceImage.
Proof.
  intros Hin Hw.
  rewrite (score_of_high_risk _ _ _ (mentions_occurrence _ _ _ _ _ Hin Hw)).
  split; [reflexivity|]. destruct hasDocuments, hasFaceImage; cbn; lia.
Qed.

Lemma high_risk_keyword_anywhere_witness :
  In "theft" highRiskKeywords
  /\ Js.toLowerCase "THEFT" = "theft"
  /\ calculateBlacklistScore
       ("Unpaid rent, then " ++ "THEFT" ++ " of the furniture") true false
     = 90.
Proof.
  assert (Hin : In "theft" highRiskKeywords) by (right; left; reflexivity).
  assert (Hw : Js.toLowerCase "THEFT" = "theft") by reflexivity.
  refine (conj Hin (conj Hw _)).
  exact (proj1 (high_risk_keyword_anywhere "theft" "THEFT"
                  "Unpaid rent, then " " of the furniture" true false Hin Hw)).
Defined.

(** X3. More evidence never lowers the score: for a fixed reason the
    score is monotone in each of the two flags. *)
Theorem score_monotone_in_evidence
    (reason : string) (d d' f f' : bool) :
  Bool.le d d' -> Bool.le f f' ->
  calculateBlacklistScore reason d f <= calculateBlacklistScore reason d' f'.
Proof.
  intros Hd Hf. rewrite !calculateBlacklistScore_unfold.
  destruct (existsb _ highRiskKeywords);
    [|destruct (existsb _ mediumRiskKeywords)];
    destruct d, d', f, f'; cbn in *; try lia; contradiction.
Qed.

Lemma score_monotone_in_evidence_witness :
  Bool.le false true /\ Bool.le false false
  /\ calculateBlacklistScore "Contract dispute" false false
     <= calculateBlacklistScore "Contract dispute" true false.
Proof.
  assert (Hd : Bool.le false true) by exact I.
  assert (Hf : Bool.le false false) by exact I.
  refine (conj Hd (conj Hf _)).
  exact (score_monotone_in_evidence "Contract dispute" false true false false
           Hd Hf).
Defined.

(** X4. The score does not see letter case: a reason and its lowercase
    form score the same, and so do any two reasons that differ in letter
    case only. *)
Theorem score_ignores_letter_case
    (reason reason' : string) (hasDocuments hasFaceImage : bool) :
  Js.toLowerCase reason = Js.toLowerCase reason' ->
  calculateBlacklistScore reason hasDocuments hasFaceImage
  = calculateBlacklistScore reason' hasDocuments hasFaceImage
  /\ calculateBlacklistScore (Js.toLowerCase reason) hasDocuments hasFaceImage
     = calculateBlacklistScore reason hasDocuments hasFaceImage.
Proof.
  intros H. rewrite !calculateBlacklistScore_unfold.
  now rewrite toLowerCase_idempotent, H.
Qed.

Lemma score_ignores_letter_case_witness :
  Js.toLowerCase "Identity FRAUD" = Js.toLowerCase "identity Fraud"
  /\ calculateBlacklistScore "Identity FRAUD" false true
     = calculateBlacklistScore "identity Fraud" false true.
Proof.
  assert (H : Js.toLowerCase "Identity FRAUD" = Js.toLowerCase "identity Fraud")
    by reflexivity.
  refine (conj H _).
  exact (proj1 (score_ignores_letter_case "Identity FRAUD" "identity Fraud"
                  false true H)).
Defined.

(** ** Worlds after a successful write *)

Lemma companyOf_same_companies (w w' : World) (userId : Z) :
  companiesTable (db w') = companiesTable (db w) ->
  companyOf w' userId = companyOf w userId.
Proof. unfold companyOf. now intros ->. Qed.

Lemma companyOf_afterLog (sink : ActivitySink) (now : Z)
    (v : ActivityLogValues.t) (w : World) (rows' : list BlacklistEntry.t)
    (next userId : Z) :
  companyOf (afterLog sink now v (withEntries w rows' next)) userId
  = companyOf w userId.
Proof.
  apply companyOf_same_companies.
  now rewrite (proj1 (proj2 (afterLog_entries _ _ _ _))).
Qed.

Lemma entries_settled (sink : ActivitySink) (now : Z)
    (v : ActivityLogValues.t) (w : World) (rows' : list BlacklistEntry.t)
    (next : Z) :
  entries (afterLog sink now v (withEntries w rows' next)) = rows'.
Proof. now rewrite entries_afterLog. Qed.

Lemma own_entry_condition (l : list BlacklistEntry.t)
    (e x : BlacklistEntry.t) :
  NoDup (map BlacklistEntry.id l) -> In e l -> In x l ->
  Sql.is_true
    (entryOfCompany (BlacklistEntry.id e) (BlacklistEntry.company_id e) x)
  = (BlacklistEntry.id x =? BlacklistEntry.id e).
Proof.
  intros Hnd He Hx.
  destruct (Z.eqb_spec (BlacklistEntry.id x) (BlacklistEntry.id e)) as [E|E].
  - assert (x = e) as -> by (apply (primaryKey_inj l); auto).
    now apply entryOfCompany_true.
  - destruct (Sql.is_true _) eqn:T; [|reflexivity].
    apply entryOfCompany_true in T. tauto.
Qed.

Lemma ids_replaceById (r : BlacklistEntry.t) (l : list BlacklistEntry.t) :
  map BlacklistEntry.id (replaceById r l) = map BlacklistEntry.id l.
Proof.
  unfold replaceById. rewrite map_map. apply map_ext. intros x.
  destruct (Z.eqb_spec (BlacklistEntry.id x) (BlacklistEntry.id r));
    congruence.
Qed.

Lemma In_replaceById (r e : BlacklistEntry.t) (l : list BlacklistEntry.t) :
  In e l -> BlacklistEntry.id e = BlacklistEntry.id r ->
  In r (replaceById r l).
Proof.
  intros Hin Hid. unfold replaceById. apply in_map_iff. exists e.
  split; [|exact Hin]. now rewrite Hid, Z.eqb_refl.
Qed.

(** ** Creating and reading back *)

(** X5. For a caller with a company, creation returns and appends one
    row: it has the next id of the sequence, the caller as user, the
    caller's company, the submitted fields, both timestamps at the time
    of the call, and a score that is the score of its own reason and
    evidence.  The rows already there are kept as they are. *)
Theorem create_appends_entry
    (sink : ActivitySink) (now : Z) (w : World)
    (userId companyId : Z) (input : CreateBlacklistEntry.t) :
  companyOf w userId = Some companyId ->
  let (outcome, w') := createBlacklistEntry sink now userId input w in
  exists entry,
    outcome = Returned entry
    /\ entries w' = (entries w ++ [entry])%list
    /\ next_id (blacklistEntriesTable (db w'))
       = next_id (blacklistEntriesTable (db w)) + 1
    /\ BlacklistEntry.id entry = next_id (blacklistEntriesTable (db w))
    /\ BlacklistEntry.user_id entry = userId
    /\ BlacklistEntry.company_id entry = companyId
    /\ BlacklistEntry.blacklist_score entry = scoreOf entry
    /\ BlacklistEntry.created_at entry = now
    /\ BlacklistEntry.updated_at entry = now
    /\ BlacklistEntry.first_name entry = CreateBlacklistEntry.first_name input
    /\ BlacklistEntry.last_name entry = CreateBlacklistEntry.last_name input
    /\ BlacklistEntry.id_number entry = CreateBlacklistEntry.id_number input
    /\ BlacklistEntry.phone entry = CreateBlacklistEntry.phone input
    /\ BlacklistEntry.email entry = CreateBlacklistEntry.email input
    /\ BlacklistEntry.face_image_url entry
       = CreateBlacklistEntry.face_image_url input
    /\ BlacklistEntry.id_document_urls entry
       = CreateBlacklistEntry.id_document_urls input
    /\ BlacklistEntry.reason entry = CreateBlacklistEntry.reason input.
Proof.
  intros Hc. rewrite (createBlacklistEntry_run sink now w userId _ Hc input).
  eexists. split; [reflexivity|]. split; [apply entries_settled|].
  split.
  { now rewrite (proj1 (afterLog_entries _ _ _ _)). }
  repeat split.
Qed.

Lemma create_appends_entry_witness :
  companyOf Sample.world0 1 = Some 10
  /\ let (outcome, w') :=
       createBlacklistEntry insertActivityLog 1000 1 Sample.janeDoe
         Sample.world0 in
     exists entry,
       outcome = Returned entry
       /\ entries w' = (entries Sample.world0 ++ [entry])%list
       /\ BlacklistEntry.company_id entry = 10
       /\ BlacklistEntry.blacklist_score entry = scoreOf entry.
Proof.
  assert (Hc : companyOf Sample.world0 1 = Some 10) by reflexivity.
  split; [exact Hc|].
  generalize (create_appends_entry insertActivityLog 1000 Sample.world0 1 10
                Sample.janeDoe Hc).
  destruct (createBlacklistEntry insertActivityLog 1000 1 Sample.janeDoe
              Sample.world0) as [outcome w'].
  intros [entry [Ho [He [_ [_ [_ [Hco [Hs _]]]]]]]].
  exists entry. exact (conj Ho (conj He (conj Hco Hs))).
Defined.

(** X6. In a well-formed table, what creation returns can be read back:
    right after, the caller gets the same entry by its id. *)
Theorem create_then_get
    (sink : ActivitySink) (now : Z) (w : World)
    (userId companyId : Z) (input : CreateBlacklistEntry.t) :
  wellFormed w ->
  companyOf w userId = Some companyId ->
  let (outcome, w') := createBlacklistEntry sink now userId input w in
  exists entry,
    outcome = Returned entry
    /\ getBlacklistEntry userId (BlacklistEntry.id entry) w'
       = (Returned (Some entry), w').
Proof.
  intros Hwf Hc.
  rewrite (createBlacklistEntry_run sink now w userId _ Hc input).
  set (entry := BlacklistEntry.mk _ _ _ _ _ _ _ _ _ _ _ _ _ _ _ _).
  exists entry. split; [reflexivity|].
  set (w' := afterLog _ _ _ _).
  assert (Hc' : companyOf w' userId = Some companyId)
    by (unfold w'; now rewrite companyOf_afterLog).
  rewrite (getBlacklistEntry_run _ _ _ _ Hc').
  unfold w'. rewrite entries_settled.
  destruct (wellFormed_insert w entry eq_refl Hwf) as [Hpk _].
  unfold primaryKey in Hpk. cbn in Hpk. fold (entries w) in Hpk.
  change companyId with (BlacklistEntry.company_id entry).
  rewrite (own_entry_selected _ entry Hpk); [reflexivity|].
  apply in_or_app. right. now left.
Qed.

Lemma create_then_get_witness :
  wellFormed Sample.world0
  /\ companyOf Sample.world0 1 = Some 10
  /\ let (outcome, w') :=
       createBlacklistEntry insertActivityLog 1000 1 Sample.janeDoe
         Sample.world0 in
     exists entry,
       outcome = Returned entry
       /\ getBlacklistEntry 1 (BlacklistEntry.id entry) w'
          = (Returned (Some entry), w').
Proof.
  assert (Hc : companyOf Sample.world0 1 = Some 10) by reflexivity.
  refine (conj wellFormed_empty (conj Hc _)).
  exact (create_then_get insertActivityLog 1000 Sample.world0 1 10
           Sample.janeDoe wellFormed_empty Hc).
Defined.

(** ** A caller without a company *)

(** X7. A user who owns no company can do nothing: each of the six
    handlers throws the company-not-found error for that user and leaves
    the database as it was. *)
Theorem without_company_nothing_happens
    (sink : ActivitySink) (now : Z) (w : World) (userId : Z) :
  companyOf w userId = None ->
  let stopped (A : Type) (run : Outcome A * World) : Prop :=
    fst run = Thrown (UserCompanyNotFound userId) /\ db (snd run) = db w in
  (forall input,
      stopped _ (createBlacklistEntry sink now userId input w))
  /\ (forall filters pagination,
      stopped _ (getBlacklistEntries userId filters pagination w))
  /\ (forall entryId, stopped _ (getBlacklistEntry userId entryId w))
  /\ (forall input,
      stopped _ (updateBlacklistEntry sink now userId input w))
  /\ (forall entryId,
      stopped _ (deleteBlacklistEntry sink now userId entryId w))
  /\ (forall entryId isBlacklisted,
      stopped _ (toggleBlacklistStatus sink now userId entryId
                   isBlacklisted w)).
Proof.
  intros Hc stopped. unfold stopped.
  repeat split; intros.
  all: first
    [ rewrite (createBlacklistEntry_without_company _ _ _ _ Hc)
    | rewrite (getBlacklistEntries_without_company _ _ Hc)
    | rewrite (getBlacklistEntry_without_company _ _ Hc)
    | rewrite (updateBlacklistEntry_without_company _ _ _ _ Hc)
    | rewrite (deleteBlacklistEntry_without_company _ _ _ _ Hc)
    | rewrite (toggleBlacklistStatus_without_company _ _ _ _ Hc) ];
    reflexivity.
Qed.

Lemma without_company_nothing_happens_witness :
  companyOf Sample.world2 999 = None
  /\ fst (createBlacklistEntry insertActivityLog 3000 999 Sample.janeDoe
            Sample.world2)
     = Thrown (UserCompanyNotFound 999)
  /\ db (snd (deleteBlacklistEntry insertActivityLog 3000 999 1
                Sample.world2))
     = db Sample.world2.
Proof.
  assert (Hc : companyOf Sample.world2 999 = None) by reflexivity.
  refine (conj Hc _).
  destruct (without_company_nothing_happens insertActivityLog 3000
              Sample.world2 999 Hc) as [Hcreate [_ [_ [_ [Hdelete _]]]]].
  split; [exact (proj1 (Hcreate Sample.janeDoe)) | exact (proj2 (Hdelete 1))].
Defined.

(** ** Reading one entry *)

(** X8. With ids as primary key, reading by id gives an entry exactly
    when that entry is in the table under that id and belongs to the
    caller's company; the world is not touched. *)
Theorem get_returns_own_entry_only
    (w : World) (userId companyId entryId : Z) (e : BlacklistEntry.t) :
  primaryKey w ->
  companyOf w userId = Some companyId ->
  getBlacklistEntry userId entryId w = (Returned (Some e), w)
  <-> In e (entries w)
      /\ BlacklistEntry.id e = entryId
      /\ BlacklistEntry.company_id e = companyId.
Proof.
  intros Hpk Hc. rewrite (getBlacklistEntry_run _ _ _ _ Hc). split.
  - intros H. injection H as H.
    destruct (Sql.where_ _ _) as [|x l] eqn:Hf; [discriminate|].
    injection H as ->.
    assert (Hin : In e (Sql.where_ (entryOfCompany entryId companyId)
                          (entries w))) by (rewrite Hf; now left).
    apply In_where in Hin. destruct Hin as [Hin T].
    apply entryOfCompany_true in T. tauto.
  - intros [Hin [<- <-]]. now rewrite (own_entry_selected _ _ Hpk Hin).
Qed.

Lemma get_returns_own_entry_only_witness :
  primaryKey Sample.world2
  /\ companyOf Sample.world2 2 = Some 20
  /\ getBlacklistEntry 2 2 Sample.world2
     = (Returned (Some Sample.bobEntry), Sample.world2).
Proof.
  assert (Hc : companyOf Sample.world2 2 = Some 20) by reflexivity.
  refine (conj sample_primaryKey (conj Hc _)).
  apply (get_returns_own_entry_only Sample.world2 2 20 2 Sample.bobEntry
           sample_primaryKey Hc).
  split; [rewrite sample_entries; right; now left | split; reflexivity].
Defined.

(** ** Updating, and reading back *)

Section OwnEntry.

Variables (sink : ActivitySink) (now : Z).
Variables (w : World) (userId : Z) (e : BlacklistEntry.t).
Hypothesis Hpk : primaryKey w.
Hypothesis Hcompany : companyOf w userId = Some (BlacklistEntry.company_id e).
Hypothesis Hin : In e (entries w).

(** The world after a write that replaces the caller's entry [e] by [r]
    can be read back. *)
Lemma replaced_entry_read_back (v : ActivityLogValues.t)
    (r : BlacklistEntry.t) (next : Z) :
  BlacklistEntry.id r = BlacklistEntry.id e ->
  BlacklistEntry.company_id r = BlacklistEntry.company_id e ->
  let w' := afterLog sink now v (withEntries w (replaceById r (entries w)) next) in
  getBlacklistEntry userId (BlacklistEntry.id e) w' = (Returned (Some r), w').
Proof.
  intros Hid Hco w'.
  assert (Hc' : companyOf w' userId = Some (BlacklistEntry.company_id e))
    by (unfold w'; now rewrite companyOf_afterLog).
  rewrite (getBlacklistEntry_run _ _ _ _ Hc').
  unfold w'. rewrite entries_settled. rewrite <- Hid, <- Hco.
  rewrite own_entry_selected; [reflexivity | | ].
  - rewrite ids_replaceById. exact Hpk.
  - now apply (In_replaceById r e).
Qed.

Lemma updateBlacklistEntry_own (input : UpdateBlacklistEntry.t) :
  UpdateBlacklistEntry.id input = BlacklistEntry.id e ->
  let r := UpdateData.apply (prepareUpdateData now input e) e in
  updateBlacklistEntry sink now userId input w
  = (Returned r,
     afterLog sink now
       (activity userId "updated" (BlacklistEntry.id e)
          ("Updated blacklist entry for "
           ++ BlacklistEntry.first_name r ++ " "
           ++ BlacklistEntry.last_name r))
       (withEntries w (replaceById r (entries w))
          (next_id (blacklistEntriesTable (db w))))).
Proof.
  intros Hid r.
  rewrite (updateBlacklistEntry_run sink now w userId _ Hcompany _ e []
             (own_entry_selected _ _ Hpk Hin) input Hid).
  cbv zeta. now rewrite (update_own_entry _ _ _ Hpk Hin).
Qed.

Lemma toggleBlacklistStatus_own (isBlacklisted : bool) :
  let r := UpdateData.apply (toggleData now isBlacklisted) e in
  toggleBlacklistStatus sink now userId (BlacklistEntry.id e) isBlacklisted w
  = (Returned r,
     afterLog sink now
       (activity userId
          (if isBlacklisted then "blacklisted" else "unblacklisted")
          (BlacklistEntry.id e)
          ((if isBlacklisted then "Blacklisted" else "Unblacklisted")
           ++ " " ++ BlacklistEntry.first_name r ++ " "
           ++ BlacklistEntry.last_name r))
       (withEntries w (replaceById r (entries w))
          (next_id (blacklistEntriesTable (db w))))).
Proof.
  intros r.
  rewrite (toggleBlacklistStatus_run sink now w userId _ Hcompany _ e []
             (own_entry_selected _ _ Hpk Hin) isBlacklisted).
  cbv zeta. now rewrite (update_own_entry _ _ _ Hpk Hin).
Qed.

End OwnEntry.

(** X9. An update of an entry of the caller's company returns the entry
    with the time of the call in [updated_at] and puts it in place of
    the old row, all other rows untouched.  Whatever the patch, the
    entry keeps its id, its user, its company and its time of creation;
    a patch without reason, documents and face image also keeps the
    score.  The caller reads the updated entry back by its id. *)
Theorem update_own_entry_result
    (sink : ActivitySink) (now : Z) (w : World) (userId : Z)
    (e : BlacklistEntry.t) (input : UpdateBlacklistEntry.t) :
  primaryKey w ->
  companyOf w userId = Some (BlacklistEntry.company_id e) ->
  In e (entries w) ->
  UpdateBlacklistEntry.id input = BlacklistEntry.id e ->
  let (outcome, w') := updateBlacklistEntry sink now userId input w in
  exists r,
    outcome = Returned r
    /\ entries w' = replaceById r (entries w)
    /\ BlacklistEntry.id r = BlacklistEntry.id e
    /\ BlacklistEntry.user_id r = BlacklistEntry.user_id e
    /\ BlacklistEntry.company_id r = BlacklistEntry.company_id e
    /\ BlacklistEntry.created_at r = BlacklistEntry.created_at e
    /\ BlacklistEntry.updated_at r = now
    /\ (keepsScoreInputs input ->
        BlacklistEntry.blacklist_score r = BlacklistEntry.blacklist_score e
        /\ BlacklistEntry.reason r = BlacklistEntry.reason e
        /\ BlacklistEntry.id_document_urls r
           = BlacklistEntry.id_document_urls e
        /\ BlacklistEntry.face_image_url r = BlacklistEntry.face_image_url e)
    /\ getBlacklistEntry userId (BlacklistEntry.id e) w'
       = (Returned (Some r), w').
Proof.
  intros Hpk Hc Hin Hid.
  rewrite (updateBlacklistEntry_own sink now w userId e Hpk Hc Hin input Hid).
  eexists. split; [reflexivity|]. split; [apply entries_settled|].
  do 5 (split; [reflexivity|]). split.
  - intros [Hr [Hd Hf]]. unfold prepareUpdateData, recalculatedScore.
    rewrite Hr, Hd, Hf. now repeat split.
  - now apply replaced_entry_read_back.
Qed.

Lemma update_own_entry_result_witness :
  primaryKey Sample.world2
  /\ companyOf Sample.world2 2
     = Some (BlacklistEntry.company_id Sample.bobEntry)
  /\ In Sample.bobEntry (entries Sample.world2)
  /\ let (outcome, w') :=
       updateBlacklistEntry insertActivityLog 3000 2
         (UpdateBlacklistEntry.mk 2 (Some "Robert") None None None None None
            None None None None)
         Sample.world2 in
     exists r,
       outcome = Returned r
       /\ BlacklistEntry.company_id r = 20
       /\ getBlacklistEntry 2 2 w' = (Returned (Some r), w').
Proof.
  assert (Hc : companyOf Sample.world2 2
               = Some (BlacklistEntry.company_id Sample.bobEntry))
    by reflexivity.
  assert (Hin : In Sample.bobEntry (entries Sample.world2))
    by (rewrite sample_entries; right; now left).
  split; [exact sample_primaryKey|]. split; [exact Hc|]. split; [exact Hin|].
  generalize (update_own_entry_result insertActivityLog 3000 Sample.world2 2
                Sample.bobEntry
                (UpdateBlacklistEntry.mk 2 (Some "Robert") None None None None
                   None None None None None)
                sample_primaryKey Hc Hin eq_refl).
  destruct (updateBlacklistEntry _ _ _ _ _) as [outcome w'].
  intros [r [Ho [_ [_ [_ [Hco [_ [_ [_ Hget]]]]]]]]].
  exists r. exact (conj Ho (conj Hco Hget)).
Defined.

(** X10. When the patch gives a reason, documents or a face image, and
    does not set the face image to [null], the entry an update returns
    and stores carries the score of its own reason and evidence. *)
Theorem update_rescores_entry
    (sink : ActivitySink) (now : Z) (w : World) (userId : Z)
    (e : BlacklistEntry.t) (input : UpdateBlacklistEntry.t) :
  primaryKey w ->
  companyOf w userId = Some (BlacklistEntry.company_id e) ->
  In e (entries w) ->
  UpdateBlacklistEntry.id input = BlacklistEntry.id e ->
  ~ keepsScoreInputs input ->
  UpdateBlacklistEntry.face_image_url input <> Some None ->
  let (outcome, w') := updateBlacklistEntry sink now userId input w in
  exists r,
    outcome = Returned r
    /\ In r (entries w')
    /\ BlacklistEntry.blacklist_score r = scoreOf r.
Proof.
  intros Hpk Hc Hin Hid Hchg Hface.
  rewrite (updateBlacklistEntry_own sink now w userId e Hpk Hc Hin input Hid).
  eexists. split; [reflexivity|]. split.
  - rewrite entries_settled. now apply (In_replaceById _ e).
  - apply update_rescored_from_patched_entry; [|exact Hface].
    unfold keepsScoreInputs in Hchg.
    destruct (UpdateBlacklistEntry.reason input),
             (UpdateBlacklistEntry.id_document_urls input),
             (UpdateBlacklistEntry.face_image_url input);
      try reflexivity.
    exfalso. now apply Hchg.
Qed.

Lemma update_rescores_entry_witness :
  primaryKey Sample.world2
  /\ companyOf Sample.world2 1
     = Some (BlacklistEntry.company_id Sample.janeEntry)
  /\ In Sample.janeEntry (entries Sample.world2)
  /\ let (outcome, w') :=
       updateBlacklistEntry insertActivityLog 3000 1
         (UpdateBlacklistEntry.mk 1 None None None None None None None
            (Some "Minor contract dispute") None None)
         Sample.world2 in
     exists r,
       outcome = Returned r
       /\ In r (entries w')
       /\ BlacklistEntry.blacklist_score r = scoreOf r.
Proof.
  assert (Hc : companyOf Sample.world2 1
               = Some (BlacklistEntry.company_id Sample.janeEntry))
    by reflexivity.
  assert (Hin : In Sample.janeEntry (entries Sample.world2))
    by (rewrite sample_entries; now left).
  refine (conj sample_primaryKey (conj Hc (conj Hin _))).
  apply (update_rescores_entry insertActivityLog 3000 Sample.world2 1
           Sample.janeEntry
           (UpdateBlacklistEntry.mk 1 None None None None None None None
              (Some "Minor contract dispute") None None)
           sample_primaryKey Hc Hin eq_refl).
  - intros [H _]. discriminate H.
  - discriminate.
Defined.

(** ** Deleting *)

Lemma delete_own_rows (l : list BlacklistEntry.t) (e : BlacklistEntry.t) :
  NoDup (map BlacklistEntry.id l) -> In e l ->
  Sql.delete_where
    (entryOfCompany (BlacklistEntry.id e) (BlacklistEntry.company_id e)) l
  = filter (fun x => negb (BlacklistEntry.id x =? BlacklistEntry.id e)) l.
Proof.
  intros Hnd Hin. unfold Sql.delete_where. apply filter_ext_in.
  intros x Hx. now rewrite (own_entry_condition l e x).
Qed.

(** X11. Deleting an entry of the caller's company succeeds and removes
    exactly the row with that id.  From then on the id is gone: reading
    it gives [null] and deleting it again fails with the
    not-found-or-access-denied error. *)
Theorem delete_own_entry
    (sink : ActivitySink) (now : Z) (w : World) (userId : Z)
    (e : BlacklistEntry.t) :
  primaryKey w ->
  companyOf w userId = Some (BlacklistEntry.company_id e) ->
  In e (entries w) ->
  let (outcome, w') :=
    deleteBlacklistEntry sink now userId (BlacklistEntry.id e) w in
  outcome = Returned true
  /\ entries w'
     = filter (fun x => negb (BlacklistEntry.id x =? BlacklistEntry.id e))
         (entries w)
  /\ getBlacklistEntry userId (BlacklistEntry.id e) w' = (Returned None, w')
  /\ fst (deleteBlacklistEntry sink now userId (BlacklistEntry.id e) w')
     = Thrown NotFoundOrAccessDenied.
Proof.
  intros Hpk Hc Hin.
  rewrite (deleteBlacklistEntry_run sink now w userId _ Hc _ e []
             (own_entry_selected _ _ Hpk Hin)).
  rewrite (delete_own_rows _ _ Hpk Hin).
  set (w' := afterLog _ _ _ _).
  assert (He : entries w'
               = filter (fun x => negb (BlacklistEntry.id x
                                        =? BlacklistEntry.id e))
                   (entries w))
    by (unfold w'; apply entries_settled).
  assert (Hc' : companyOf w' userId = Some (BlacklistEntry.company_id e))
    by (unfold w'; now rewrite companyOf_afterLog).
  assert (Hnone : Sql.where_
                    (entryOfCompany (BlacklistEntry.id e)
                       (BlacklistEntry.company_id e))
                    (entries w') = []).
  { apply where_nil. intros x Hx. rewrite He in Hx.
    apply filter_In in Hx. destruct Hx as [_ Hx].
    destruct (Sql.is_true _) eqn:T; [|reflexivity].
    apply entryOfCompany_true in T. destruct T as [T _].
    rewrite T, Z.eqb_refl in Hx. discriminate. }
  split; [reflexivity|]. split; [exact He|]. split.
  - apply (getBlacklistEntry_denied _ _ _ _ Hc' Hnone).
  - now rewrite (deleteBlacklistEntry_denied _ _ _ _ _ _ Hc' Hnone).
Qed.

Lemma delete_own_entry_witness :
  primaryKey Sample.world2
  /\ companyOf Sample.world2 1
     = Some (BlacklistEntry.company_id Sample.janeEntry)
  /\ In Sample.janeEntry (entries Sample.world2)
  /\ let (outcome, w') :=
       deleteBlacklistEntry insertActivityLog 3000 1 1 Sample.world2 in
     outcome = Returned true
     /\ getBlacklistEntry 1 1 w' = (Returned None, w').
Proof.
  assert (Hc : companyOf Sample.world2 1
               = Some (BlacklistEntry.company_id Sample.janeEntry))
    by reflexivity.
  assert (Hin : In Sample.janeEntry (entries Sample.world2))
    by (rewrite sample_entries; now left).
  split; [exact sample_primaryKey|]. split; [exact Hc|]. split; [exact Hin|].
  generalize (delete_own_entry insertActivityLog 3000 Sample.world2 1
                Sample.janeEntry sample_primaryKey Hc Hin).
  change (BlacklistEntry.id Sample.janeEntry) with 1.
  destruct (deleteBlacklistEntry _ _ _ _ _) as [outcome w'].
  intros [Ho [_ [Hget _]]]. exact (conj Ho Hget).
Defined.

(** ** Toggling *)

(** X12. Toggling an entry of the caller's company sets [is_blacklisted]
    to the flag and the status to [active] for [true], [inactive] for
    [false], stamps [updated_at], and changes nothing else of the entry
    (the score is not computed again) nor any other row; the caller
    reads the toggled entry back by its id. *)
Theorem toggle_own_entry
    (sink : ActivitySink) (now : Z) (w : World) (userId : Z)
    (e : BlacklistEntry.t) (isBlacklisted : bool) :
  primaryKey w ->
  companyOf w userId = Some (BlacklistEntry.company_id e) ->
  In e (entries w) ->
  let (outcome, w') :=
    toggleBlacklistStatus sink now userId (BlacklistEntry.id e)
      isBlacklisted w in
  exists r,
    outcome = Returned r
    /\ entries w' = replaceById r (entries w)
    /\ BlacklistEntry.is_blacklisted r = isBlacklisted
    /\ BlacklistEntry.status r = (if isBlacklisted then active else inactive)
    /\ BlacklistEntry.updated_at r = now
    /\ sameButStatus e r
    /\ getBlacklistEntry userId (BlacklistEntry.id e) w'
       = (Returned (Some r), w').
Proof.
  intros Hpk Hc Hin.
  rewrite (toggleBlacklistStatus_own sink now w userId e Hpk Hc Hin).
  eexists. split; [reflexivity|]. split; [apply entries_settled|].
  do 3 (split; [reflexivity|]). split; [now repeat split|].
  now apply replaced_entry_read_back.
Qed.

Lemma toggle_own_entry_witness :
  primaryKey Sample.world2
  /\ companyOf Sample.world2 1
     = Some (BlacklistEntry.company_id Sample.janeEntry)
  /\ In Sample.janeEntry (entries Sample.world2)
  /\ let (outcome, w') :=
       toggleBlacklistStatus insertActivityLog 3000 1 1 false Sample.world2 in
     exists r,
       outcome = Returned r
       /\ BlacklistEntry.is_blacklisted r = false
       /\ BlacklistEntry.status r = inactive.
Proof.
  assert (Hc : companyOf Sample.world2 1
               = Some (BlacklistEntry.company_id Sample.janeEntry))
    by reflexivity.
  assert (Hin : In Sample.janeEntry (entries Sample.world2))
    by (rewrite sample_entries; now left).
  split; [exact sample_primaryKey|]. split; [exact Hc|]. split; [exact Hin|].
  generalize (toggle_own_entry insertActivityLog 3000 Sample.world2 1
                Sample.janeEntry false sample_primaryKey Hc Hin).
  change (BlacklistEntry.id Sample.janeEntry) with 1.
  destruct (toggleBlacklistStatus _ _ _ _ _ _) as [outcome w'].
  intros [r [Ho [_ [Hb [Hs _]]]]]. exists r. exact (conj Ho (conj Hb Hs)).
Defined.

Lemma replaceById_twice (r1 r2 : BlacklistEntry.t)
    (l : list BlacklistEntry.t) :
  BlacklistEntry.id r1 = BlacklistEntry.id r2 ->
  replaceById r2 (replaceById r1 l) = replaceById r2 l.
Proof.
  intros Hid. unfold replaceById. rewrite map_map. apply map_ext. intros x.
  destruct (Z.eqb_spec (BlacklistEntry.id x) (BlacklistEntry.id r1)) as [E|E].
  - rewrite Hid, Z.eqb_refl. rewrite Hid in E.
    apply Z.eqb_eq in E. now rewrite E.
  - reflexivity.
Qed.

(** X13. Toggling twice to the same flag is toggling once: the second
    call returns what a single call at its time would return, and leaves
    the same rows. *)
Theorem toggle_twice
    (sink1 sink2 sink : ActivitySink) (now1 now2 : Z) (w : World)
    (userId : Z) (e : BlacklistEntry.t) (isBlacklisted : bool) :
  primaryKey w ->
  companyOf w userId = Some (BlacklistEntry.company_id e) ->
  In e (entries w) ->
  let entryId := BlacklistEntry.id e in
  let (_, w1) :=
    toggleBlacklistStatus sink1 now1 userId entryId isBlacklisted w in
  let (twice, w2) :=
    toggleBlacklistStatus sink2 now2 userId entryId isBlacklisted w1 in
  let (once, w') :=
    toggleBlacklistStatus sink now2 userId entryId isBlacklisted w in
  twice = once /\ entries w2 = entries w'.
Proof.
  intros Hpk Hc Hin entryId. unfold entryId.
  rewrite (toggleBlacklistStatus_own sink1 now1 w userId e Hpk Hc Hin).
  rewrite (toggleBlacklistStatus_own sink now2 w userId e Hpk Hc Hin).
  set (r1 := UpdateData.apply (toggleData now1 isBlacklisted) e).
  set (w1 := afterLog sink1 _ _ _).
  assert (Hpk1 : primaryKey w1).
  { unfold primaryKey, w1. rewrite entries_settled, ids_replaceById.
    exact Hpk. }
  assert (Hc1 : companyOf w1 userId = Some (BlacklistEntry.company_id r1))
    by (unfold w1; now rewrite companyOf_afterLog).
  assert (Hin1 : In r1 (entries w1)).
  { unfold w1. rewrite entries_settled. now apply (In_replaceById r1 e). }
  change (BlacklistEntry.id e) with (BlacklistEntry.id r1) at 1.
  rewrite (toggleBlacklistStatus_own sink2 now2 w1 userId r1 Hpk1 Hc1 Hin1).
  split; [reflexivity|].
  rewrite !entries_settled. unfold w1. rewrite entries_settled.
  now apply replaceById_twice.
Qed.

Lemma toggle_twice_witness :
  primaryKey Sample.world2
  /\ companyOf Sample.world2 1
     = Some (BlacklistEntry.company_id Sample.janeEntry)
  /\ In Sample.janeEntry (entries Sample.world2)
  /\ let (_, w1) :=
       toggleBlacklistStatus insertActivityLog 3000 1 1 true Sample.world2 in
     let (twice, w2) :=
       toggleBlacklistStatus failingSink 4000 1 1 true w1 in
     let (once, w') :=
       toggleBlacklistStatus insertActivityLog 4000 1 1 true Sample.world2 in
     twice = once /\ entries w2 = entries w'.
Proof.
  assert (Hc : companyOf Sample.world2 1
               = Some (BlacklistEntry.company_id Sample.janeEntry))
    by reflexivity.
  assert (Hin : In Sample.janeEntry (entries Sample.world2))
    by (rewrite sample_entries; now left).
  refine (conj sample_primaryKey (conj Hc (conj Hin _))).
  exact (toggle_twice insertActivityLog failingSink insertActivityLog
           3000 4000 Sample.world2 1 Sample.janeEntry true
           sample_primaryKey Hc Hin).
Defined.

(** ** Failure leaves no trace in the database *)

(** X14. A handler that throws has written nothing: whenever create,
    update, delete or toggle ends with an error, whatever the sink does,
    the database is the one it started from.  The two reading handlers
    never change the database. *)
Theorem thrown_means_unchanged
    (sink : ActivitySink) (now : Z) (w : World) (userId : Z) :
  let unchanged (A : Type) (run : Outcome A * World) : Prop :=
    forall error, fst run = Thrown error -> db (snd run) = db w in
  (forall input,
      unchanged _ (createBlacklistEntry sink now userId input w))
  /\ (forall input,
      unchanged _ (updateBlacklistEntry sink now userId input w))
  /\ (forall entryId,
      unchanged _ (deleteBlacklistEntry sink now userId entryId w))
  /\ (forall entryId isBlacklisted,
      unchanged _ (toggleBlacklistStatus sink now userId entryId
                     isBlacklisted w))
  /\ (forall filters pagination,
      db (snd (getBlacklistEntries userId filters pagination w)) = db w)
  /\ (forall entryId, db (snd (getBlacklistEntry userId entryId w)) = db w).
Proof.
  intros unchanged. unfold unchanged.
  destruct (companyOf w userId) as [companyId|] eqn:Hc.
  - split; [|split; [|split; [|split; [|split]]]].
    + intros input error.
      rewrite (createBlacklistEntry_run _ _ _ _ _ Hc). discriminate.
    + intros input error.
      destruct (Sql.where_ (entryOfCompany (UpdateBlacklistEntry.id input)
                              companyId) (entries w)) as [|e l] eqn:Hf.
      * now rewrite (updateBlacklistEntry_denied _ _ _ _ _ _ Hc Hf _ eq_refl).
      * rewrite (updateBlacklistEntry_run _ _ _ _ _ Hc _ _ _ Hf _ eq_refl).
        discriminate.
    + intros entryId error.
      destruct (Sql.where_ (entryOfCompany entryId companyId) (entries w))
        as [|e l] eqn:Hf.
      * now rewrite (deleteBlacklistEntry_denied _ _ _ _ _ _ Hc Hf).
      * rewrite (deleteBlacklistEntry_run _ _ _ _ _ Hc _ _ _ Hf).
        discriminate.
    + intros entryId isBlacklisted error.
      destruct (Sql.where_ (entryOfCompany entryId companyId) (entries w))
        as [|e l] eqn:Hf.
      * now rewrite (toggleBlacklistStatus_denied _ _ _ _ _ _ Hc Hf).
      * rewrite (toggleBlacklistStatus_run _ _ _ _ _ Hc _ _ _ Hf).
        discriminate.
    + intros. now rewrite (getBlacklistEntries_run _ _ _ Hc).
    + intros. now rewrite (getBlacklistEntry_run _ _ _ _ Hc).
  - split; [|split; [|split; [|split; [|split]]]]; intros.
    + now rewrite (createBlacklistEntry_without_company _ _ _ _ Hc).
    + now rewrite (updateBlacklistEntry_without_company _ _ _ _ Hc).
    + now rewrite (deleteBlacklistEntry_without_company _ _ _ _ Hc).
    + now rewrite (toggleBlacklistStatus_without_company _ _ _ _ Hc).
    + now rewrite (getBlacklistEntries_without_company _ _ Hc).
    + now rewrite (getBlacklistEntry_without_company _ _ Hc).
Qed.

(** ** What gets into the activity log *)

Lemma logRows_afterLog_insert (now : Z) (v : ActivityLogValues.t)
    (w : World) (rows' : list BlacklistEntry.t) (next : Z) :
  logRows (afterLog insertActivityLog now v (withEntries w rows' next))
  = (logRows w
     ++ [ActivityLog.mk (next_id (activityLogsTable (db w)))
           (ActivityLogValues.user_id v) (ActivityLogValues.action v)
           (ActivityLogValues.resource_type v)
           (ActivityLogValues.resource_id v) (ActivityLogValues.details v)
           (ActivityLogValues.ip_address v) (ActivityLogValues.user_agent v)
           now])%list.
Proof. reflexivity. Qed.

Lemma loggedOnce_afterLog (now : Z) (w : World)
    (rows' : list BlacklistEntry.t) (next userId : Z) (action : string)
    (entryId : Z) (details : string) :
  loggedOnce w
    (afterLog insertActivityLog now (activity userId action entryId details)
       (withEntries w rows' next))
    userId action entryId now.
Proof.
  eexists. split; [apply logRows_afterLog_insert|]. now repeat split.
Qed.

(** X15. With a database that takes the insert, every successful create,
    update, delete and toggle adds exactly one row to the activity log:
    it names the caller, the action ([created], [updated], [deleted],
    [blacklisted] or [unblacklisted]), the resource type
    [blacklist_entry], the id of the entry and the time of the call.  A
    call that throws adds none. *)
Theorem one_log_row_per_success (now : Z) (w : World) (userId : Z) :
  (forall input,
      let (outcome, w') :=
        createBlacklistEntry insertActivityLog now userId input w in
      match outcome with
      | Returned entry =>
          loggedOnce w w' userId "created" (BlacklistEntry.id entry) now
      | Thrown _ => logRows w' = logRows w
      end)
  /\ (forall input,
      let (outcome, w') :=
        updateBlacklistEntry insertActivityLog now userId input w in
      match outcome with
      | Returned _ =>
          loggedOnce w w' userId "updated" (UpdateBlacklistEntry.id input) now
      | Thrown _ => logRows w' = logRows w
      end)
  /\ (forall entryId,
      let (outcome, w') :=
        deleteBlacklistEntry insertActivityLog now userId entryId w in
      match outcome with
      | Returned _ => loggedOnce w w' userId "deleted" entryId now
      | Thrown _ => logRows w' = logRows w
      end)
  /\ (forall entryId isBlacklisted,
      let (outcome, w') :=
        toggleBlacklistStatus insertActivityLog now userId entryId
          isBlacklisted w in
      match outcome with
      | Returned _ =>
          loggedOnce w w' userId
            (if isBlacklisted then "blacklisted" else "unblacklisted")
            entryId now
      | Thrown _ => logRows w' = logRows w
      end).
Proof.
  destruct (companyOf w userId) as [companyId|] eqn:Hc.
  - split; [|split; [|split]].
    + intros input. rewrite (createBlacklistEntry_run _ _ _ _ _ Hc).
      apply loggedOnce_afterLog.
    + intros input.
      destruct (Sql.where_ (entryOfCompany (UpdateBlacklistEntry.id input)
                              companyId) (entries w)) as [|e l] eqn:Hf.
      * now rewrite (updateBlacklistEntry_denied _ _ _ _ _ _ Hc Hf _ eq_refl).
      * rewrite (updateBlacklistEntry_run _ _ _ _ _ Hc _ _ _ Hf _ eq_refl).
        apply loggedOnce_afterLog.
    + intros entryId.
      destruct (Sql.where_ (entryOfCompany entryId companyId) (entries w))
        as [|e l] eqn:Hf.
      * now rewrite (deleteBlacklistEntry_denied _ _ _ _ _ _ Hc Hf).
      * rewrite (deleteBlacklistEntry_run _ _ _ _ _ Hc _ _ _ Hf).
        apply loggedOnce_afterLog.
    + intros entryId isBlacklisted.
      destruct (Sql.where_ (entryOfCompany entryId companyId) (entries w))
        as [|e l] eqn:Hf.
      * now rewrite (toggleBlacklistStatus_denied _ _ _ _ _ _ Hc Hf).
      * rewrite (toggleBlacklistStatus_run _ _ _ _ _ Hc _ _ _ Hf).
        apply loggedOnce_afterLog.
  - split; [|split; [|split]]; intros.
    + now rewrite (createBlacklistEntry_without_company _ _ _ _ Hc).
    + now rewrite (updateBlacklistEntry_without_company _ _ _ _ Hc).
    + now rewrite (deleteBlacklistEntry_without_company _ _ _ _ Hc).
    + now rewrite (toggleBlacklistStatus_without_company _ _ _ _ Hc).
Qed.

(** ** What a listing selects *)

Lemma BlacklistStatus_eqb_eq (a b : BlacklistStatus) :
  BlacklistStatus_eqb a b = true <-> a = b.
Proof. destruct a, b; cbn; split; intros H; congruence. Qed.

Lemma is_true_Some (b : bool) : Sql.is_true (Some b) = b.
Proof. now destruct b. Qed.

Lemma accepts_iff (companyId : Z) (filters : BlacklistFilter.t)
    (e : BlacklistEntry.t) :
  Sql.is_true (whereCondition companyId filters e) = true
  <-> accepts companyId filters e.
Proof.
  rewrite whereCondition_true. unfold listConditions, accepts.
  rewrite !forallb_app, !andb_true_iff.
  set (holds := fun c : BlacklistEntry.t -> Sql.tri => Sql.is_true (c e)).
  assert (Hcompany :
            forallb holds [Sql.eqZ BlacklistEntry.company_id companyId] = true
            <-> BlacklistEntry.company_id e = companyId).
  { cbn [forallb]. unfold holds, Sql.eqZ.
    rewrite is_true_Some, andb_true_r. apply Z.eqb_eq. }
  assert (Hstatus :
            forallb holds
              match BlacklistFilter.status filters with
              | Some st => [Sql.eqStatus BlacklistEntry.status st]
              | None => []
              end = true
            <-> (forall st, BlacklistFilter.status filters = Some st ->
                            BlacklistEntry.status e = st)).
  { destruct (BlacklistFilter.status filters) as [st|]; cbn [forallb].
    - unfold holds, Sql.eqStatus. rewrite is_true_Some, andb_true_r.
      rewrite BlacklistStatus_eqb_eq. split.
      + intros <- st' H. now injection H.
      + intros H. now apply H.
    - split; [discriminate | reflexivity]. }
  assert (Hsearch :
            forallb holds
              match BlacklistFilter.search filters with
              | Some (String c rest) => [searchCondition (String c rest)]
              | _ => []
              end = true
            <-> (forall c rest,
                    BlacklistFilter.search filters = Some (String c rest) ->
                    matchesLike (String c rest) e = true)).
  { destruct (BlacklistFilter.search filters) as [[|c rest]|]; cbn [forallb].
    - split; [discriminate | reflexivity].
    - unfold holds. rewrite searchCondition_true, andb_true_r. split.
      + intros H c' rest' E. now injection E as <- <-.
      + intros H. now apply H.
    - split; [discriminate | reflexivity]. }
  assert (Hdates :
            forallb holds
              match BlacklistFilter.date_from filters,
                    BlacklistFilter.date_to filters with
              | Some date_from, Some date_to =>
                  [Sql.between BlacklistEntry.created_at date_from date_to]
              | Some date_from, None =>
                  [Sql.gte BlacklistEntry.created_at date_from]
              | None, Some date_to =>
                  [Sql.lte BlacklistEntry.created_at date_to]
              | None, None => []
              end = true
            <-> (forall d, BlacklistFilter.date_from filters = Some d ->
                           d <= BlacklistEntry.created_at e)
                /\ (forall d, BlacklistFilter.date_to filters = Some d ->
                              BlacklistEntry.created_at e <= d)).
  { destruct (BlacklistFilter.date_from filters) as [from|],
             (BlacklistFilter.date_to filters) as [to|]; cbn [forallb];
      unfold holds, Sql.between, Sql.gte, Sql.lte;
      rewrite ?is_true_Some, ?andb_true_r, ?andb_true_iff, ?Z.leb_le.
    - split.
      + intros [H1 H2]. split; intros d E; injection E as <-; assumption.
      + intros [H1 H2]. split; [now apply H1 | now apply H2].
    - split.
      + intros H. split; [intros d E; now injection E as <- | discriminate].
      + intros [H _]. now apply H.
    - split.
      + intros H. split; [discriminate | intros d E; now injection E as <-].
      + intros [_ H]. now apply H.
    - split; [split; discriminate | reflexivity]. }
  assert (Hmin :
            forallb holds
              match BlacklistFilter.min_score filters with
              | Some min_score =>
                  [Sql.gte BlacklistEntry.blacklist_score min_score]
              | None => []
              end = true
            <-> (forall m, BlacklistFilter.min_score filters = Some m ->
                           m <= BlacklistEntry.blacklist_score e)).
  { destruct (BlacklistFilter.min_score filters) as [m|]; cbn [forallb].
    - unfold holds, Sql.gte. rewrite is_true_Some, andb_true_r, Z.leb_le.
      split; [intros H m' E; now injection E as <- | intros H; now apply H].
    - split; [discriminate | reflexivity]. }
  assert (Hmax :
            forallb holds
              match BlacklistFilter.max_score filters with
              | Some max_score =>
                  [Sql.lte BlacklistEntry.blacklist_score max_score]
              | None => []
              end = true
            <-> (forall m, BlacklistFilter.max_score filters = Some m ->
                           BlacklistEntry.blacklist_score e <= m)).
  { destruct (BlacklistFilter.max_score filters) as [m|]; cbn [forallb].
    - unfold holds, Sql.lte. rewrite is_true_Some, andb_true_r, Z.leb_le.
      split; [intros H m' E; now injection E as <- | intros H; now apply H].
    - split; [discriminate | reflexivity]. }
  rewrite Hcompany, Hstatus, Hsearch, Hdates, Hmin, Hmax. tauto.
Qed.

(** X16. What the filters of a listing mean.  Every entry listed is a row
    of the caller's company that meets each filter given: the status, the
    search pattern when the text is not empty, the date bounds and the
    score bounds, all bounds inclusive; filters left out ask nothing, and
    the filter's [company_id] is not looked at.  On a first page large
    enough for the total, every such row is listed, provided it was
    created strictly before the upper date bound when there is one (the
    bound is compared with the time of creation as stored, which may lie
    a fraction of a millisecond after the one the entry shows). *)
Theorem listing_meets_filters
    (w : World) (userId companyId : Z) (filters : BlacklistFilter.t)
    (pagination : Pagination.t) :
  companyOf w userId = Some companyId ->
  exists es total,
    getBlacklistEntries userId filters pagination w
    = (Returned (es, total), w)
    /\ (forall e, In e es -> In e (entries w) /\ accepts companyId filters e)
    /\ (Pagination.page pagination = 1 ->
        total <= Pagination.limit pagination ->
        forall e, In e (entries w) -> accepts companyId filters e ->
                  createdBefore filters e ->
                  In e es).
Proof.
  intros Hc. rewrite (getBlacklistEntries_run _ _ _ Hc). do 2 eexists.
  split; [reflexivity|]. split.
  - intros e H. apply In_limit_offset, In_orderBy_desc, In_where in H.
    now rewrite accepts_iff in H.
  - intros -> Hlimit e Hin Ha _.
    rewrite limit_offset_first_page by now rewrite length_orderBy_desc.
    apply In_orderBy_desc, In_where. now rewrite accepts_iff.
Qed.

Lemma listing_meets_filters_witness :
  companyOf Sample.world2 1 = Some 10
  /\ exists es total,
       getBlacklistEntries 1
         (BlacklistFilter.mk (Some active) (Some 20) None (Some 1000)
            (Some 1500) (Some 100) (Some 100))
         Sample.firstPage Sample.world2
       = (Returned (es, total), Sample.world2)
       /\ In Sample.janeEntry es.
Proof.
  assert (Hc : companyOf Sample.world2 1 = Some 10) by reflexivity.
  refine (conj Hc _).
  destruct (listing_meets_filters Sample.world2 1 10
              (BlacklistFilter.mk (Some active) (Some 20) None (Some 1000)
                 (Some 1500) (Some 100) (Some 100))
              Sample.firstPage Hc) as [es [total [E [_ Hall]]]].
  exists es, total. split; [exact E|].
  assert (Et : total = 1) by (vm_compute in E; congruence).
  apply Hall.
  - reflexivity.
  - rewrite Et. discriminate.
  - rewrite sample_entries. now left.
  - unfold accepts. cbn. repeat split; try reflexivity; intros;
      try discriminate;
      match goal with
      | E : Some _ = Some _ |- _ => injection E as <-
      end; try reflexivity; lia.
  - intros d Hd. cbn in Hd. injection Hd as <-. reflexivity.
Defined.

(** ** Pages *)

Lemma length_limit_offset {R : Type} (n k : Z) (l : list R) :
  (List.length (Sql.limit_offset n k l) <= Z.to_nat n)%nat
  /\ (List.length (Sql.limit_offset n k l) <= List.length l)%nat.
Proof.
  unfold Sql.limit_offset. rewrite length_firstn, length_skipn. lia.
Qed.

Lemma In_skipn {R : Type} (k : nat) (x : R) (l : list R) :
  In x (skipn k l) -> In x l.
Proof.
  intros H. rewrite <- (firstn_skipn k l). apply in_or_app. now right.
Qed.

Lemma In_firstn {R : Type} (k : nat) (x : R) (l : list R) :
  In x (firstn k l) -> In x l.
Proof.
  intros H. rewrite <- (firstn_skipn k l). apply in_or_app. now left.
Qed.

Lemma descending_insert {R : Type} (key : R -> Z) (x : R) (l : list R) :
  descending key l -> descending key (Sql.insert_desc key x l).
Proof.
  induction l as [|y l IH]; intros Hl.
  - cbn. split; [intros z [] | exact I].
  - destruct Hl as [Hy Hl]. cbn [Sql.insert_desc].
    destruct (Z.ltb_spec (key x) (key y)) as [Hlt|Hge].
    + split; [|now apply IH].
      intros z Hz. apply In_insert_desc in Hz.
      destruct Hz as [->|Hz]; [lia | now apply Hy].
    + split; [|now split].
      intros z [<-|Hz]; [lia|]. specialize (Hy z Hz). lia.
Qed.

Lemma descending_orderBy {R : Type} (key : R -> Z) (l : list R) :
  descending key (Sql.orderBy_desc key l).
Proof.
  unfold Sql.orderBy_desc. induction l as [|x l IH]; [exact I|].
  cbn [fold_right]. now apply descending_insert.
Qed.

Lemma descending_skipn {R : Type} (key : R -> Z) (k : nat) (l : list R) :
  descending key l -> descending key (skipn k l).
Proof.
  revert l. induction k as [|k IH]; intros l H; [exact H|].
  destruct l as [|x l]; [exact I|]. destruct H as [_ H]. now apply IH.
Qed.

Lemma descending_firstn {R : Type} (key : R -> Z) (k : nat) (l : list R) :
  descending key l -> descending key (firstn k l).
Proof.
  revert l. induction k as [|k IH]; intros l H; [exact I|].
  destruct l as [|x l]; [exact I|]. destruct H as [Hx H].
  cbn [firstn descending]. split; [|now apply IH].
  intros y Hy. apply Hx. now apply In_firstn in Hy.
Qed.

(** X17. A page is ordered by time of creation, newest first, holds at
    most [limit] entries and never more than the total; the total counts
    the rows selected and does not depend on the page asked for. *)
Theorem listing_page_shape
    (w : World) (userId companyId : Z) (filters : BlacklistFilter.t)
    (pagination : Pagination.t) :
  companyOf w userId = Some companyId ->
  1 <= Pagination.page pagination ->
  0 <= Pagination.limit pagination ->
  exists es total,
    getBlacklistEntries userId filters pagination w
    = (Returned (es, total), w)
    /\ descending BlacklistEntry.created_at es
    /\ Z.of_nat (List.length es) <= Pagination.limit pagination
    /\ Z.of_nat (List.length es) <= total
    /\ forall pagination',
         listedTotal userId filters pagination' w = total.
Proof.
  intros Hc Hpage Hlimit. rewrite (getBlacklistEntries_run _ _ _ Hc).
  do 2 eexists. split; [reflexivity|].
  set (l := Sql.where_ _ _).
  destruct (length_limit_offset (Pagination.limit pagination)
              ((Pagination.page pagination - 1) * Pagination.limit pagination)
              (Sql.orderBy_desc BlacklistEntry.created_at l)) as [Hn Hl].
  rewrite length_orderBy_desc in Hl.
  split; [|split; [lia | split; [lia|]]].
  - unfold Sql.limit_offset.
    apply descending_firstn, descending_skipn, descending_orderBy.
  - intros p'. unfold listedTotal.
    now rewrite (getBlacklistEntries_run _ _ _ Hc).
Qed.

Lemma listing_page_shape_witness :
  companyOf Sample.world2 1 = Some 10
  /\ 1 <= Pagination.page Sample.firstPage
  /\ 0 <= Pagination.limit Sample.firstPage
  /\ exists es total,
       getBlacklistEntries 1 BlacklistFilter.none Sample.firstPage
         Sample.world2
       = (Returned (es, total), Sample.world2)
       /\ Z.of_nat (List.length es) <= 20.
Proof.
  assert (Hc : companyOf Sample.world2 1 = Some 10) by reflexivity.
  assert (Hp : 1 <= Pagination.page Sample.firstPage) by (cbn; lia).
  assert (Hl : 0 <= Pagination.limit Sample.firstPage) by (cbn; lia).
  refine (conj Hc (conj Hp (conj Hl _))).
  destruct (listing_page_shape Sample.world2 1 10 BlacklistFilter.none
              Sample.firstPage Hc Hp Hl) as [es [total [E [_ [Hn _]]]]].
  exists es, total. split; [exact E | exact Hn].
Defined.

Lemma firstn_add {R : Type} (a b : nat) (l : list R) :
  firstn (a + b) l = (firstn a l ++ firstn b (skipn a l))%list.
Proof.
  revert l. induction a as [|a IH]; intros l; [reflexivity|].
  destruct l as [|x l]; cbn [Nat.add firstn skipn app].
  - now rewrite firstn_nil.
  - now rewrite IH.
Qed.

Lemma pages_concat {R : Type} (n : Z) (k : nat) (l : list R) :
  0 <= n ->
  List.concat (map (fun p => pageOf n (Z.of_nat p) l) (seq 1 k))
  = firstn (k * Z.to_nat n) l.
Proof.
  intros Hn. induction k as [|k IH]; [reflexivity|].
  rewrite seq_S, map_app, concat_app, IH. cbn [map List.concat Nat.add].
  rewrite app_nil_r. unfold pageOf, Sql.limit_offset.
  replace (Z.to_nat ((Z.of_nat (S k) - 1) * n)) with (k * Z.to_nat n)%nat
    by nia.
  replace (S k * Z.to_nat n)%nat with (k * Z.to_nat n + Z.to_nat n)%nat
    by lia.
  now rewrite firstn_add.
Qed.

(** *** The order of a listing when no two rows share a time of creation *)

Lemma Permutation_filter {R : Type} (f : R -> bool) (l l' : list R) :
  Permutation l l' -> Permutation (filter f l) (filter f l').
Proof.
  induction 1 as [|x l l' _ IH|x y l|l l' l'' _ IH1 _ IH2]; cbn [filter].
  - constructor.
  - destruct (f x); [now constructor | exact IH].
  - destruct (f x), (f y); try apply Permutation_refl; apply perm_swap.
  - now transitivity (filter f l').
Qed.

Lemma NoDup_map_filter {R : Type} (key : R -> Z) (p c : R -> bool)
    (l : list R) :
  (forall x, p x = true -> c x = true) ->
  NoDup (map key (filter c l)) -> NoDup (map key (filter p l)).
Proof.
  intros Hpc. induction l as [|x l IH]; cbn [filter]; intros Hnd.
  - constructor.
  - destruct (p x) eqn:Hp.
    + rewrite (Hpc x Hp) in Hnd. cbn [map] in *.
      inversion Hnd as [|k ks Hnotin Hrest]; subst.
      constructor; [|now apply IH].
      intros Hin. apply Hnotin. apply in_map_iff in Hin.
      destruct Hin as [y [Hy Hin]]. apply in_map_iff. exists y.
      split; [exact Hy|]. apply filter_In in Hin. apply filter_In.
      split; [tauto | apply Hpc; tauto].
    + apply IH. destruct (c x); [|exact Hnd].
      now inversion Hnd.
Qed.

Lemma insert_desc_Permutation {R : Type} (key : R -> Z) (x : R)
    (l : list R) :
  Permutation (Sql.insert_desc key x l) (x :: l).
Proof.
  induction l as [|y l IH]; cbn [Sql.insert_desc]; [apply Permutation_refl|].
  destruct (key x <? key y); [|apply Permutation_refl].
  transitivity (y :: x :: l); [now constructor | apply perm_swap].
Qed.

Lemma orderBy_desc_Permutation {R : Type} (key : R -> Z) (l : list R) :
  Permutation (Sql.orderBy_desc key l) l.
Proof.
  unfold Sql.orderBy_desc. induction l as [|x l IH]; cbn [fold_right].
  - constructor.
  - transitivity (x :: fold_right (Sql.insert_desc key) [] l);
      [apply insert_desc_Permutation | now constructor].
Qed.

Lemma descending_strictly {R : Type} (key : R -> Z) (l : list R) :
  descending key l -> NoDup (map key l) -> strictlyDescending key l.
Proof.
  induction l as [|x l IH]; cbn [descending strictlyDescending map];
    [trivial|].
  intros [Hx Hl] Hnd. inversion Hnd as [|k ks Hnotin Hrest]; subst.
  split; [|now apply IH].
  intros y Hy. specialize (Hx y Hy).
  assert (key y <> key x) by (intros E; apply Hnotin; rewrite <- E;
                              now apply in_map).
  lia.
Qed.

(** A set of rows with distinct keys has one arrangement in descending
    order. *)
Lemma strictlyDescending_unique {R : Type} (key : R -> Z) (l l' : list R) :
  strictlyDescending key l -> strictlyDescending key l' ->
  Permutation l l' -> l = l'.
Proof.
  revert l'. induction l as [|x l IH]; intros l' Hl Hl' Hp.
  - now apply Permutation_nil in Hp.
  - destruct l' as [|y l'].
    + symmetry in Hp. now apply Permutation_nil in Hp.
    + destruct Hl as [Hx Hl], Hl' as [Hy Hl'].
      assert (Hxin : In x (y :: l'))
        by (apply (Permutation_in _ Hp); now left).
      assert (Hyin : In y (x :: l))
        by (apply (Permutation_in _ (Permutation_sym Hp)); now left).
      assert (E : x = y).
      { destruct Hxin as [E|Hxin]; [now symmetry|].
        destruct Hyin as [E|Hyin]; [exact E|].
        specialize (Hx y Hyin). specialize (Hy x Hxin). lia. }
      subst y. f_equal. apply IH; [exact Hl | exact Hl' |].
      now apply Permutation_cons_inv in Hp.
Qed.

Lemma selected_distinctCreation (w : World) (companyId : Z)
    (filters : BlacklistFilter.t) :
  distinctCreation w companyId ->
  NoDup (map BlacklistEntry.created_at
           (Sql.where_ (whereCondition companyId filters) (entries w))).
Proof.
  unfold distinctCreation, entriesOfCompany, Sql.where_.
  apply NoDup_map_filter. intros x Hx.
  apply accepts_iff in Hx. destruct Hx as [Hx _]. now apply Z.eqb_eq.
Qed.

Lemma ordered_strictly (w : World) (companyId : Z)
    (filters : BlacklistFilter.t) :
  distinctCreation w companyId ->
  strictlyDescending BlacklistEntry.created_at
    (Sql.orderBy_desc BlacklistEntry.created_at
       (Sql.where_ (whereCondition companyId filters) (entries w))).
Proof.
  intros Hd. apply descending_strictly; [apply descending_orderBy|].
  apply (Permutation_NoDup
           (Permutation_map _
              (Permutation_sym (orderBy_desc_Permutation _ _)))).
  now apply selected_distinctCreation.
Qed.

Lemma companyOf_sameRows (w w' : World) (userId : Z) :
  sameRows w w' -> companyOf w' userId = companyOf w userId.
Proof. intros [E _]. unfold companyOf. now rewrite E. Qed.

Lemma distinctCreation_sameRows (w w' : World) (companyId : Z) :
  sameRows w w' -> distinctCreation w companyId ->
  distinctCreation w' companyId.
Proof.
  intros [_ Hp]. unfold distinctCreation, entriesOfCompany.
  apply Permutation_NoDup, Permutation_map, Permutation_filter.
  now symmetry.
Qed.

(** X18. Pages tile the listing, when no two entries of the company were
    created at the same time: asked one after the other with the same
    limit, pages 1 to [k] put end to end are the first [k * limit]
    entries of the complete listing (the one page that holds the total),
    so no entry is skipped and none comes twice.  The complete listing
    is in strictly descending order of creation, and neither it nor any
    page depends on the order in which the table stores its rows. *)
Theorem listing_pages_tile
    (w : World) (userId companyId : Z) (filters : BlacklistFilter.t)
    (limit : Z) (k : nat) :
  companyOf w userId = Some companyId ->
  1 <= limit ->
  distinctCreation w companyId ->
  let total := listedTotal userId filters (Pagination.mk 1 limit) w in
  let complete := listed userId filters (Pagination.mk 1 total) w in
  List.concat (map (fun p =>
                 listed userId filters (Pagination.mk (Z.of_nat p) limit) w)
              (seq 1 k))
  = firstn (k * Z.to_nat limit) complete
  /\ strictlyDescending BlacklistEntry.created_at complete
  /\ forall w' pagination,
       sameRows w w' ->
       listed userId filters pagination w'
       = listed userId filters pagination w.
Proof.
  intros Hc Hlimit Hd total complete.
  assert (Hcomplete :
            complete
            = Sql.orderBy_desc BlacklistEntry.created_at
                (Sql.where_ (whereCondition companyId filters) (entries w))).
  { unfold complete, total, listed, listedTotal.
    rewrite !(getBlacklistEntries_run _ _ _ Hc). cbn [fst].
    cbn [Pagination.page Pagination.limit].
    apply limit_offset_first_page. rewrite length_orderBy_desc. lia. }
  split; [|split].
  - rewrite Hcomplete.
    rewrite <- (pages_concat limit k) by lia.
    apply f_equal, map_ext_in. intros p _. unfold listed.
    rewrite (getBlacklistEntries_run _ _ _ Hc). reflexivity.
  - rewrite Hcomplete. now apply ordered_strictly.
  - intros w' pagination Hsame. unfold listed.
    assert (Hc' : companyOf w' userId = Some companyId)
      by now rewrite (companyOf_sameRows _ _ _ Hsame).
    rewrite (getBlacklistEntries_run _ _ _ Hc'),
      (getBlacklistEntries_run _ _ _ Hc). cbn [fst]. f_equal.
    apply (strictlyDescending_unique BlacklistEntry.created_at).
    + apply ordered_strictly.
      now apply (distinctCreation_sameRows w).
    + now apply ordered_strictly.
    + transitivity (Sql.where_ (whereCondition companyId filters)
                      (entries w')); [apply orderBy_desc_Permutation|].
      transitivity (Sql.where_ (whereCondition companyId filters)
                      (entries w));
        [|symmetry; apply orderBy_desc_Permutation].
      apply Permutation_filter. now destruct Hsame.
Qed.

Lemma listing_pages_tile_witness :
  companyOf sampleSecondFiling 1 = Some 10
  /\ 1 <= 1
  /\ distinctCreation sampleSecondFiling 10
  /\ List.concat (map (fun p =>
                    listed 1 BlacklistFilter.none
                      (Pagination.mk (Z.of_nat p) 1) sampleSecondFiling)
                 (seq 1 2))
     = firstn (2 * Z.to_nat 1)
         (listed 1 BlacklistFilter.none
            (Pagination.mk 1
               (listedTotal 1 BlacklistFilter.none (Pagination.mk 1 1)
                  sampleSecondFiling))
            sampleSecondFiling).
Proof.
  assert (Hc : companyOf sampleSecondFiling 1 = Some 10) by reflexivity.
  assert (Hl : 1 <= 1) by lia.
  assert (Hd : distinctCreation sampleSecondFiling 10).
  { unfold distinctCreation. cbn.
    repeat constructor; cbn; intuition discriminate. }
  refine (conj Hc (conj Hl (conj Hd _))).
  exact (proj1 (listing_pages_tile sampleSecondFiling 1 10
                  BlacklistFilter.none 1 2 Hc Hl Hd)).
Defined.

(** ** What every sequence of calls keeps *)

Lemma table_settled (sink : ActivitySink) (now : Z)
    (v : ActivityLogValues.t) (w : World) (rows' : list BlacklistEntry.t)
    (next : Z) :
  blacklistEntriesTable (db (afterLog sink now v (withEntries w rows' next)))
  = mkTable rows' next.
Proof. now rewrite (proj1 (afterLog_entries _ _ _ _)). Qed.

Lemma companies_settled (sink : ActivitySink) (now : Z)
    (v : ActivityLogValues.t) (w : World) (rows' : list BlacklistEntry.t)
    (next : Z) :
  companiesTable (db (afterLog sink now v (withEntries w rows' next)))
  = companiesTable (db w).
Proof. now rewrite (proj1 (proj2 (afterLog_entries _ _ _ _))). Qed.

Lemma runCall_companies (call : Call) (w : World) :
  companiesTable (db (runCall call w)) = companiesTable (db w).
Proof.
  destruct call as [sink now u input | u filters p | u i
                   | sink now u input | sink now u i | sink now u i b];
    cbn [runCall];
    destruct (companyOf w u) as [companyId|] eqn:Hc.
  - rewrite (createBlacklistEntry_run _ _ _ _ _ Hc). apply companies_settled.
  - now rewrite (createBlacklistEntry_without_company _ _ _ _ Hc).
  - now rewrite (getBlacklistEntries_run _ _ _ Hc).
  - now rewrite (getBlacklistEntries_without_company _ _ Hc).
  - now rewrite (getBlacklistEntry_run _ _ _ _ Hc).
  - now rewrite (getBlacklistEntry_without_company _ _ Hc).
  - destruct (Sql.where_ (entryOfCompany (UpdateBlacklistEntry.id input)
                            companyId) (entries w)) as [|e l] eqn:Hf.
    + now rewrite (updateBlacklistEntry_denied _ _ _ _ _ _ Hc Hf _ eq_refl).
    + rewrite (updateBlacklistEntry_run _ _ _ _ _ Hc _ _ _ Hf _ eq_refl).
      apply companies_settled.
  - now rewrite (updateBlacklistEntry_without_company _ _ _ _ Hc).
  - destruct (Sql.where_ (entryOfCompany i companyId) (entries w))
      as [|e l] eqn:Hf.
    + now rewrite (deleteBlacklistEntry_denied _ _ _ _ _ _ Hc Hf).
    + rewrite (deleteBlacklistEntry_run _ _ _ _ _ Hc _ _ _ Hf).
      apply companies_settled.
  - now rewrite (deleteBlacklistEntry_without_company _ _ _ _ Hc).
  - destruct (Sql.where_ (entryOfCompany i companyId) (entries w))
      as [|e l] eqn:Hf.
    + now rewrite (toggleBlacklistStatus_denied _ _ _ _ _ _ Hc Hf).
    + rewrite (toggleBlacklistStatus_run _ _ _ _ _ Hc _ _ _ Hf).
      apply companies_settled.
  - now rewrite (toggleBlacklistStatus_without_company _ _ _ _ Hc).
Qed.

Lemma prepareUpdateData_scores (now : Z) (input : UpdateBlacklistEntry.t)
    (existing : BlacklistEntry.t) :
  let data := prepareUpdateData now input existing in
  UpdateData.blacklist_score data = None
  /\ UpdateData.reason data = None
  /\ UpdateData.id_document_urls data = None
  /\ UpdateData.face_image_url data = None
  \/ UpdateBlacklistEntry.face_image_url input = Some None
  \/ BlacklistEntry.blacklist_score (UpdateData.apply data existing)
     = scoreOf (UpdateData.apply data existing).
Proof.
  intros data.
  destruct (UpdateBlacklistEntry.face_image_url input) as [[url|]|] eqn:Hface.
  - right. right. apply update_rescored_from_patched_entry.
    + rewrite Hface. cbn. apply orb_true_r.
    + congruence.
  - right. now left.
  - destruct (UpdateBlacklistEntry.reason input) as [r|] eqn:Hr.
    + right. right. apply update_rescored_from_patched_entry.
      * now rewrite Hr.
      * congruence.
    + destruct (UpdateBlacklistEntry.id_document_urls input) as [d|] eqn:Hd.
      * right. right. apply update_rescored_from_patched_entry.
        -- rewrite Hd. cbn. now rewrite orb_true_r.
        -- congruence.
      * left. unfold data, prepareUpdateData, recalculatedScore.
        rewrite Hr, Hd, Hface. now repeat split.
Qed.

Lemma runCall_effect (call : Call) (w : World) :
  Effect w call (runCall call w).
Proof.
  destruct call as [sink now u input | u filters p | u i
                   | sink now u input | sink now u i | sink now u i b];
    cbn [runCall];
    destruct (companyOf w u) as [companyId|] eqn:Hc.
  - rewrite (createBlacklistEntry_run _ _ _ _ _ Hc). cbn [snd].
    eapply EffectInsert; [exact Hc | | | | | apply table_settled];
      reflexivity.
  - rewrite (createBlacklistEntry_without_company _ _ _ _ Hc).
    now apply EffectNone.
  - rewrite (getBlacklistEntries_run _ _ _ Hc). now apply EffectNone.
  - rewrite (getBlacklistEntries_without_company _ _ Hc).
    now apply EffectNone.
  - rewrite (getBlacklistEntry_run _ _ _ _ Hc). now apply EffectNone.
  - rewrite (getBlacklistEntry_without_company _ _ Hc). now apply EffectNone.
  - destruct (Sql.where_ (entryOfCompany (UpdateBlacklistEntry.id input)
                            companyId) (entries w)) as [|e l] eqn:Hf.
    + rewrite (updateBlacklistEntry_denied _ _ _ _ _ _ Hc Hf _ eq_refl).
      now apply EffectNone.
    + rewrite (updateBlacklistEntry_run _ _ _ _ _ Hc _ _ _ Hf _ eq_refl).
      cbn [snd].
      eapply EffectUpdate; [exact Hc | exact Hf | | apply table_settled].
      apply prepareUpdateData_scores.
  - rewrite (updateBlacklistEntry_without_company _ _ _ _ Hc).
    now apply EffectNone.
  - destruct (Sql.where_ (entryOfCompany i companyId) (entries w))
      as [|e l] eqn:Hf.
    + rewrite (deleteBlacklistEntry_denied _ _ _ _ _ _ Hc Hf).
      now apply EffectNone.
    + rewrite (deleteBlacklistEntry_run _ _ _ _ _ Hc _ _ _ Hf). cbn [snd].
      eapply EffectDelete; [exact Hc | apply table_settled].
  - rewrite (deleteBlacklistEntry_without_company _ _ _ _ Hc).
    now apply EffectNone.
  - destruct (Sql.where_ (entryOfCompany i companyId) (entries w))
      as [|e l] eqn:Hf.
    + rewrite (toggleBlacklistStatus_denied _ _ _ _ _ _ Hc Hf).
      now apply EffectNone.
    + rewrite (toggleBlacklistStatus_run _ _ _ _ _ Hc _ _ _ Hf). cbn [snd].
      eapply EffectUpdate; [exact Hc | exact Hf | | apply table_settled].
      left. now repeat split.
  - rewrite (toggleBlacklistStatus_without_company _ _ _ _ Hc).
    now apply EffectNone.
Qed.

Lemma runCalls_cons (call : Call) (calls : list Call) (w : World) :
  runCalls (call :: calls) w = runCalls calls (runCall call w).
Proof. reflexivity. Qed.

Lemma wellFormed_effect (w w' : World) (call : Call) :
  Effect w call w' -> wellFormed w -> wellFormed w'.
Proof.
  intros [Hsame | c entry Hc Hid _ _ _ Ht | c i data e l Hc Hf _ Ht
         | c i Hc Ht] Hwf.
  - now apply (wellFormed_same_table w).
  - apply (wellFormed_same_table
             (withEntries w (entries w ++ [entry])
                (next_id (blacklistEntriesTable (db w)) + 1)));
      [exact Ht | now apply wellFormed_insert].
  - apply (wellFormed_same_table
             (withEntries w
                (Sql.update_where (entryOfCompany i c) (UpdateData.apply data)
                   (entries w))
                (next_id (blacklistEntriesTable (db w)))));
      [exact Ht | now apply wellFormed_update].
  - apply (wellFormed_same_table
             (withEntries w
                (Sql.delete_where (entryOfCompany i c) (entries w))
                (next_id (blacklistEntriesTable (db w)))));
      [exact Ht | now apply wellFormed_delete].
Qed.

(** X19. The primary key is an invariant of the handlers: from a table
    whose ids are distinct and below the next value of the sequence,
    every sequence of calls, by whatever users and with whatever
    arguments and sinks, leads to such a table again. *)
Theorem calls_keep_primary_key (calls : list Call) (w : World) :
  wellFormed w ->
  wellFormed (runCalls calls w) /\ primaryKey (runCalls calls w).
Proof.
  intros Hwf.
  assert (H : wellFormed (runCalls calls w)).
  { revert w Hwf. induction calls as [|call calls IH]; intros w Hwf.
    - exact Hwf.
    - rewrite runCalls_cons. apply IH.
      exact (wellFormed_effect _ _ _ (runCall_effect call w) Hwf). }
  split; [exact H | exact (proj1 H)].
Qed.

Lemma calls_keep_primary_key_witness :
  wellFormed Sample.world0
  /\ primaryKey
       (runCalls
          [CallCreate insertActivityLog 1000 1 Sample.janeDoe;
           CallCreate failingSink 2000 2 Sample.bobWilson;
           CallToggle insertActivityLog 3000 1 1 false;
           CallDelete insertActivityLog 4000 2 2]
          Sample.world0).
Proof.
  refine (conj wellFormed_empty _).
  exact (proj2 (calls_keep_primary_key
                  [CallCreate insertActivityLog 1000 1 Sample.janeDoe;
                   CallCreate failingSink 2000 2 Sample.bobWilson;
                   CallToggle insertActivityLog 3000 1 1 false;
                   CallDelete insertActivityLog 4000 2 2]
                  Sample.world0 wellFormed_empty)).
Defined.

Lemma companyOf_row (w : World) (userId companyId : Z) :
  companyOf w userId = Some companyId ->
  exists c, In c (companiesTable (db w))
            /\ Company.id c = companyId /\ Company.user_id c = userId.
Proof.
  unfold companyOf. destruct (Sql.where_ _ _) as [|c l] eqn:Hf; [discriminate|].
  intros H. injection H as <-. exists c.
  assert (Hin : In c (Sql.where_ (Sql.eqZ Company.user_id userId)
                        (companiesTable (db w)))) by (rewrite Hf; now left).
  apply In_where in Hin. destruct Hin as [Hin T].
  unfold Sql.eqZ in T. rewrite is_true_Some in T. apply Z.eqb_eq in T.
  now repeat split.
Qed.

Lemma In_update_where {R : Type} (c : @Sql.cond R) (f : R -> R)
    (x : R) (l : list R) :
  In x (Sql.update_where c f l) ->
  exists r, In r l
            /\ (x = r /\ Sql.is_true (c r) = false
                \/ x = f r /\ Sql.is_true (c r) = true).
Proof.
  unfold Sql.update_where. intros H. apply in_map_iff in H.
  destruct H as [r [E Hr]]. exists r. split; [exact Hr|].
  destruct (Sql.is_true (c r)); [right | left]; now split.
Qed.

Lemma referentialIntegrity_effect (w w' : World) (call : Call) :
  companiesTable (db w') = companiesTable (db w) ->
  Effect w call w' -> referentialIntegrity w -> referentialIntegrity w'.
Proof.
  intros Hco Heff Hri x Hx. unfold entries in Hx. rewrite Hco.
  destruct Heff as [Hsame | c entry Hc _ Hu Hcid _ Ht | c i data e l Hc Hf _ Ht
                   | c i Hc Ht]; rewrite ?Hsame, ?Ht in Hx; cbn [rows] in Hx.
  - now apply Hri.
  - apply in_app_or in Hx. destruct Hx as [Hx | [<- | []]]; [now apply Hri|].
    rewrite Hu, Hcid. now apply companyOf_row.
  - apply In_update_where in Hx.
    destruct Hx as [r [Hr [[-> _] | [-> _]]]]; exact (Hri r Hr).
  - unfold Sql.delete_where in Hx. apply filter_In in Hx.
    exact (Hri x (proj1 Hx)).
Qed.

(** X20. Referential integrity is an invariant of the handlers: if every
    entry names an existing company and the user that company belongs
    to, this is still so after every sequence of calls; the companies
    themselves are never written. *)
Theorem calls_keep_referential_integrity (calls : list Call) (w : World) :
  referentialIntegrity w ->
  referentialIntegrity (runCalls calls w)
  /\ companiesTable (db (runCalls calls w)) = companiesTable (db w).
Proof.
  revert w. induction calls as [|call calls IH]; intros w Hri.
  - now split.
  - rewrite runCalls_cons.
    destruct (IH (runCall call w)) as [H1 H2].
    + exact (referentialIntegrity_effect _ _ _ (runCall_companies call w)
               (runCall_effect call w) Hri).
    + split; [exact H1 | now rewrite H2, runCall_companies].
Qed.

Lemma calls_keep_referential_integrity_witness :
  referentialIntegrity Sample.world0
  /\ referentialIntegrity Sample.world2.
Proof.
  assert (H0 : referentialIntegrity Sample.world0) by (intros e []).
  refine (conj H0 _).
  exact (proj1 (calls_keep_referential_integrity
                  [CallCreate insertActivityLog 1000 1 Sample.janeDoe;
                   CallCreate insertActivityLog 2000 2 Sample.bobWilson]
                  Sample.world0 H0)).
Defined.

Lemma filter_company_update_where (c c' i : Z) (data : UpdateData.t)
    (l : list BlacklistEntry.t) :
  c' <> c ->
  filter (fun e => BlacklistEntry.company_id e =? c)
    (Sql.update_where (entryOfCompany i c') (UpdateData.apply data) l)
  = filter (fun e => BlacklistEntry.company_id e =? c) l.
Proof.
  intros Hne. unfold Sql.update_where.
  induction l as [|x l IH]; [reflexivity|]. cbn [map filter].
  destruct (Sql.is_true (entryOfCompany i c' x)) eqn:T.
  - apply entryOfCompany_true in T. destruct T as [_ T].
    change (BlacklistEntry.company_id (UpdateData.apply data x))
      with (BlacklistEntry.company_id x).
    destruct (Z.eqb_spec (BlacklistEntry.company_id x) c); [congruence|].
    exact IH.
  - now rewrite IH.
Qed.

Lemma filter_company_delete_where (c c' i : Z) (l : list BlacklistEntry.t) :
  c' <> c ->
  filter (fun e => BlacklistEntry.company_id e =? c)
    (Sql.delete_where (entryOfCompany i c') l)
  = filter (fun e => BlacklistEntry.company_id e =? c) l.
Proof.
  intros Hne. unfold Sql.delete_where.
  induction l as [|x l IH]; [reflexivity|]. cbn [filter].
  destruct (Sql.is_true (entryOfCompany i c' x)) eqn:T; cbn [negb filter].
  - apply entryOfCompany_true in T. destruct T as [_ T].
    destruct (Z.eqb_spec (BlacklistEntry.company_id x) c); [congruence|].
    exact IH.
  - now rewrite IH.
Qed.

Lemma entriesOfCompany_effect (w w' : World) (call : Call) (c : Z) :
  Effect w call w' ->
  companyOf w (caller call) <> Some c ->
  entriesOfCompany w' c = entriesOfCompany w c.
Proof.
  intros Heff Hne. unfold entriesOfCompany, entries at 1.
  destruct Heff as [Hsame | c' entry Hc _ _ Hcid _ Ht | c' i data e l Hc _ _ Ht
                   | c' i Hc Ht]; rewrite ?Hsame, ?Ht; cbn [rows].
  - reflexivity.
  - rewrite filter_app. cbn [filter]. rewrite Hcid.
    destruct (Z.eqb_spec c' c); [congruence | apply app_nil_r].
  - apply filter_company_update_where. congruence.
  - apply filter_company_delete_where. congruence.
Qed.

(** X21. What the users of other companies do never shows in a company's
    entries: after any sequence of calls, none of them made by a user who
    acts for the company, the entries of the company are the very rows
    they were, in the same order. *)
Theorem other_companies_cannot_interfere
    (companyId : Z) (calls : list Call) (w : World) :
  (forall call, In call calls ->
                companyOf w (caller call) <> Some companyId) ->
  entriesOfCompany (runCalls calls w) companyId = entriesOfCompany w companyId.
Proof.
  revert w. induction calls as [|call calls IH]; intros w Hothers.
  - reflexivity.
  - rewrite runCalls_cons, IH.
    + apply (entriesOfCompany_effect _ _ call); [apply runCall_effect|].
      apply Hothers. now left.
    + intros call' Hin.
      rewrite (companyOf_same_companies w _ _ (runCall_companies call w)).
      apply Hothers. now right.
Qed.

Lemma other_companies_cannot_interfere_witness :
  (forall call,
      In call [CallUpdate insertActivityLog 3000 2
                 (UpdateBlacklistEntry.mk 1 (Some "Janet") None None None None
                    None None None None None);
               CallDelete insertActivityLog 4000 2 1;
               CallCreate insertActivityLog 5000 3 Sample.janeDoe;
               CallToggle failingSink 6000 999 1 false] ->
      companyOf Sample.world2 (caller call) <> Some 10)
  /\ entriesOfCompany
       (runCalls
          [CallUpdate insertActivityLog 3000 2
             (UpdateBlacklistEntry.mk 1 (Some "Janet") None None None None
                None None None None None);
           CallDelete insertActivityLog 4000 2 1;
           CallCreate insertActivityLog 5000 3 Sample.janeDoe;
           CallToggle failingSink 6000 999 1 false]
          Sample.world2) 10
     = [Sample.janeEntry].
Proof.
  assert (H : forall call,
             In call [CallUpdate insertActivityLog 3000 2
                        (UpdateBlacklistEntry.mk 1 (Some "Janet") None None
                           None None None None None None None);
                      CallDelete insertActivityLog 4000 2 1;
                      CallCreate insertActivityLog 5000 3 Sample.janeDoe;
                      CallToggle failingSink 6000 999 1 false] ->
             companyOf Sample.world2 (caller call) <> Some 10).
  { intros call [<- | [<- | [<- | [<- | []]]]]; cbn; discriminate. }
  refine (conj H _).
  exact (other_companies_cannot_interfere 10 _ Sample.world2 H).
Defined.

Lemma scoreOf_unchanged (data : UpdateData.t) (e : BlacklistEntry.t) :
  UpdateData.reason data = None ->
  UpdateData.id_document_urls data = None ->
  UpdateData.face_image_url data = None ->
  scoreOf (UpdateData.apply data e) = scoreOf e.
Proof.
  intros Hr Hd Hf. unfold scoreOf.
  cbn [UpdateData.apply BlacklistEntry.reason BlacklistEntry.id_document_urls
       BlacklistEntry.face_image_url].
  now rewrite Hr, Hd, Hf.
Qed.

Lemma scoresConsistent_effect (w w' : World) (call : Call) :
  Effect w call w' ->
  ~ nullsFaceImage call ->
  primaryKey w -> scoresConsistent w -> scoresConsistent w'.
Proof.
  intros Heff Hnull Hpk Hsc x Hx. unfold entries in Hx.
  destruct Heff as [Hsame | c entry _ _ _ _ Hs Ht
                   | c i data e l Hc Hf Hdata Ht | c i Hc Ht];
    rewrite ?Hsame, ?Ht in Hx; cbn [rows] in Hx.
  - now apply Hsc.
  - apply in_app_or in Hx. destruct Hx as [Hx | [<- | []]];
      [now apply Hsc | exact Hs].
  - apply In_update_where in Hx.
    destruct Hx as [r [Hr [[-> _] | [-> T]]]]; [exact (Hsc r Hr)|].
    assert (r = e) as ->.
    { assert (He : In e (Sql.where_ (entryOfCompany i c) (entries w)))
        by (rewrite Hf; now left).
      apply In_where in He. destruct He as [He Te].
      apply entryOfCompany_true in T, Te.
      apply (primaryKey_inj (entries w)); auto.
      destruct T, Te. congruence. }
    destruct Hdata as [[Hs [Hre [Hd Hfa]]] | [Hn | Hok]];
      [| contradiction | exact Hok].
    rewrite (scoreOf_unchanged _ _ Hre Hd Hfa).
    cbn [UpdateData.apply BlacklistEntry.blacklist_score]. rewrite Hs.
    exact (Hsc e Hr).
  - unfold Sql.delete_where in Hx. apply filter_In in Hx.
    exact (Hsc x (proj1 Hx)).
Qed.

(** X22. As long as no update sets the face image to [null], scores stay
    in line with what is stored: from a well-formed table in which every
    score is the score of the entry's own reason and evidence, every
    sequence of calls leads to such a table again. *)
Theorem calls_keep_scores_consistent (calls : list Call) (w : World) :
  wellFormed w ->
  scoresConsistent w ->
  (forall call, In call calls -> ~ nullsFaceImage call) ->
  scoresConsistent (runCalls calls w).
Proof.
  revert w. induction calls as [|call calls IH]; intros w Hwf Hsc Hnull.
  - exact Hsc.
  - rewrite runCalls_cons. apply IH.
    + exact (wellFormed_effect _ _ _ (runCall_effect call w) Hwf).
    + apply (scoresConsistent_effect w _ call (runCall_effect call w));
        [apply Hnull; now left | exact (proj1 Hwf) | exact Hsc].
    + intros call' Hin. apply Hnull. now right.
Qed.

Lemma calls_keep_scores_consistent_witness :
  wellFormed Sample.world0
  /\ scoresConsistent Sample.world0
  /\ scoresConsistent
       (runCalls
          [CallCreate insertActivityLog 1000 1 Sample.janeDoe;
           CallUpdate insertActivityLog 2000 1
             (UpdateBlacklistEntry.mk 1 None None None None None None
                (Some []) (Some "Late payment") None None);
           CallToggle insertActivityLog 3000 1 1 false]
          Sample.world0).
Proof.
  assert (Hsc : scoresConsistent Sample.world0) by (intros e []).
  refine (conj wellFormed_empty (conj Hsc _)).
  apply (calls_keep_scores_consistent _ Sample.world0 wellFormed_empty Hsc).
  intros call [<- | [<- | [<- | []]]]; cbn; try tauto. discriminate.
Defined.

(** ** Searching *)

Lemma filter_all {A : Type} (f : A -> bool) (l : list A) :
  (forall x, f x = true) -> filter f l = l.
Proof.
  intros H. induction l as [|x l IH]; [reflexivity|].
  cbn [filter]. now rewrite H, IH.
Qed.

Lemma selectWhere_filter (conditions : list (@Sql.cond BlacklistEntry.t))
    (table : list BlacklistEntry.t) :
  selectWhere conditions table
  = filter (fun e => forallb (fun c => Sql.is_true (c e)) conditions) table.
Proof.
  unfold selectWhere. destruct conditions as [|c [|c' cs]].
  - symmetry. now apply filter_all.
  - unfold Sql.where_. apply filter_ext. intros e. cbn [forallb].
    now rewrite andb_true_r.
  - unfold Sql.where_. apply filter_ext. intros e. apply is_true_and_.
Qed.

Lemma searchBlacklistEntries_run (d : Db) (userId : Z)
    (input : SearchInput.t) (isAdmin : bool) (userCompanyId : option Z)
    (scope : list (@Sql.cond BlacklistEntry.t)) :
  principal d userId = Some (isAdmin, userCompanyId) ->
  searchScope isAdmin userCompanyId input = inr scope ->
  let selected :=
    filter (fun e => forallb (fun c => Sql.is_true (c e)) scope
                     && meetsSearch input e)
      (rows (blacklistEntriesTable d)) in
  exists faceMatches,
    searchBlacklistEntries userId input d
    = (inr (SearchResult.mk
              (Sql.limit_offset (SearchInput.limit input)
                 (SearchInput.offset input) selected)
              (Z.of_nat (List.length selected))
              faceMatches),
       []).
Proof.
  intros Hp Hs selected. unfold searchBlacklistEntries, principal in *.
  destruct (userWithCompany d userId) as [|[a c] l]; [discriminate|].
  injection Hp as -> ->. rewrite Hs. cbn [traced].
  rewrite selectWhere_filter. eexists. do 3 f_equal.
  - f_equal. apply filter_ext. intros e. apply forallb_app.
  - do 2 f_equal. apply filter_ext. intros e. apply forallb_app.
Qed.

(** X23. A user who is not an administrator searches the entries of the
    user's own company only, whatever company the input names: every
    entry found belongs to that company, and the total counts the rows of
    that company that meet the status and text conditions. *)
Theorem search_confined_to_own_company
    (d : Db) (userId companyId : Z) (input : SearchInput.t) :
  principal d userId = Some (false, Some companyId) ->
  companyId <> 0 ->
  exists result,
    searchBlacklistEntries userId input d = (inr result, [])
    /\ (forall e, In e (SearchResult.entries result) ->
                  In e (rows (blacklistEntriesTable d))
                  /\ BlacklistEntry.company_id e = companyId)
    /\ SearchResult.total result
       = Z.of_nat
           (List.length
              (filter (fun e => (BlacklistEntry.company_id e =? companyId)
                                && meetsSearch input e)
                 (rows (blacklistEntriesTable d)))).
Proof.
  intros Hp Hne.
  assert (Hs : searchScope false (Some companyId) input
               = inr [Sql.eqZ BlacklistEntry.company_id companyId]).
  { unfold searchScope, truthyNumber. cbn [negb].
    now destruct (Z.eqb_spec companyId 0). }
  destruct (searchBlacklistEntries_run d userId input _ _ _ Hp Hs)
    as [faceMatches E].
  rewrite E. eexists. split; [reflexivity|].
  cbn [SearchResult.entries SearchResult.total].
  assert (Hf : forall l,
             filter (fun e =>
                       forallb (fun c => Sql.is_true (c e))
                         [Sql.eqZ BlacklistEntry.company_id companyId]
                       && meetsSearch input e) l
             = filter (fun e => (BlacklistEntry.company_id e =? companyId)
                                && meetsSearch input e) l).
  { intros l. apply filter_ext. intros e. cbn [forallb]. unfold Sql.eqZ.
    now rewrite is_true_Some, andb_true_r. }
  rewrite Hf. split; [|reflexivity].
  intros e H. apply In_limit_offset in H. apply filter_In in H.
  destruct H as [Hin H]. apply andb_true_iff in H. destruct H as [H _].
  split; [exact Hin | now apply Z.eqb_eq].
Qed.

Lemma search_confined_to_own_company_witness :
  principal (db Sample.world2) 2 = Some (false, Some 20)
  /\ 20 <> 0
  /\ exists result,
       searchBlacklistEntries 2
         (SearchInput.mk None None (Some 10) None 20 0) (db Sample.world2)
       = (inr result, [])
       /\ SearchResult.total result = 1.
Proof.
  assert (Hp : principal (db Sample.world2) 2 = Some (false, Some 20))
    by reflexivity.
  assert (Hne : 20 <> 0) by discriminate.
  refine (conj Hp (conj Hne _)).
  destruct (search_confined_to_own_company (db Sample.world2) 2 20
              (SearchInput.mk None None (Some 10) None 20 0) Hp Hne)
    as [result [E [_ Ht]]].
  exists result. split; [exact E | exact Ht].
Defined.

(** X24. An administrator searches across companies: the total counts
    the rows of every company that meet the status and text conditions,
    unless the input asks for one company (a number other than 0), in
    which case only the rows of that company are counted.  The
    administrator's own company plays no part. *)
Theorem search_unrestricted_for_administrators
    (d : Db) (userId : Z) (userCompanyId : option Z)
    (input : SearchInput.t) :
  principal d userId = Some (true, userCompanyId) ->
  exists result,
    searchBlacklistEntries userId input d = (inr result, [])
    /\ SearchResult.total result
       = Z.of_nat
           (List.length
              (filter (fun e =>
                         match asksForCompany input with
                         | Some companyId =>
                             BlacklistEntry.company_id e =? companyId
                         | None => true
                         end
                         && meetsSearch input e)
                 (rows (blacklistEntriesTable d))))
    /\ (asksForCompany input = None ->
        SearchInput.status input = None ->
        SearchInput.query input = None ->
        SearchResult.total result
        = Z.of_nat (List.length (rows (blacklistEntriesTable d)))).
Proof.
  intros Hp.
  assert (Hs : searchScope true userCompanyId input
               = inr match asksForCompany input with
                     | Some companyId =>
                         [Sql.eqZ BlacklistEntry.company_id companyId]
                     | None => []
                     end).
  { unfold searchScope, asksForCompany. cbn [negb].
    destruct (SearchInput.company_id input) as [k|]; [|reflexivity].
    now destruct (truthyNumber k). }
  destruct (searchBlacklistEntries_run d userId input _ _ _ Hp Hs)
    as [faceMatches E].
  rewrite E. eexists. split; [reflexivity|].
  cbn [SearchResult.total].
  assert (Hf : forall l,
             filter (fun e =>
                       forallb (fun c => Sql.is_true (c e))
                         match asksForCompany input with
                         | Some companyId =>
                             [Sql.eqZ BlacklistEntry.company_id companyId]
                         | None => []
                         end
                       && meetsSearch input e) l
             = filter (fun e =>
                         match asksForCompany input with
                         | Some companyId =>
                             BlacklistEntry.company_id e =? companyId
                         | None => true
                         end
                         && meetsSearch input e) l).
  { intros l. apply filter_ext. intros e.
    destruct (asksForCompany input); cbn [forallb]; [|reflexivity].
    unfold Sql.eqZ. now rewrite is_true_Some, andb_true_r. }
  rewrite Hf. split; [reflexivity|].
  intros Hnone Hst Hq. rewrite Hnone. do 2 f_equal.
  apply filter_all. intros e. unfold meetsSearch, searchFilters.
  now rewrite Hst, Hq.
Qed.

Lemma search_unrestricted_for_administrators_witness :
  principal (db Sample.world2) 3 = Some (true, Some 30)
  /\ exists result,
       searchBlacklistEntries 3 (SearchInput.mk None None None None 20 0)
         (db Sample.world2)
       = (inr result, [])
       /\ SearchResult.total result = 2.
Proof.
  assert (Hp : principal (db Sample.world2) 3 = Some (true, Some 30))
    by reflexivity.
  refine (conj Hp _).
  destruct (search_unrestricted_for_administrators (db Sample.world2) 3
              (Some 30) (SearchInput.mk None None None None 20 0) Hp)
    as [result [E [_ Ht]]].
  exists result. split; [exact E|].
  exact (Ht eq_refl eq_refl eq_refl).
Defined.

Lemma isMeta_toLowerCaseChar (c : ascii) :
  Sql.isMeta (Js.toLowerCaseChar c) = Sql.isMeta c.
Proof. destruct c as [[] [] [] [] [] [] [] []]; reflexivity. Qed.

Lemma plain_toLowerCase (s : string) :
  plain (Js.toLowerCase s) = plain s.
Proof.
  induction s as [|c s IH]; [reflexivity|].
  cbn [Js.toLowerCase plain]. now rewrite isMeta_toLowerCaseChar, IH.
Qed.

Lemma ilike_plain {R : Type} (col : R -> option string) (text : string)
    (r : R) :
  plain text = true ->
  Sql.is_true (ilike col ("%" ++ text ++ "%") r)
  = match col r with
    | Some value => Js.includes (Js.toLowerCase value) (Js.toLowerCase text)
    | None => false
    end.
Proof.
  intros Hp. unfold ilike. rewrite !toLowerCase_app.
  change (Js.toLowerCase "%") with "%".
  rewrite like_plain by now rewrite plain_toLowerCase.
  now destruct (col r).
Qed.

Lemma searchTermCondition_plain (text : string) (e : BlacklistEntry.t) :
  plain text = true ->
  Sql.is_true (searchTermCondition ("%" ++ text ++ "%") e)
  = foundIgnoringCase text e.
Proof.
  intros Hp. unfold searchTermCondition, foundIgnoringCase.
  rewrite is_true_or_. cbn [existsb]. now rewrite !(ilike_plain _ _ _ Hp).
Qed.

Lemma trimmed_nonempty (query : string) :
  trim query <> EmptyString ->
  truthyString query && (0 <? Z.of_nat (String.length (trim query))) = true.
Proof.
  intros H. destruct query as [|c rest]; [now contradiction H|].
  cbn [truthyString andb]. destruct (trim (String c rest)); [congruence|].
  reflexivity.
Qed.

Lemma limit_offset_from_start {R : Type} (limit : Z) (l : list R) :
  Z.of_nat (List.length l) <= limit -> Sql.limit_offset limit 0 l = l.
Proof.
  intros H. unfold Sql.limit_offset. cbn [Z.to_nat skipn].
  apply firstn_all2. lia.
Qed.

Lemma sample_asciiColumns (e : BlacklistEntry.t) :
  In e (rows (blacklistEntriesTable (db Sample.world2))) ->
  asciiColumns e = true.
Proof.
  change (rows (blacklistEntriesTable (db Sample.world2)))
    with (entries Sample.world2).
  rewrite sample_entries. intros [<-|[<-|[]]]; reflexivity.
Qed.

(** X25. The text of a search is trimmed and then looked for with letter
    case ignored, in first name, last name, id number, email and phone.
    For ASCII text in the search and in the five columns: when the
    trimmed text is not empty and has none of [%], [_] and backslash, an
    administrator's search with that text alone counts exactly the rows
    in which it occurs in one of the five columns, whatever the letter
    case on either side; it returns such rows only, and all of them when
    it starts at offset 0 with a limit that is not below the total. *)
Theorem search_text_ignores_case
    (d : Db) (userId : Z) (userCompanyId : option Z) (query : string)
    (limit offset : Z) :
  principal d userId = Some (true, userCompanyId) ->
  trim query <> EmptyString ->
  plain (trim query) = true ->
  asciiOnly query = true ->
  (forall e, In e (rows (blacklistEntriesTable d)) ->
             asciiColumns e = true) ->
  exists result,
    searchBlacklistEntries userId
      (SearchInput.mk (Some query) None None None limit offset) d
    = (inr result, [])
    /\ SearchResult.total result
       = Z.of_nat
           (List.length
              (filter (foundIgnoringCase (trim query))
                 (rows (blacklistEntriesTable d))))
    /\ (forall e, In e (SearchResult.entries result) ->
                  In e (rows (blacklistEntriesTable d))
                  /\ foundIgnoringCase (trim query) e = true)
    /\ (offset = 0 ->
        SearchResult.total result <= limit ->
        forall e, In e (rows (blacklistEntriesTable d)) ->
                  foundIgnoringCase (trim query) e = true ->
                  In e (SearchResult.entries result)).
Proof.
  intros Hp Hne Hplain _ _.
  destruct (searchBlacklistEntries_run d userId
              (SearchInput.mk (Some query) None None None limit offset)
              true userCompanyId [] Hp eq_refl) as [faceMatches E].
  rewrite E. eexists. split; [reflexivity|].
  cbn [SearchResult.total SearchResult.entries SearchInput.limit
       SearchInput.offset].
  assert (Hf : forall l,
             filter (fun e =>
                       forallb (fun c => Sql.is_true (c e)) []
                       && meetsSearch
                            (SearchInput.mk (Some query) None None None
                               limit offset) e) l
             = filter (foundIgnoringCase (trim query)) l).
  { intros l. apply filter_ext. intros e.
    unfold meetsSearch, searchFilters.
    cbn [SearchInput.status SearchInput.query app forallb andb].
    rewrite (trimmed_nonempty _ Hne). cbn [forallb].
    now rewrite (searchTermCondition_plain _ _ Hplain), andb_true_r. }
  rewrite Hf. split; [reflexivity|]. split.
  - intros e H. apply In_limit_offset in H. now apply filter_In in H.
  - intros -> Htotal e Hin Hfound.
    rewrite limit_offset_from_start by exact Htotal.
    apply filter_In. now split.
Qed.

Lemma search_text_ignores_case_witness :
  principal (db Sample.world2) 3 = Some (true, Some 30)
  /\ trim "  wilSON " <> EmptyString
  /\ plain (trim "  wilSON ") = true
  /\ asciiOnly "  wilSON " = true
  /\ (forall e, In e (rows (blacklistEntriesTable (db Sample.world2))) ->
                asciiColumns e = true)
  /\ exists result,
       searchBlacklistEntries 3
         (SearchInput.mk (Some "  wilSON ") None None None 20 0)
         (db Sample.world2)
       = (inr result, [])
       /\ SearchResult.total result = 1
       /\ In Sample.bobEntry (SearchResult.entries result).
Proof.
  assert (Hp : principal (db Sample.world2) 3 = Some (true, Some 30))
    by reflexivity.
  assert (Hne : trim "  wilSON " <> EmptyString) by discriminate.
  assert (Hplain : plain (trim "  wilSON ") = true) by reflexivity.
  assert (Hq : asciiOnly "  wilSON " = true) by reflexivity.
  refine (conj Hp (conj Hne (conj Hplain (conj Hq
            (conj sample_asciiColumns _))))).
  destruct (search_text_ignores_case (db Sample.world2) 3 (Some 30)
              "  wilSON " 20 0 Hp Hne Hplain Hq sample_asciiColumns)
    as [result [E [Ht [_ Hall]]]].
  exists result. split; [exact E|]. split; [exact Ht|].
  apply Hall.
  - reflexivity.
  - rewrite Ht. discriminate.
  - change (rows (blacklistEntriesTable (db Sample.world2)))
      with (entries Sample.world2).
    rewrite sample_entries. right. now left.
  - reflexivity.
Defined.

(** X26. Who cannot search: for a user id that is in no row of the users
    table the search throws the user-not-found error, and for a user who
    is not an administrator and has no company (or a company with id 0)
    it throws the no-associated-company error; each error is written to
    the console once. *)
Theorem search_refused
    (d : Db) (userId : Z) (input : SearchInput.t) :
  (principal d userId = None ->
   searchBlacklistEntries userId input d
   = (inl UserNotFound,
      [("Search blacklist entries failed:", UserNotFound)]))
  /\ (principal d userId = Some (false, None)
      \/ principal d userId = Some (false, Some 0) ->
      searchBlacklistEntries userId input d
      = (inl UserHasNoCompany,
         [("Search blacklist entries failed:", UserHasNoCompany)])).
Proof.
  unfold principal, searchBlacklistEntries. split.
  - destruct (userWithCompany d userId) as [|[a c] l]; [reflexivity|].
    discriminate.
  - destruct (userWithCompany d userId) as [|[a c] l];
      intros [H|H]; try discriminate; injection H as -> ->; reflexivity.
Qed.

Lemma search_refused_witness :
  principal (db Sample.world2) 99 = None
  /\ searchBlacklistEntries 99 (SearchInput.mk None None None None 20 0)
       (db Sample.world2)
     = (inl UserNotFound,
        [("Search blacklist entries failed:", UserNotFound)]).
Proof.
  assert (Hp : principal (db Sample.world2) 99 = None) by reflexivity.
  refine (conj Hp _).
  exact (proj1 (search_refused (db Sample.world2) 99
                  (SearchInput.mk None None None None 20 0)) Hp).
Defined.

(** X27. [searchByText] knows no caller: a blank text finds nothing, and
    any other text without [%], [_] and backslash finds, with letter case
    ignored, the rows of every company in which the trimmed text occurs
    in one of the five columns -- or of the one company passed along,
    when a company id other than 0 is passed.  The query has no
    [ORDER BY]: the rows found come in an order the code does not fix.
    The text searched and the five columns hold ASCII text, and the
    company id is within the range of the column. *)
Theorem searchByText_result
    (d : Db) (query : string) (companyId : option Z) :
  plain (trim query) = true ->
  asciiOnly query = true ->
  (forall e, In e (rows (blacklistEntriesTable d)) ->
             asciiColumns e = true) ->
  (forall c, companyId = Some c -> int4 c) ->
  exists found,
    searchByText query companyId d = (inr found, [])
    /\ (trim query = EmptyString -> found = [])
    /\ (trim query <> EmptyString ->
        Permutation found
          (filter (fun e => foundIgnoringCase (trim query) e
                            && ofCompanyIfGiven companyId e)
             (rows (blacklistEntriesTable d)))).
Proof.
  intros Hplain _ _ _. unfold searchByText.
  destruct (negb (truthyString query)
            || (Z.of_nat (String.length (trim query)) =? 0)) eqn:Hq;
    cbn [traced]; eexists; (split; [reflexivity|]); split.
  - reflexivity.
  - intros Hne. exfalso. apply Hne.
    apply orb_true_iff in Hq. destruct Hq as [Hq|Hq].
    + now destruct query.
    + destruct (trim query); [reflexivity | discriminate].
  - intros E. rewrite E in Hq. cbn in Hq. now rewrite orb_true_r in Hq.
  - intros _.
    match goal with
    | |- Permutation ?a ?b => replace a with b; [apply Permutation_refl|]
    end.
    unfold ofCompanyIfGiven.
    destruct companyId as [c|]; [destruct (truthyNumber c)|];
      cbn [app]; unfold Sql.where_; apply filter_ext; intros e;
      rewrite ?is_true_and_; cbn [forallb];
      rewrite (searchTermCondition_plain _ _ Hplain);
      unfold Sql.eqZ; rewrite ?is_true_Some, ?andb_true_r; reflexivity.
Qed.

Lemma searchByText_result_witness :
  plain (trim " WILSON") = true
  /\ asciiOnly " WILSON" = true
  /\ (forall e, In e (rows (blacklistEntriesTable (db Sample.world2))) ->
                asciiColumns e = true)
  /\ (forall c, Some 20 = Some c -> int4 c)
  /\ exists found,
       searchByText " WILSON" (Some 20) (db Sample.world2) = (inr found, [])
       /\ Permutation found [Sample.bobEntry].
Proof.
  assert (Hplain : plain (trim " WILSON") = true) by reflexivity.
  assert (Hq : asciiOnly " WILSON" = true) by reflexivity.
  assert (Hc : forall c, Some 20 = Some c -> int4 c)
    by (intros c E; injection E as <-; unfold int4; lia).
  refine (conj Hplain (conj Hq (conj sample_asciiColumns (conj Hc _)))).
  destruct (searchByText_result (db Sample.world2) " WILSON" (Some 20)
              Hplain Hq sample_asciiColumns Hc) as [found [E [_ Hperm]]].
  exists found. split; [exact E|].
  apply Hperm. discriminate.
Defined.

(** ** Suggestions *)

Lemma SuggestionType_eqb_eq (a b : SuggestionType) :
  SuggestionType_eqb a b = true <-> a = b.
Proof. destruct a, b; cbn; split; intros H; congruence. Qed.

Lemma sameSuggestion_key (a b : Suggestion.t) :
  sameSuggestion a b = true <-> suggestionKey b = suggestionKey a.
Proof.
  unfold sameSuggestion, suggestionKey.
  rewrite andb_true_iff, String.eqb_eq, SuggestionType_eqb_eq.
  split; [intros [-> ->]; reflexivity | intros H; now injection H].
Qed.

Lemma sameSuggestion_ext (a b s : Suggestion.t) :
  suggestionKey a = suggestionKey b ->
  sameSuggestion a s = sameSuggestion b s.
Proof.
  intros H. apply eq_true_iff_eq. rewrite !sameSuggestion_key. now rewrite H.
Qed.

Lemma findIndexFrom_ext {A : Type} (p q : A -> bool) (l : list A) (i : Z) :
  (forall x, p x = q x) -> findIndexFrom p l i = findIndexFrom q l i.
Proof.
  intros H. revert i. induction l as [|x l IH]; intros i; [reflexivity|].
  cbn [findIndexFrom]. now rewrite H, IH.
Qed.

Lemma map_fst_combine_seq {A : Type} (l : list A) (a : nat) :
  map fst (combine (seq a (List.length l)) l) = seq a (List.length l).
Proof.
  revert a. induction l as [|x l IH]; intros a; [reflexivity|].
  cbn. now rewrite IH.
Qed.

Lemma NoDup_map_injective {A B : Type} (f : A -> B) (l : list A) :
  (forall x y, In x l -> In y l -> f x = f y -> x = y) ->
  NoDup l -> NoDup (map f l).
Proof.
  intros Hinj Hnd. induction Hnd as [|x l Hx Hl IH]; [constructor|].
  cbn [map]. constructor.
  - intros Hin. apply in_map_iff in Hin. destruct Hin as [y [E Hy]].
    assert (y = x) as -> by (apply Hinj; [now right | now left | exact E]).
    contradiction.
  - apply IH. intros a b Ha Hb. apply Hinj; now right.
Qed.

Lemma indexed_functional {A : Type} (L : list (nat * A)) (i : nat) (a b : A) :
  NoDup (map fst L) -> In (i, a) L -> In (i, b) L -> a = b.
Proof.
  induction L as [|[j c] L IH]; cbn; [tauto|].
  intros Hnd Ha Hb. inversion Hnd as [|? ? Hj HL]; subst.
  destruct Ha as [Ha|Ha], Hb as [Hb|Hb].
  - congruence.
  - injection Ha as -> ->. exfalso. apply Hj.
    change i with (fst (i, b)). now apply in_map.
  - injection Hb as -> ->. exfalso. apply Hj.
    change i with (fst (i, a)). now apply in_map.
  - now apply IH.
Qed.

Lemma uniqueSuggestions_NoDup (l : list Suggestion.t) :
  NoDup (map suggestionKey (uniqueSuggestions l)).
Proof.
  unfold uniqueSuggestions. rewrite map_map.
  set (L := combine (seq 0 (List.length l)) l).
  assert (HL : NoDup (map fst L))
    by (unfold L; rewrite map_fst_combine_seq; apply seq_NoDup).
  apply NoDup_map_injective.
  - intros [i a] [j b] Ha Hb E. cbn [snd] in E.
    apply filter_In in Ha, Hb. destruct Ha as [Ha Pa], Hb as [Hb Pb].
    cbn [fst snd] in Pa, Pb. apply Z.eqb_eq in Pa, Pb.
    assert (i = j) as ->.
    { unfold findIndex in Pa, Pb.
      rewrite (findIndexFrom_ext _ _ l 0
                 (fun s => sameSuggestion_ext a b s E)) in Pa.
      lia. }
    f_equal. exact (indexed_functional L j a b HL Ha Hb).
  - apply NoDup_filter. exact (NoDup_map_inv _ _ HL).
Qed.

Lemma NoDup_firstn {A : Type} (n : nat) (l : list A) :
  NoDup l -> NoDup (firstn n l).
Proof.
  revert l. induction n as [|n IH]; intros l H; [constructor|].
  destruct l as [|x l]; [constructor|]. inversion H as [|? ? Hx Hl]; subst.
  cbn [firstn]. constructor; [|now apply IH].
  intros Hin. apply Hx. now apply In_firstn in Hin.
Qed.

Lemma uniqueSuggestions_subset (l : list Suggestion.t) (s : Suggestion.t) :
  In s (uniqueSuggestions l) -> In s l.
Proof.
  unfold uniqueSuggestions. intros H. apply in_map_iff in H.
  destruct H as [[i a] [<- H]]. apply filter_In in H. destruct H as [H _].
  now apply in_combine_r in H.
Qed.

(** X28. Suggestions never fail and are few and distinct: for any user,
    any text and any database the call returns (it does not throw and
    writes nothing to the console), with at most 10 suggestions, no two
    of which have the same type and value. *)
Theorem suggestions_few_and_distinct (userId : Z) (query : string) (d : Db) :
  exists suggestions,
    getSearchSuggestions userId query d = (inr suggestions, [])
    /\ (List.length suggestions <= 10)%nat
    /\ NoDup (map suggestionKey suggestions).
Proof.
  unfold getSearchSuggestions.
  destruct (negb (truthyString query) || _).
  { exists []. repeat split; [cbn; lia | constructor]. }
  destruct (userWithCompany d userId) as [|[isAdmin userCompanyId] l].
  { exists []. repeat split; [cbn; lia | constructor]. }
  destruct (suggestionScope isAdmin userCompanyId) as [scope|].
  2:{ exists []. repeat split; [cbn; lia | constructor]. }
  cbn [traced]. eexists. split; [reflexivity|]. split.
  - rewrite length_firstn. lia.
  - rewrite <- firstn_map. apply NoDup_firstn, uniqueSuggestions_NoDup.
Qed.

Lemma In_suggestionsOf (query : string) (e : BlacklistEntry.t)
    (s : Suggestion.t) :
  In s (suggestionsOf query e) -> Suggestion.entry_id s = BlacklistEntry.id e.
Proof.
  unfold suggestionsOf. intros H.
  repeat (apply in_app_or in H; destruct H as [H|H]).
  - destruct (Js.includes _ _); [|contradiction].
    destruct H as [<-|[]]. reflexivity.
  - destruct (Js.includes _ _); [|contradiction].
    destruct H as [<-|[]]. reflexivity.
  - destruct (BlacklistEntry.email e) as [email|]; [|contradiction].
    destruct (truthyString email && _); [|contradiction].
    destruct H as [<-|[]]. reflexivity.
  - destruct (BlacklistEntry.phone e) as [phone|]; [|contradiction].
    destruct (truthyString phone && _); [|contradiction].
    destruct H as [<-|[]]. reflexivity.
Qed.

(** X29. Suggestions stay inside the company of a user who is not an
    administrator: each suggestion made to such a user carries the id of
    an entry of the user's own company.  A text shorter than two
    characters once trimmed gets no suggestion, and neither does a user
    who is unknown, or who is not an administrator and has no company:
    these calls return an empty list where the search throws. *)
Theorem suggestions_scoped (userId : Z) (query : string) (d : Db) :
  (forall companyId s,
      principal d userId = Some (false, Some companyId) ->
      In s (suggested userId query d) ->
      exists e, In e (rows (blacklistEntriesTable d))
                /\ BlacklistEntry.company_id e = companyId
                /\ BlacklistEntry.id e = Suggestion.entry_id s)
  /\ (Z.of_nat (String.length (trim query)) < 2 ->
      suggested userId query d = [])
  /\ (principal d userId = None
      \/ principal d userId = Some (false, None)
      \/ principal d userId = Some (false, Some 0) ->
      getSearchSuggestions userId query d = (inr [], [])).
Proof.
  unfold suggested, principal, getSearchSuggestions.
  split; [|split].
  - intros companyId s Hp Hin.
    destruct (negb (truthyString query) || _); [contradiction|].
    destruct (userWithCompany d userId) as [|[isAdmin uc] l]; [discriminate|].
    injection Hp as -> ->. unfold suggestionScope in Hin. cbn [negb] in Hin.
    destruct (truthyNumber companyId); [|contradiction].
    cbn [traced fst app] in Hin.
    apply In_firstn, uniqueSuggestions_subset, in_flat_map in Hin.
    destruct Hin as [e [He Hs]]. apply In_firstn, In_where in He.
    destruct He as [He T]. rewrite is_true_and_ in T. cbn [forallb] in T.
    apply andb_true_iff in T. destruct T as [T _].
    unfold Sql.eqZ in T. rewrite is_true_Some in T. apply Z.eqb_eq in T.
    exists e. repeat split; [exact He | exact T |].
    symmetry. exact (In_suggestionsOf _ _ _ Hs).
  - intros Hshort.
    assert ((Z.of_nat (String.length (trim query)) <? 2) = true) as ->
      by now apply Z.ltb_lt.
    now rewrite orb_true_r.
  - intros H. destruct (negb (truthyString query) || _); [reflexivity|].
    destruct (userWithCompany d userId) as [|[isAdmin uc] l]; [reflexivity|].
    destruct H as [H | [H | H]]; [discriminate| |];
      injection H as -> ->; reflexivity.
Qed.

Lemma suggestions_scoped_witness :
  principal (db Sample.world2) 1 = Some (false, Some 10)
  /\ In (Suggestion.mk SuggestName "Jane Doe" 1)
       (suggested 1 "jane" (db Sample.world2))
  /\ exists e, In e (rows (blacklistEntriesTable (db Sample.world2)))
               /\ BlacklistEntry.company_id e = 10
               /\ BlacklistEntry.id e = 1.
Proof.
  assert (Hp : principal (db Sample.world2) 1 = Some (false, Some 10))
    by reflexivity.
  assert (Hin : In (Suggestion.mk SuggestName "Jane Doe" 1)
                  (suggested 1 "jane" (db Sample.world2)))
    by (left; reflexivity).
  refine (conj Hp (conj Hin _)).
  exact (proj1 (suggestions_scoped 1 "jane" (db Sample.world2)) 10
           (Suggestion.mk SuggestName "Jane Doe" 1) Hp Hin).
Defined.
